(** * Saudi standards API: normalisation, segmentation and query engine

    A shallow embedding of [src/server.ts]: the text segmenter
    ([parseContentIntoClauses]) with its three regular expressions, the
    structural walkers ([fromHcis], [fromDocumentStructure],
    [normalizeRecord]), the corpus construction ([loadData]) and the three
    query handlers ([searchRequirements], [getReference],
    [generateChecklist]).

    Conventions of the embedding.
    - A JavaScript string is a Rocq [string]; one [ascii] stands for one
      UTF-16 code unit, so the model covers the code units 0..255 (Latin-1).
      [String.length] is JavaScript's [.length].
    - A parsed JSON document is a [value]; property access on [null] raises
      a TypeError, modelled by [Throw].
    - [NormalizedRecord] has string fields, as its TypeScript interface
      declares; the segmenter and the query handlers are typed by it.  The
      walkers copy the attributes of a parsed document as they are, so the
      records they assemble are [StoredRecord]s, whose attributes are JSON
      [value]s.  A template literal prints a value with [to_str]
      (JavaScript's [String(v)]); JSON numbers are integers.
    - The request bodies have the types of their TypeScript interfaces; an
      absent field is [None].
    - A regular expression is a [Regex.regex] term run by a backtracking
      matcher that follows ECMAScript's priorities (greedy and lazy
      quantifiers, ordered alternation, atomic lookahead). *)

From Stdlib Require Import Bool Arith List Lia ZArith.
From Stdlib Require Import Ascii String DecimalString.
Import ListNotations.

Open Scope string_scope.
Open Scope list_scope.
Open Scope nat_scope.

Set Warnings "-register-all,-abstract-large-number".

(* ================================================================== *)
(** ** Characters and strings as JavaScript has them *)

Module Str.

Definition code (c : ascii) : nat := nat_of_ascii c.

(** [\d] *)
Definition isDigit (c : ascii) : bool :=
  (48 <=? code c) && (code c <=? 57).

(** [\s], and the characters [trim] strips: TAB, LF, VT, FF, CR, SP and
    NBSP are the members below code unit 256. *)
Definition isWhiteSpace (c : ascii) : bool :=
  let n := code c in
  ((9 <=? n) && (n <=? 13)) || (n =? 32) || (n =? 160).

(** [toLowerCase] on one code unit: A-Z, and the Latin-1 capitals
    0xC0-0xDE except the multiplication sign 0xD7. *)
Definition lowerChar (c : ascii) : ascii :=
  let n := code c in
  if ((65 <=? n) && (n <=? 90))
     || ((192 <=? n) && (n <=? 222) && negb (n =? 215))
  then ascii_of_nat (n + 32) else c.

(** [toUpperCase] on one code unit, where the result stays below 256;
    this is the regular-expression [Canonicalize] of the [i] flag.
    0xB5 and 0xFF have capitals above 0xFF, equal to no Latin-1
    character's capital, and are kept. *)
Definition upperChar (c : ascii) : ascii :=
  let n := code c in
  if ((97 <=? n) && (n <=? 122))
     || ((224 <=? n) && (n <=? 254) && negb (n =? 247))
  then ascii_of_nat (n - 32) else c.

Fixpoint map (f : ascii -> ascii) (s : string) : string :=
  match s with
  | EmptyString => EmptyString
  | String c s' => String (f c) (map f s')
  end.

Definition toLowerCase (s : string) : string := map lowerChar s.
Definition toUpperCase (s : string) : string := map upperChar s.

Fixpoint trimStart (s : string) : string :=
  match s with
  | EmptyString => EmptyString
  | String c s' => if isWhiteSpace c then trimStart s' else s
  end.

Fixpoint trimEnd (s : string) : string :=
  match s with
  | EmptyString => EmptyString
  | String c s' =>
      match trimEnd s' with
      | EmptyString => if isWhiteSpace c then EmptyString
                       else String c EmptyString
      | r => String c r
      end
  end.

(** [s.trim()] *)
Definition trim (s : string) : string := trimEnd (trimStart s).

(** [s.replace(/\s+/g, ' ')]: every maximal run of white space becomes
    one space.  [inrun] tells that the previous character was white
    space, whose run has already been replaced. *)
Fixpoint collapseFrom (inrun : bool) (s : string) : string :=
  match s with
  | EmptyString => EmptyString
  | String c s' =>
      if isWhiteSpace c
      then if inrun then collapseFrom true s'
           else String " " (collapseFrom true s')
      else String c (collapseFrom false s')
  end.

Definition collapseSpaces (s : string) : string := collapseFrom false s.

(** [s.replace(/_/g, ' ')] *)
Definition underscoresToSpaces (s : string) : string :=
  map (fun c => if Ascii.eqb c "_" then " "%char else c) s.

(** [s.startsWith(p)] *)
Fixpoint startsWith (s p : string) : bool :=
  match p, s with
  | EmptyString, _ => true
  | String a p', String b s' => Ascii.eqb a b && startsWith s' p'
  | String _ _, EmptyString => false
  end.

(** [s.includes(sub)] *)
Fixpoint includes (s sub : string) : bool :=
  startsWith s sub
  || match s with
     | EmptyString => false
     | String _ s' => includes s' sub
     end.

(** [s.endsWith(suffix)] *)
Definition endsWith (s suffix : string) : bool :=
  (String.length suffix <=? String.length s)
  && String.eqb
       (substring (String.length s - String.length suffix)
                  (String.length suffix) s)
       suffix.

(** [s.substring(0, n)] is the library's [substring 0 n s]. *)
Definition substring0 (n : nat) (s : string) : string := substring 0 n s.

(** [String(n)] for a non-negative integer and for an integer. *)
Definition ofNat (n : nat) : string :=
  NilEmpty.string_of_uint (Nat.to_uint n).

Definition ofZ (z : Z) : string :=
  NilEmpty.string_of_int (Z.to_int z).

(** [a || b] on strings: the empty string is the only falsy one. *)
Definition orElse (a b : string) : string :=
  match a with EmptyString => b | _ => a end.

Definition nonEmpty (s : string) : bool :=
  match s with EmptyString => false | _ => true end.

Fixpoint repeat (c : ascii) (n : nat) : string :=
  match n with
  | 0 => EmptyString
  | S n' => String c (repeat c n')
  end.

Definition LF : string := String (ascii_of_nat 10) EmptyString.

Fixpoint join (sep : string) (l : list string) : string :=
  match l with
  | [] => EmptyString
  | [x] => x
  | x :: l' => (x ++ sep ++ join sep l')%string
  end.

End Str.

(* ================================================================== *)
(** ** Regular expressions *)

Module Regex.

Inductive regex : Type :=
| Eps                                   (* empty pattern *)
| Chr (p : ascii -> bool)               (* one character of a class *)
| Cat (r1 r2 : regex)                   (* r1 r2 *)
| Alt (r1 r2 : regex)                   (* r1|r2 *)
| Star (greedy : bool) (r : regex)      (* r* and r*? *)
| Group (i : nat) (r : regex)           (* the i-th capturing group *)
| Look (r : regex)                      (* (?=r) *)
| Eoi.                                  (* $ without the m flag *)

(** Captures, latest binding first; a group that did not take part is
    [undefined] in JavaScript and reads as the empty string here: every
    use in the source is [match[i] || ...], where both are falsy. *)
Definition captures : Type := list (nat * string).

Fixpoint capture (c : captures) (i : nat) : string :=
  match c with
  | [] => EmptyString
  | (j, s) :: c' => if j =? i then s else capture c' i
  end.

Definition outcome : Type := option (string * captures).

(** The iterations of a star, at most [n] of them: [step] matches the
    body once.  Greedy: one more iteration is tried before the
    continuation [k]; lazy: [k] is tried first.  An iteration that
    consumes nothing is refused, as the standard does, so [n] above the
    length of [s] never runs out ([starLoop_fuel] below). *)
Fixpoint starLoop
         (step : string -> captures -> (string -> captures -> outcome)
                 -> outcome)
         (greedy : bool) (k : string -> captures -> outcome)
         (n : nat) (s : string) (c : captures) {struct n} : outcome :=
  let again :=
    match n with
    | 0 => None
    | S n' =>
        step s c
             (fun s' c' =>
                if String.length s' <? String.length s
                then starLoop step greedy k n' s' c' else None)
    end in
  if greedy
  then match again with Some x => Some x | None => k s c end
  else match k s c with Some x => Some x | None => again end.

(** [run r s c k]: match [r] at the front of [s], then continue with
    [k] on what is left; the first success in ECMAScript's backtracking
    order is returned. *)
Fixpoint run (r : regex) (s : string) (c : captures)
         (k : string -> captures -> outcome) {struct r} : outcome :=
  match r with
  | Eps => k s c
  | Chr p =>
      match s with
      | String a s' => if p a then k s' c else None
      | EmptyString => None
      end
  | Cat r1 r2 => run r1 s c (fun s' c' => run r2 s' c' k)
  | Alt r1 r2 =>
      match run r1 s c k with
      | Some x => Some x
      | None => run r2 s c k
      end
  | Star greedy r1 =>
      starLoop (run r1) greedy k (S (String.length s)) s c
  | Group i r1 =>
      run r1 s c
          (fun s' c' =>
             k s' ((i, substring 0 (String.length s - String.length s') s)
                     :: c'))
  | Look r1 =>
      match run r1 s c (fun s' c' => Some (s', c')) with
      | Some (_, c') => k s c'
      | None => None
      end
  | Eoi =>
      match s with
      | EmptyString => k s c
      | String _ _ => None
      end
  end.

(** A match anchored at the front of [s]: the rest after the match and
    the captures. *)
Definition matchAt (r : regex) (s : string) : outcome :=
  run r s [] (fun s' c => Some (s', c)).

(** [Array.from(s.matchAll(r))] for a [g] pattern: the matches from left
    to right, each search starting where the previous match ended (one
    further when the match was empty).  [skip] counts the characters of
    the previous match still to pass.  A match is given by its
    captures. *)
Fixpoint matchAllFrom (r : regex) (s : string) (skip : nat)
  : list captures :=
  match skip with
  | S skip' =>
      match s with
      | EmptyString => []
      | String _ t => matchAllFrom r t skip'
      end
  | 0 =>
      match matchAt r s with
      | Some (s', c) =>
          c :: match s with
               | EmptyString => []
               | String _ t =>
                   matchAllFrom r t
                     (String.length s - String.length s' - 1)
               end
      | None =>
          match s with
          | EmptyString => []
          | String _ t => matchAllFrom r t 0
          end
      end
  end.

Definition matchAll (r : regex) (s : string) : list captures :=
  matchAllFrom r s 0.

(** [s.split(r)] for a pattern without capturing groups.  [piece] is the
    text since the last separator; a separator is looked for at every
    position, and an empty one directly after the previous separator is
    passed over. *)
Fixpoint splitFrom (r : regex) (s : string) (skip : nat) (piece : string)
  : list string :=
  match s with
  | EmptyString => [piece]
  | String a t =>
      match skip with
      | S skip' => splitFrom r t skip' piece
      | 0 =>
          match matchAt r s with
          | Some (s', _) =>
              match String.length s - String.length s' with
              | 0 =>
                  match piece with
                  | EmptyString => splitFrom r t 0 (String a EmptyString)
                  | _ => piece :: splitFrom r t 0 (String a EmptyString)
                  end
              | S len => piece :: splitFrom r t len EmptyString
              end
          | None => splitFrom r t 0 (piece ++ String a EmptyString)%string
          end
      end
  end.

Definition split (r : regex) (s : string) : list string :=
  match s with
  | EmptyString =>
      match matchAt r s with Some _ => [] | None => [EmptyString] end
  | _ => splitFrom r s 0 EmptyString
  end.

(** Pattern building blocks. *)
Fixpoint seq (l : list regex) : regex :=
  match l with
  | [] => Eps
  | [r] => r
  | r :: l' => Cat r (seq l')
  end.

Definition plus (r : regex) : regex := Cat r (Star true r).      (* r+ *)
Definition plusLazy (r : regex) : regex := Cat r (Star false r). (* r+? *)
Definition star (r : regex) : regex := Star true r.              (* r* *)
Definition opt (r : regex) : regex := Alt r Eps.                 (* r? *)

Definition chr (a : ascii) : regex := Chr (Ascii.eqb a).
(** a character under the [i] flag *)
Definition chrCI (a : ascii) : regex :=
  Chr (fun b => Ascii.eqb (Str.upperChar b) (Str.upperChar a)).

Fixpoint lit (s : string) : regex :=
  match s with
  | EmptyString => Eps
  | String a EmptyString => chr a
  | String a s' => Cat (chr a) (lit s')
  end.

Fixpoint litCI (s : string) : regex :=
  match s with
  | EmptyString => Eps
  | String a EmptyString => chrCI a
  | String a s' => Cat (chrCI a) (litCI s')
  end.

Definition digit : regex := Chr Str.isDigit.                       (* \d *)
Definition nonDigit : regex := Chr (fun a => negb (Str.isDigit a)). (* [^\d] *)
Definition space : regex := Chr Str.isWhiteSpace.                  (* \s *)

End Regex.

(* ================================================================== *)
(** ** The three patterns of the text segmenter *)

Section Patterns.
Import Regex.

(** [\d+\.\d+] *)
Definition dottedPair : regex := seq [plus digit; chr "."; plus digit].
(** [\.\d+] *)
Definition dotNumber : regex := seq [chr "."; plus digit].
(** [Article\s*\(], case-sensitive as in patterns 1 and 3 *)
Definition articleMarker : regex := seq [lit "Article"; star space; chr "("].
(** [Article\s*\(] under the [i] flag of pattern 2 *)
Definition articleMarkerCI : regex :=
  seq [litCI "Article"; star space; chr "("].

(** [/(\d+\.\d+(?:\.\d+)*(?:\.\d+)?)\s+([^\d]+?)(?=\d+\.\d+(?:\.\d+)*|Article\s*\(|$)/gs] *)
Definition numberedPattern : regex :=
  seq [ Group 1 (seq [dottedPair; star dotNumber; opt dotNumber]);
        plus space;
        Group 2 (plusLazy nonDigit);
        Look (Alt (seq [dottedPair; star dotNumber])
                  (Alt articleMarker Eoi)) ].

(** [/Article\s*\((\d+)\)(?:\s*[:])?\s*([^A]+?)(?=Article\s*\(|$)/gis];
    under [i] the class [[^A]] excludes both [A] and [a]. *)
Definition articlePattern : regex :=
  seq [ litCI "Article"; star space; chr "(";
        Group 1 (plus digit);
        chr ")";
        opt (seq [star space; chr ":"]);
        star space;
        Group 2 (plusLazy
                   (Chr (fun a => negb (Ascii.eqb (Str.upperChar a)
                                                  (Str.upperChar "A")))));
        Look (Alt articleMarkerCI Eoi) ].

(** [/(\d+\.\d+)\s+([^\d]+?)(?=\d+\.\d+|Article\s*\(|$)/gs] *)
Definition sectionPattern : regex :=
  seq [ Group 1 dottedPair;
        plus space;
        Group 2 (plusLazy nonDigit);
        Look (Alt dottedPair (Alt articleMarker Eoi)) ].

(** [/[.!?]+/], the sentence separator *)
Definition sentenceEnd : regex :=
  plus (Chr (fun a => Ascii.eqb a "." || Ascii.eqb a "!" || Ascii.eqb a "?")).

(** [/\n\s*\n/], the paragraph separator *)
Definition blankLine : regex :=
  seq [chr (ascii_of_nat 10); star space; chr (ascii_of_nat 10)].

(** [/\s+/], the word separator of [fuzzyMatch] *)
Definition spaces : regex := plus space.

End Patterns.

(* ================================================================== *)
(** ** Parsed JSON documents *)

Inductive value : Type :=
| VUndefined
| VNull
| VBool (b : bool)
| VNum (z : Z)
| VStr (s : string)
| VArr (items : list value)
| VObj (fields : list (string * value)).  (* each key once *)

(** The outcome of code that may raise a TypeError. *)
Inductive result (A : Type) : Type :=
| Ok (a : A)
| Throw.

Arguments Ok {A} a.
Arguments Throw {A}.

Definition bind {A B : Type} (x : result A) (f : A -> result B) : result B :=
  match x with
  | Ok a => f a
  | Throw => Throw
  end.

Notation "x <- e ;; k" := (bind e (fun x => k))
  (at level 61, e at next level, right associativity).

(** JavaScript truthiness on JSON values. *)
Definition truthy (v : value) : bool :=
  match v with
  | VUndefined | VNull => false
  | VBool b => b
  | VNum z => negb (Z.eqb z 0)
  | VStr s => Str.nonEmpty s
  | VArr _ | VObj _ => true
  end.

(** [a || b] *)
Definition orv (a b : value) : value := if truthy a then a else b.

Notation "a ||| b" := (orv a b) (at level 50, left associativity).

Definition isArray (v : value) : bool :=
  match v with VArr _ => true | _ => false end.

Fixpoint lookup (fields : list (string * value)) (k : string) : value :=
  match fields with
  | [] => VUndefined
  | (k', v) :: rest => if String.eqb k' k then v else lookup rest k
  end.

(** [v.k] where [v] is known not to be [null]: an absent key, and any key
    the source reads on a number, boolean, string or array, is
    [undefined]. *)
Definition prop (v : value) (k : string) : value :=
  match v with
  | VObj fields => lookup fields k
  | _ => VUndefined
  end.

(** The properties of [v], as a function of the key; reading a property
    of [null] raises.  Each callback of the source starts by reading a
    property of its argument, which is where [props] is placed. *)
Definition props (v : value) : result (string -> value) :=
  match v with
  | VNull | VUndefined => Throw
  | _ => Ok (prop v)
  end.

(** [String(v)], also what a template literal prints. *)
Fixpoint to_str (v : value) : string :=
  match v with
  | VUndefined => "undefined"
  | VNull => "null"
  | VBool true => "true"
  | VBool false => "false"
  | VNum z => Str.ofZ z
  | VStr s => s
  | VArr items =>
      (fix commas (l : list value) : string :=
         match l with
         | [] => EmptyString
         | x :: l' =>
             (match x with
              | VNull | VUndefined => EmptyString
              | _ => to_str x
              end
              ++ match l' with
                 | [] => EmptyString
                 | _ => "," ++ commas l'
                 end)%string
         end) items
  | VObj _ => "[object Object]"
  end.

(** Induction on a document that descends into arrays, which is how
    [normalizeRecord] recurses. *)
Section ValueInduction.
Variable P : value -> Prop.
Hypothesis HUndefined : P VUndefined.
Hypothesis HNull : P VNull.
Hypothesis HBool : forall b, P (VBool b).
Hypothesis HNum : forall z, P (VNum z).
Hypothesis HStr : forall s, P (VStr s).
Hypothesis HArr : forall items, Forall P items -> P (VArr items).
Hypothesis HObj : forall fields, P (VObj fields).

Fixpoint value_array_ind (v : value) : P v :=
  match v with
  | VUndefined => HUndefined
  | VNull => HNull
  | VBool b => HBool b
  | VNum z => HNum z
  | VStr s => HStr s
  | VArr items =>
      HArr items
           ((fix all (l : list value) : Forall P l :=
               match l with
               | [] => Forall_nil P
               | x :: l' => Forall_cons x (value_array_ind x) (all l')
               end) items)
  | VObj fields => HObj fields
  end.
End ValueInduction.

(* ================================================================== *)
(** ** The canonical record *)

(** The record with attributes of type [F]: [string] in the declared
    interface, [value] in a record assembled from a parsed document.  The
    [standard] always comes from the file name. *)
Record RecordOf (F : Type) : Type := mkRecord {
  standard : string;
  directiveCode : F;
  sectionCode : F;
  clauseId : F;
  title : F;
  text : F;
  facilityClass : F;
  domain : F;
  tags : list F;
  reference : F
}.

Arguments mkRecord {F} (standard directiveCode sectionCode clauseId title text
                        facilityClass domain)%_string tags%_list
                   reference%_string.
Arguments standard {F} r.
Arguments directiveCode {F} r.
Arguments sectionCode {F} r.
Arguments clauseId {F} r.
Arguments title {F} r.
Arguments text {F} r.
Arguments facilityClass {F} r.
Arguments domain {F} r.
Arguments tags {F} r.
Arguments reference {F} r.

(** [interface NormalizedRecord]: every attribute is a string. *)
Abbreviation NormalizedRecord := (RecordOf string).

(** A record as the walkers push it: the attributes are the values found
    in the document. *)
Abbreviation StoredRecord := (RecordOf value).

(** [l.forEach((x, index) => ...)] where the callback pushes the records
    [f index x] onto the result. *)
Fixpoint forEachFrom {A B : Type} (f : nat -> A -> list B) (index : nat)
         (l : list A) : list B :=
  match l with
  | [] => []
  | x :: l' => f index x ++ forEachFrom f (S index) l'
  end.

Definition forEach {A B : Type} (f : nat -> A -> list B) (l : list A)
  : list B := forEachFrom f 0 l.

(** The same with a callback that may raise: nothing is returned then. *)
Fixpoint forEachMFrom {A B : Type} (f : nat -> A -> result (list B))
         (index : nat) (l : list A) : result (list B) :=
  match l with
  | [] => Ok []
  | x :: l' =>
      here <- f index x ;;
      later <- forEachMFrom f (S index) l' ;;
      Ok (here ++ later)
  end.

Definition forEachM {A B : Type} (f : nat -> A -> result (list B))
           (l : list A) : result (list B) := forEachMFrom f 0 l.

(* ================================================================== *)
(** ** TextSegmenter: [parseContentIntoClauses] *)

(** [sentences[0]?.trim() || ''] with [sentences = text.split(/[.!?]+/)] *)
Definition firstSentence (text : string) : string :=
  Str.trim (hd EmptyString (Regex.split sentenceEnd text)).

(** [`${a} ${b} ${c} ${d}`.trim()] *)
Definition joinedReference (a b c d : string) : string :=
  Str.trim (a ++ " " ++ b ++ " " ++ c ++ " " ++ d).

(** The cascade: the first pattern with more than one match gives the
    matches, and none does otherwise. *)
Definition selectMatches (content : string) : list Regex.captures :=
  let numberedMatches := Regex.matchAll numberedPattern content in
  if 1 <? List.length numberedMatches then numberedMatches
  else
    let articleMatches := Regex.matchAll articlePattern content in
    if 1 <? List.length articleMatches then articleMatches
    else
      let sectionMatches := Regex.matchAll sectionPattern content in
      if 1 <? List.length sectionMatches then sectionMatches
      else [].

Section Segmenter.
(** The enclosing [standard], [directiveCode], [sectionCode] and
    [domain] arguments. *)
Variables (std dCode sCode dom : string).

(** The body of [matches.forEach((match, index) => ...)]. *)
Definition matchRecord (index : nat) (m : Regex.captures)
  : list NormalizedRecord :=
  let clauseId := Str.orElse (Regex.capture m 1) (Str.ofNat (index + 1)) in
  let text := Str.trim (Regex.capture m 2) in
  let text := Str.trim (Str.collapseSpaces text) in
  if 20 <? String.length text then
    let title :=
      Str.orElse (Str.substring0 200 (firstSentence text))
                 ("Clause " ++ clauseId) in
    [ {| standard := std;
         directiveCode := dCode;
         sectionCode := sCode;
         clauseId := clauseId;
         title := if 0 <? String.length title then title
                  else "Clause " ++ clauseId;
         text := Str.substring0 10000 text;
         facilityClass := "";
         domain := dom;
         tags := [];
         reference :=
           joinedReference std dCode sCode clauseId |} ]
  else [].

(** The body of both [paragraphs.forEach((para, index) => ...)], which
    differ in the least length only. *)
Definition paragraphRecord (minLength : nat) (index : nat) (para : string)
  : list NormalizedRecord :=
  let trimmed := Str.collapseSpaces (Str.trim para) in
  if minLength <? String.length trimmed then
    let title :=
      Str.orElse (Str.substring0 200 (firstSentence trimmed))
                 ("Requirement " ++ Str.ofNat (index + 1)) in
    [ {| standard := std;
         directiveCode := dCode;
         sectionCode := sCode;
         clauseId := Str.ofNat (index + 1);
         title := title;
         text := Str.substring0 10000 trimmed;
         facilityClass := "";
         domain := dom;
         tags := [];
         reference :=
           joinedReference std dCode sCode
                           (Str.ofNat (index + 1)) |} ]
  else [].

(** [content.split(/\n\s*\n/).filter(p => p.trim().length > 100)] *)
Definition paragraphsOf (content : string) : list string :=
  filter (fun p => 100 <? String.length (Str.trim p))
         (Regex.split blankLine content).

(** The paragraph branch. *)
Definition paragraphRecords (content : string) : list NormalizedRecord :=
  let paragraphs := paragraphsOf content in
  if 3 <? List.length paragraphs
  then forEach (paragraphRecord 100) paragraphs
  else forEach (paragraphRecord 50) paragraphs.

(** The record of the whole document. *)
Definition wholeRecord (content : string) : NormalizedRecord :=
  let trimmed :=
    Str.substring0 10000 (Str.collapseSpaces (Str.trim content)) in
  let title :=
    Str.orElse (Str.substring0 200 (firstSentence trimmed))
               (Str.orElse sCode "Requirement") in
  {| standard := std;
     directiveCode := dCode;
     sectionCode := sCode;
     clauseId := "1";
     title := title;
     text := trimmed;
     facilityClass := "";
     domain := dom;
     tags := [];
     reference := joinedReference std dCode sCode "1" |}.

(** The records of the cascade, before any fallback; the source guards the
    loop with [matches.length > 0], which changes nothing. *)
Definition cascadeRecords (content : string) : list NormalizedRecord :=
  forEach matchRecord (selectMatches content).

Definition parseContentIntoClauses (content : string)
  : list NormalizedRecord :=
  if negb (Str.nonEmpty content) || (String.length (Str.trim content) =? 0)
  then []
  else
    let results := cascadeRecords content in
    let results :=
      if (List.length results =? 0) && (200 <? String.length content)
      then results ++ paragraphRecords content
      else results in
    let results :=
      if (List.length results =? 0) && (100 <? String.length content)
      then results ++ [wholeRecord content]
      else results in
    results.

End Segmenter.

(* ================================================================== *)
(** ** StructuralWalker and RecordAssembler *)

(** [parseContentIntoClauses(section.content, standard, directiveCode,
    sectionCode, domain)] as the walks call it: [directiveCode] and
    [sectionCode] are the values read from the document.  They are stored
    as they are and printed by the reference templates; every other
    attribute is the string the segmenter computes, but for the title of
    the whole-text record, which falls back on the section code itself. *)
Section SegmenterCall.
Variables (std : string) (dCode sCode : value) (dom : string).

(** A record of the segmenter with the codes it was called with. *)
Definition withCodes (r : NormalizedRecord) : StoredRecord :=
  {| standard := standard r;
     directiveCode := dCode;
     sectionCode := sCode;
     clauseId := VStr (clauseId r);
     title := VStr (title r);
     text := VStr (text r);
     facilityClass := VStr (facilityClass r);
     domain := VStr (domain r);
     tags := List.map VStr (tags r);
     reference := VStr (reference r) |}.

(** The record of the whole document:
    [title = firstSentence.substring(0, 200) || sectionCode || 'Requirement'] *)
Definition wholeRecordAny (content : string) : StoredRecord :=
  let trimmed :=
    Str.substring0 10000 (Str.collapseSpaces (Str.trim content)) in
  {| standard := std;
     directiveCode := dCode;
     sectionCode := sCode;
     clauseId := VStr "1";
     title := VStr (Str.substring0 200 (firstSentence trimmed))
              ||| sCode ||| VStr "Requirement";
     text := VStr trimmed;
     facilityClass := VStr "";
     domain := VStr dom;
     tags := [];
     reference :=
       VStr (joinedReference std (to_str dCode) (to_str sCode) "1") |}.

Definition parseContentIntoClausesAny (content : string)
  : list StoredRecord :=
  if negb (Str.nonEmpty content) || (String.length (Str.trim content) =? 0)
  then []
  else
    let results :=
      List.map withCodes
               (cascadeRecords std (to_str dCode) (to_str sCode) dom
                               content) in
    let results :=
      if (List.length results =? 0) && (200 <? String.length content)
      then results
           ++ List.map withCodes
                       (paragraphRecords std (to_str dCode) (to_str sCode)
                                         dom content)
      else results in
    let results :=
      if (List.length results =? 0) && (100 <? String.length content)
      then results ++ [wholeRecordAny content]
      else results in
    results.

End SegmenterCall.

(** [Array.isArray(o.tags) ? o.tags : (o.tag ? [o.tag] : [])] *)
Definition tagsOf (o : string -> value) : list value :=
  match o "tags" with
  | VArr items => items
  | _ => if truthy (o "tag") then [o "tag"] else []
  end.

(** [r => r.title || r.text], the test that keeps a record: the title or
    the text is truthy. *)
Definition hasTitleOrText (r : StoredRecord) : bool :=
  truthy (title r) || truthy (text r).

(** The record pushed for one clause object by [fromHcis]. *)
Definition hcisClauseRecord (std dom : string) (dCode sCode : value)
           (section clause : string -> value) (index : nat)
  : StoredRecord :=
  {| standard := std;
     directiveCode := dCode;
     sectionCode := sCode;
     clauseId :=
       clause "clause_id" ||| clause "id" ||| VStr (Str.ofNat (index + 1));
     title :=
       clause "title" ||| clause "heading" ||| section "section_title"
       ||| VStr "";
     text :=
       clause "text" ||| clause "content" ||| clause "requirement"
       ||| clause "description" ||| VStr "";
     facilityClass :=
       clause "facility_class" ||| clause "facilityClass" ||| clause "class"
       ||| VStr "";
     domain := VStr dom;
     tags := tagsOf clause;
     reference :=
       clause "reference"
       ||| VStr (joinedReference std (to_str dCode) (to_str sCode)
                   (to_str (clause "clause_id"
                            ||| VNum (Z.of_nat (index + 1))))) |}.

(** The record pushed for one clause object by [fromDocumentStructure]:
    no directive level, and a reference of three parts. *)
Definition documentClauseRecord (std dom : string) (sCode : value)
           (section clause : string -> value) (index : nat)
  : StoredRecord :=
  {| standard := std;
     directiveCode := VStr "";
     sectionCode := sCode;
     clauseId :=
       clause "clause_id" ||| clause "id" ||| VStr (Str.ofNat (index + 1));
     title :=
       clause "title" ||| clause "heading" ||| section "section_title"
       ||| VStr "";
     text :=
       clause "text" ||| clause "content" ||| clause "requirement"
       ||| clause "description" ||| VStr "";
     facilityClass :=
       clause "facility_class" ||| clause "facilityClass" ||| clause "class"
       ||| VStr "";
     domain := VStr dom;
     tags := tagsOf clause;
     reference :=
       clause "reference"
       ||| VStr (Str.trim
                   (std ++ " " ++ to_str sCode ++ " "
                    ++ to_str (clause "clause_id"
                               ||| VNum (Z.of_nat (index + 1))))) |}.

(** [if (section.content && section.content.trim().length > 0)
       results.push(...parseContentIntoClauses(section.content, ...))];
    [.trim] on a truthy value that is not a string raises. *)
Definition sectionContentRecords (std : string) (dCode sCode : value)
           (dom : string) (section : string -> value)
  : result (list StoredRecord) :=
  if truthy (section "content") then
    match section "content" with
    | VStr content =>
        if 0 <? String.length (Str.trim content)
        then Ok (parseContentIntoClausesAny std dCode sCode dom content)
        else Ok []
    | _ => Throw
    end
  else Ok [].

(** [fromHcis]: [{ directives: [{ directive_code, structured_sections:
    [{ clauses: [...] }] }] }] *)
Definition fromHcis (raw : value) (std dom : string)
  : result (list StoredRecord) :=
  r <- props raw ;;
  match r "directives" with
  | VArr directives =>
      results <-
        forEachM
          (fun _ directiveV =>
             directive <- props directiveV ;;
             let dCode :=
               directive "directive_code" ||| directive "directiveCode"
               ||| VStr "" in
             match directive "structured_sections" with
             | VArr sections =>
                 forEachM
                   (fun _ sectionV =>
                      section <- props sectionV ;;
                      let sCode :=
                        section "section_code" ||| section "sectionCode"
                        ||| VStr "" in
                      fromClauses <-
                        match section "clauses" with
                        | VArr (c :: cs) =>
                            forEachM
                              (fun index clauseV =>
                                 clause <- props clauseV ;;
                                 Ok [hcisClauseRecord std dom dCode sCode
                                                      section clause index])
                              (c :: cs)
                        | _ => Ok []
                        end ;;
                      parsed <- sectionContentRecords std dCode sCode dom
                                                      section ;;
                      Ok (fromClauses ++ parsed))
                   sections
             | _ => Ok []
             end)
          directives ;;
      Ok (filter hasTitleOrText results)
  | _ => Ok []
  end.

(** [fromDocumentStructure]: [{ document: { structured_sections:
    [{ clauses: [...] }] } }] *)
Definition fromDocumentStructure (raw : value) (std dom : string)
  : result (list StoredRecord) :=
  r <- props raw ;;
  if negb (truthy (r "document")) then Ok []
  else
    match prop (r "document") "structured_sections" with
    | VArr sections =>
        results <-
          forEachM
            (fun _ sectionV =>
               section <- props sectionV ;;
               let sCode :=
                 section "section_code" ||| section "sectionCode"
                 ||| VStr "" in
               fromClauses <-
                 match section "clauses" with
                 | VArr (c :: cs) =>
                     forEachM
                       (fun index clauseV =>
                          clause <- props clauseV ;;
                          Ok [documentClauseRecord std dom sCode
                                                   section clause index])
                       (c :: cs)
                 | _ => Ok []
                 end ;;
               parsed <- sectionContentRecords std (VStr "") sCode dom
                                               section ;;
               Ok (fromClauses ++ parsed))
            sections ;;
        Ok (filter hasTitleOrText results)
    | _ => Ok []
    end.

(** The record assembled from a single free-form object, the last case of
    [normalizeRecord]. *)
Definition genericRecord (record : string -> value) (std dom : string)
  : StoredRecord :=
  {| standard := std;
     directiveCode :=
       record "directiveCode" ||| record "directive_code"
       ||| record "directive" ||| record "chapter" ||| record "section"
       ||| record "code" ||| VStr "";
     sectionCode :=
       record "sectionCode" ||| record "section_code"
       ||| record "subsection" ||| record "article" ||| record "clause"
       ||| VStr "";
     clauseId :=
       record "clauseId" ||| record "clause_id" ||| record "id"
       ||| record "clauseNumber" ||| record "number"
       ||| record "articleNumber" ||| VStr "";
     title :=
       record "title" ||| record "heading" ||| record "name"
       ||| record "description" ||| VStr "";
     text :=
       record "text" ||| record "content" ||| record "requirement"
       ||| record "clause" ||| record "description" ||| VStr "";
     facilityClass :=
       record "facilityClass" ||| record "facility_class"
       ||| record "class" ||| record "occupancy" ||| record "category"
       ||| VStr "";
     domain := record "domain" ||| VStr dom;
     tags := tagsOf record;
     reference :=
       record "reference" ||| record "ref"
       ||| VStr (joinedReference std
                   (to_str (record "directiveCode"
                            ||| record "directive_code" ||| VStr ""))
                   (to_str (record "sectionCode"
                            ||| record "section_code" ||| VStr ""))
                   (to_str (record "clauseId"
                            ||| record "clause_id" ||| VStr "")))
       ||| VStr "" |}.

(** [normalizeRecord(record, standard, domain, filename)]; [filename] is
    only handed on to the recursive calls and is left out. *)
Fixpoint normalizeRecord (record : value) (std dom : string) {struct record}
  : result (list StoredRecord) :=
  r <- props record ;;
  if truthy (r "directives") && isArray (r "directives")
  then fromHcis record std dom
  else if truthy (r "document")
          && truthy (prop (r "document") "structured_sections")
  then fromDocumentStructure record std dom
  else
    match record with
    | VArr items =>
        (fix each (l : list value) : result (list StoredRecord) :=
           match l with
           | [] => Ok []
           | item :: l' =>
               here <- normalizeRecord item std dom ;;
               later <- each l' ;;
               Ok (here ++ later)
           end) items
    | _ =>
        let normalized := genericRecord r std dom in
        if hasTitleOrText normalized then Ok [normalized] else Ok []
    end.

(** [normalizeRecord] on the elements of an array, in order. *)
Fixpoint normalizeAll (items : list value) (std dom : string)
  : result (list StoredRecord) :=
  match items with
  | [] => Ok []
  | item :: rest =>
      here <- normalizeRecord item std dom ;;
      later <- normalizeAll rest std dom ;;
      Ok (here ++ later)
  end.

(** [loadData]: the corpus is the concatenation, file by file, of the
    normalised records; a file whose normalisation raises is logged and
    contributes nothing.  A file is given by the [standard] and [domain]
    derived from its name and by its parsed content. *)
Fixpoint loadData (files : list (string * string * value))
  : list StoredRecord :=
  match files with
  | [] => []
  | (std, dom, jsonData) :: rest =>
      match normalizeRecord jsonData std dom with
      | Ok normalized => normalized
      | Throw => []
      end ++ loadData rest
  end.

(* ================================================================== *)
(** ** FilterEngine and ReferenceResolver *)

(** [normalizeRefString] *)
Definition normalizeRefString (ref : string) : string :=
  if negb (Str.nonEmpty ref) then ""
  else Str.trim
         (Str.collapseSpaces (Str.underscoresToSpaces (Str.toLowerCase ref))).

(** [fuzzyMatch] *)
Definition fuzzyMatch (text query : string) : bool :=
  if negb (Str.nonEmpty query) then true
  else
    let lowerText := Str.toLowerCase text in
    let lowerQuery := Str.toLowerCase query in
    if Str.includes lowerText lowerQuery then true
    else
      let words := Regex.split spaces lowerQuery in
      forallb (fun word => Str.includes lowerText word) words.

(** What a handler answers: a JSON body with status 200, or status 400
    (validation) or 404 (not found). *)
Inductive response (A : Type) : Type :=
| Json (body : A)
| BadRequest
| NotFound.

Arguments Json {A} body.
Arguments BadRequest {A}.
Arguments NotFound {A}.

(** An optional string of a request body is truthy when it is present and
    not empty. *)
Definition supplied (o : option string) : bool :=
  match o with
  | Some s => Str.nonEmpty s
  | None => false
  end.

Definition the (o : option string) : string :=
  match o with
  | Some s => s
  | None => ""
  end.

(** [l.slice(0, limit)] for an integer [limit]: a negative one counts
    from the end. *)
Definition slice0 {A : Type} (l : list A) (limit : Z) : list A :=
  if (limit <? 0)%Z
  then firstn (List.length l - Z.to_nat (- limit)) l
  else firstn (Z.to_nat limit) l.

Record SearchRequirementsBody : Type := {
  req_standard : option string;
  req_directiveCode : option string;
  req_facilityClass : option string;
  req_domain : option string;
  req_query : option string;
  req_limit : option Z
}.

(** [r.field.toLowerCase().includes(filter.toLowerCase())] *)
Definition fieldContains (field filter : string) : bool :=
  Str.includes (Str.toLowerCase field) (Str.toLowerCase filter).

(** POST /standards/searchRequirements *)
Definition searchRequirements (normalizedData : list NormalizedRecord)
           (body : SearchRequirementsBody)
  : response (list NormalizedRecord) :=
  let limit := match req_limit body with Some n => n | None => 50%Z end in
  if negb (supplied (req_standard body))
     && negb (supplied (req_directiveCode body))
     && negb (supplied (req_facilityClass body))
     && negb (supplied (req_domain body))
     && negb (supplied (req_query body))
  then BadRequest
  else
    let results := normalizedData in
    let results :=
      if supplied (req_standard body)
      then filter (fun r => fieldContains (standard r)
                                          (the (req_standard body))) results
      else results in
    let results :=
      if supplied (req_directiveCode body)
      then filter (fun r => fieldContains (directiveCode r)
                                          (the (req_directiveCode body)))
                  results
      else results in
    let results :=
      if supplied (req_facilityClass body)
      then filter (fun r => fieldContains (facilityClass r)
                                          (the (req_facilityClass body)))
                  results
      else results in
    let results :=
      if supplied (req_domain body)
      then filter (fun r => fieldContains (domain r) (the (req_domain body)))
                  results
      else results in
    let results :=
      if supplied (req_query body)
      then filter (fun r => fuzzyMatch (title r) (the (req_query body))
                            || fuzzyMatch (text r) (the (req_query body)))
                  results
      else results in
    Json (slice0 results limit).

(** POST /standards/getReference; [None] stands for a body without a
    string under [reference]. *)
Definition getReference (normalizedData : list NormalizedRecord)
           (ref : option string) : response NormalizedRecord :=
  if negb (supplied ref) then BadRequest
  else
    let refNorm := normalizeRefString (the ref) in
    let result :=
      find (fun r => String.eqb (normalizeRefString (reference r)) refNorm)
           normalizedData in
    let result :=
      match result with
      | Some _ => result
      | None =>
          find (fun r => Str.endsWith (normalizeRefString (reference r))
                                      refNorm)
               normalizedData
      end in
    match result with
    | None => NotFound
    | Some r => Json r
    end.

Record GenerateChecklistBody : Type := {
  req_standards : option (list string);
  req_checklistFacilityClass : option string;
  req_domains : option (list string)
}.

Record ChecklistItem : Type := {
  item_standard : string;
  item_directiveCode : string;
  item_sectionCode : string;
  item_clauseId : string;
  item_domain : string;
  requirement : string;
  item_facilityClass : string;
  mandatory : bool;
  item_reference : string
}.

Definition toChecklistItem (r : NormalizedRecord) : ChecklistItem :=
  {| item_standard := standard r;
     item_directiveCode := directiveCode r;
     item_sectionCode := sectionCode r;
     item_clauseId := clauseId r;
     item_domain := domain r;
     requirement := text r;
     item_facilityClass := facilityClass r;
     mandatory := true;
     item_reference := reference r |}.

(** POST /standards/generateChecklist *)
Definition generateChecklist (normalizedData : list NormalizedRecord)
           (body : GenerateChecklistBody) : response (list ChecklistItem) :=
  match req_standards body with
  | None | Some [] => BadRequest
  | Some standards =>
      let results :=
        filter (fun r =>
                  existsb (fun s => fieldContains (standard r) s) standards)
               normalizedData in
      let results :=
        if supplied (req_checklistFacilityClass body) then
          let fc := Str.toLowerCase (the (req_checklistFacilityClass body)) in
          let withFc :=
            filter (fun r =>
                      0 <? String.length (Str.orElse (facilityClass r) ""))
                   results in
          if 0 <? List.length withFc then
            let filtered :=
              filter (fun r =>
                        Str.includes
                          (Str.toLowerCase (Str.orElse (facilityClass r) ""))
                          fc)
                     withFc in
            if 0 <? List.length filtered then filtered else results
          else results
        else results in
      let results :=
        match req_domains body with
        | Some (d :: rest) =>
            let ds := List.map Str.toLowerCase (d :: rest) in
            let withDomain :=
              filter (fun r => 0 <? String.length (Str.orElse (domain r) ""))
                     results in
            if 0 <? List.length withDomain then
              let filtered :=
                filter (fun r =>
                          let dom := Str.toLowerCase
                                       (Str.orElse (domain r) "") in
                          existsb (fun d => Str.includes dom d) ds)
                       withDomain in
              if 0 <? List.length filtered then filtered else results
            else results
        | _ => results
        end in
      Json (List.map toChecklistItem results)
  end.

(* ================================================================== *)
(** ** Notions used to state the properties *)

(** The label and the text captured by each match. *)
Definition labelsAndTexts (l : list Regex.captures)
  : list (string * string) :=
  List.map (fun m => (Regex.capture m 1, Regex.capture m 2)) l.

(** The test that keeps a record, as a proposition. *)
Definition kept (r : StoredRecord) : Prop := hasTitleOrText r = true.

(** The first character is white space. *)
Definition leadingSpace (s : string) : bool :=
  match s with
  | EmptyString => false
  | String c _ => Str.isWhiteSpace c
  end.

(** The last character is white space. *)
Fixpoint trailingSpace (s : string) : bool :=
  match s with
  | EmptyString => false
  | String c s' =>
      match s' with
      | EmptyString => Str.isWhiteSpace c
      | String _ _ => trailingSpace s'
      end
  end.

(** Neither a leading nor a trailing white space. *)
Definition cleanEdges (s : string) : Prop :=
  leadingSpace s = false /\ trailingSpace s = false.

(** Two consecutive spaces occur somewhere. *)
Definition doubleSpace (s : string) : bool := Str.includes s "  ".

(** What the segmenter returns once the cascade has given no record: the
    paragraph branch for a text of more than 200 characters, and the
    record of the whole text when that gives nothing and the text has more
    than 100 characters. *)
Definition fallbackRecords (std dCode sCode dom content : string)
  : list NormalizedRecord :=
  let fromParagraphs :=
    if 200 <? String.length content
    then paragraphRecords std dCode sCode dom content
    else [] in
  match fromParagraphs with
  | [] => if 100 <? String.length content
          then [wholeRecord std dCode sCode dom content]
          else []
  | _ => fromParagraphs
  end.

(** A document that reaches the last case of [normalizeRecord]: not
    [null], not an array, no array under [directives] and nothing truthy
    under [document.structured_sections]. *)
Definition isGeneric (record : value) : bool :=
  match record with
  | VNull | VUndefined | VArr _ => false
  | _ =>
      negb (truthy (prop record "directives")
            && isArray (prop record "directives"))
      && negb (truthy (prop record "document")
               && truthy (prop (prop record "document")
                               "structured_sections"))
  end.

(** The elements of the arrays found under the four nested-collection
    names. *)
Definition nestedItems (record : value) : list value :=
  flat_map (fun k => match prop record k with VArr l => l | _ => [] end)
           ["requirements"; "sections"; "clauses"; "items"].

(** The soft filter, in the words of the specification: the test runs
    over the records that have a value, and its outcome replaces the
    working set only when it is not empty. *)
Definition softFilter (hasValue test : NormalizedRecord -> bool)
           (results : list NormalizedRecord) : list NormalizedRecord :=
  match filter test (filter hasValue results) with
  | [] => results
  | kept => kept
  end.

(** The records of the corpus whose standard matches a requested one. *)
Definition standardsSelected (corpus : list NormalizedRecord)
           (standards : list string) : list NormalizedRecord :=
  filter (fun r => existsb (fun s => fieldContains (standard r) s) standards)
         corpus.

(** Checklist generation, in the words of the specification. *)
Definition checklistSpec (corpus : list NormalizedRecord)
           (standards : list string) (fc : option string)
           (domains : option (list string)) : list ChecklistItem :=
  let selected := standardsSelected corpus standards in
  let afterFc :=
    if supplied fc
    then softFilter (fun r => Str.nonEmpty (facilityClass r))
                    (fun r => fieldContains (facilityClass r) (the fc))
                    selected
    else selected in
  let afterDomains :=
    match domains with
    | Some (d :: ds) =>
        softFilter (fun r => Str.nonEmpty (domain r))
                   (fun r => existsb (fun x => fieldContains (domain r) x)
                                     (d :: ds))
                   afterFc
    | _ => afterFc
    end in
  List.map toChecklistItem afterDomains.

(** The same checklist request without its [facilityClass]. *)
Definition withoutFacilityClass (body : GenerateChecklistBody)
  : GenerateChecklistBody :=
  {| req_standards := req_standards body;
     req_checklistFacilityClass := None;
     req_domains := req_domains body |}.

(** No filter of a search request is supplied with a non-empty value. *)
Definition noFilter (body : SearchRequirementsBody) : bool :=
  negb (supplied (req_standard body))
  && negb (supplied (req_directiveCode body))
  && negb (supplied (req_facilityClass body))
  && negb (supplied (req_domain body))
  && negb (supplied (req_query body)).

(** The limit in force: the caller's, or 50. *)
Definition limitOf (body : SearchRequirementsBody) : Z :=
  match req_limit body with
  | Some n => n
  | None => 50%Z
  end.

(** A record passes every supplied filter of a search request. *)
Definition passesFilters (body : SearchRequirementsBody)
           (r : NormalizedRecord) : bool :=
  (if supplied (req_standard body)
   then fieldContains (standard r) (the (req_standard body)) else true)
  && (if supplied (req_directiveCode body)
      then fieldContains (directiveCode r) (the (req_directiveCode body))
      else true)
  && (if supplied (req_facilityClass body)
      then fieldContains (facilityClass r) (the (req_facilityClass body))
      else true)
  && (if supplied (req_domain body)
      then fieldContains (domain r) (the (req_domain body)) else true)
  && (if supplied (req_query body)
      then fuzzyMatch (title r) (the (req_query body))
           || fuzzyMatch (text r) (the (req_query body))
      else true).

(** The normalisation of a reference, in the words of the specification:
    lower-case, underscores to spaces, runs of white space to one space,
    trimmed. *)
Definition normalizeSpec (s : string) : string :=
  Str.trim (Str.collapseSpaces (Str.underscoresToSpaces (Str.toLowerCase s))).

(** A record that only carries a standard, a title and a reference. *)
Definition sampleRecord (std ttl ref : string) : NormalizedRecord :=
  {| standard := std; directiveCode := ""; sectionCode := "";
     clauseId := ""; title := ttl; text := ""; facilityClass := "";
     domain := ""; tags := []; reference := ref |}.

(* ================================================================== *)
(** ** File names: [extractStandardFromFilename] and [extractDomain] *)

(** Every character satisfies [p]. *)
Fixpoint allChars (p : ascii -> bool) (s : string) : bool :=
  match s with
  | EmptyString => true
  | String c s' => p c && allChars p s'
  end.

(** [s.replace(pattern, '')] for a string pattern: the first occurrence is
    removed. *)
Fixpoint removeFirst (pattern s : string) : string :=
  if Str.startsWith s pattern
  then substring (String.length pattern)
                 (String.length s - String.length pattern) s
  else match s with
       | EmptyString => EmptyString
       | String c s' => String c (removeFirst pattern s')
       end.

(** [s.split(sep)] for a separator of one character. *)
Fixpoint splitAt (sep : ascii) (s : string) : list string :=
  match s with
  | EmptyString => [EmptyString]
  | String c s' =>
      if Ascii.eqb c sep then EmptyString :: splitAt sep s'
      else match splitAt sep s' with
           | piece :: rest => String c piece :: rest
           | [] => [String c EmptyString]
           end
  end.

Section Filenames.
(** JavaScript's [toUpperCase], which sends two Latin-1 characters out of
    Latin-1 and one to two characters; it is only used by the last case
    of [extractStandardFromFilename]. *)
Variable toUpperCase : string -> string.

(** [extractStandardFromFilename] *)
Definition extractStandardFromFilename (filename : string) : string :=
  let name := removeFirst ".json" filename in
  let parts := splitAt "_" name in
  if Str.includes name "HCIS" then "HCIS_SEC"
  else if Str.includes name "SBC_801" then "SBC_801"
  else if Str.includes name "SBC_901" then "SBC_901"
  else if Str.includes name "SASO_FIRE" then
    if Str.includes name "equipment" then "SASO_FIRE_TR"
    else "SASO_FIRE_TECH_REG"
  else if Str.includes name "NCA" then
    if Str.includes name "ECC" then "NCA_ECC"
    else if Str.includes name "GECC" then "NCA_GECC"
    else "NCA_CYBER"
  else if Str.includes name "NEOM" then
    if Str.includes name "Operational" then "NEOM_OPS_SEC"
    else if Str.includes name "Public Safety" then "NEOM_PUB_SAFETY"
    else if Str.includes name "SEC-SCH" then "NEOM_SEC_SCH"
    else "NEOM"
  else if Str.includes name "SAMA" then
    if Str.includes name "BCM" then "SAMA_BCM"
    else "SAMA_CYBER"
  else if Str.includes name "SDAIA" || Str.includes name "NDMO"
          || Str.includes name "PDPL" then "SDAIA_DATA"
  else if Str.includes name "Civil Defense" then
    if Str.includes name "code" then "CIVIL_DEFENSE_CODE"
    else "CIVIL_DEFENSE_REG"
  else if Str.includes name "MAWANI" then "MAWANI_SEC"
  else Str.orElse (toUpperCase (Str.join "_" (firstn 2 parts))) "UNKNOWN".

(** [extractDomain(filename, content)]; [content?.domain] is [undefined]
    for a [null] content. *)
Definition extractDomain (filename : string) (content : value) : string :=
  let name := Str.toLowerCase filename in
  if Str.includes name "fire" || Str.includes name "civil_defense"
  then "fire"
  else if Str.includes name "cyber" || Str.includes name "nca"
          || Str.includes name "sama_cyber" then "cyber"
  else if Str.includes name "data" || Str.includes name "pdpl"
          || Str.includes name "ndmo" then "data_protection"
  else if Str.includes name "security" || Str.includes name "hcis"
          || Str.includes name "mawani" || Str.includes name "neom"
  then "security"
  else if Str.includes name "building" || Str.includes name "sbc"
  then "building"
  else if Str.includes name "bcm"
          || Str.includes name "business_continuity"
  then "business_continuity"
  else if Str.includes name "maritime" then "maritime"
  else if Str.includes name "operational" then "operational"
  else if Str.includes name "public_safety" then "public_safety"
  else if truthy (prop content "domain")
  then Str.toLowerCase (to_str (prop content "domain"))
  else "general".

(** [loadData] from the directory listing: a file is given by its name
    and its parsed content, [None] when it cannot be read or parsed.
    Only the [.json] files are read; a file that fails is logged and
    skipped. *)
Definition loadDataFromFiles (files : list (string * option value))
  : list StoredRecord :=
  loadData
    (flat_map
       (fun entry =>
          match entry with
          | (file, Some jsonData) =>
              if Str.endsWith file ".json"
              then [(extractStandardFromFilename file,
                     extractDomain file jsonData, jsonData)]
              else []
          | (_, None) => []
          end)
       files).

End Filenames.

(* ================================================================== *)
(** ** What a pattern can consume *)

(** [consumes r p rest c c']: in front of [rest], the pattern [r] can
    match exactly the text [p], taking the captures from [c] to [c']. *)
Inductive consumes
  : Regex.regex -> string -> string -> Regex.captures -> Regex.captures
    -> Prop :=
| ConsEps rest c :
    consumes Regex.Eps "" rest c c
| ConsChr (p : ascii -> bool) a rest c :
    p a = true ->
    consumes (Regex.Chr p) (String a "") rest c c
| ConsCat r1 r2 p1 p2 rest c c1 c2 :
    consumes r1 p1 (p2 ++ rest)%string c c1 ->
    consumes r2 p2 rest c1 c2 ->
    consumes (Regex.Cat r1 r2) (p1 ++ p2)%string rest c c2
| ConsAltLeft r1 r2 p rest c c' :
    consumes r1 p rest c c' ->
    consumes (Regex.Alt r1 r2) p rest c c'
| ConsAltRight r1 r2 p rest c c' :
    consumes r2 p rest c c' ->
    consumes (Regex.Alt r1 r2) p rest c c'
| ConsStarStop greedy r rest c :
    consumes (Regex.Star greedy r) "" rest c c
| ConsStarMore greedy r p1 p2 rest c c1 c2 :
    consumes r p1 (p2 ++ rest)%string c c1 ->
    consumes (Regex.Star greedy r) p2 rest c1 c2 ->
    consumes (Regex.Star greedy r) (p1 ++ p2)%string rest c c2
| ConsGroup i r p rest c c' :
    consumes r p rest c c' ->
    consumes (Regex.Group i r) p rest c ((i, p) :: c')
| ConsLook r p rest c c' :
    consumes r p rest c c' ->
    consumes (Regex.Look r) "" (p ++ rest)%string c c'
| ConsEoi c :
    consumes Regex.Eoi "" "" c c.

(** The characters a pattern can consume. *)
Fixpoint alphabet (r : Regex.regex) (a : ascii) : bool :=
  match r with
  | Regex.Eps | Regex.Look _ | Regex.Eoi => false
  | Regex.Chr p => p a
  | Regex.Cat r1 r2 | Regex.Alt r1 r2 => alphabet r1 a || alphabet r2 a
  | Regex.Star _ r1 | Regex.Group _ r1 => alphabet r1 a
  end.

(** The pattern can match without consuming anything. *)
Fixpoint nullable (r : Regex.regex) : bool :=
  match r with
  | Regex.Eps | Regex.Look _ | Regex.Eoi | Regex.Star _ _ => true
  | Regex.Chr _ => false
  | Regex.Cat r1 r2 => nullable r1 && nullable r2
  | Regex.Alt r1 r2 => nullable r1 || nullable r2
  | Regex.Group _ r1 => nullable r1
  end.

(** The pattern has no capturing group. *)
Fixpoint groupFree (r : Regex.regex) : bool :=
  match r with
  | Regex.Eps | Regex.Chr _ | Regex.Eoi => true
  | Regex.Cat r1 r2 | Regex.Alt r1 r2 => groupFree r1 && groupFree r2
  | Regex.Star _ r1 | Regex.Look r1 => groupFree r1
  | Regex.Group _ _ => false
  end.

(** A digit or a dot; not a digit; neither [A] nor [a]. *)
Definition digitOrDot (a : ascii) : bool :=
  Str.isDigit a || Ascii.eqb a ".".
Definition notDigit (a : ascii) : bool := negb (Str.isDigit a).
Definition notLetterA (a : ascii) : bool :=
  negb (Ascii.eqb (Str.upperChar a) (Str.upperChar "A")).

(* ================================================================== *)
(** ** Normal forms of references *)

(** A string as [normalizeRefString] leaves it: no capital letter, no
    underscore, and white space only as single spaces; [afterSpace] tells
    that the previous character was a space. *)
Fixpoint tidy (afterSpace : bool) (s : string) : bool :=
  match s with
  | EmptyString => true
  | String c s' =>
      if Str.isWhiteSpace c
      then negb afterSpace && Ascii.eqb c " " && tidy true s'
      else Ascii.eqb (Str.lowerChar c) c && negb (Ascii.eqb c "_")
           && tidy false s'
  end.

(** A search request with every filter value in lower case. *)
Definition lowerCaseFilters (body : SearchRequirementsBody)
  : SearchRequirementsBody :=
  {| req_standard := option_map Str.toLowerCase (req_standard body);
     req_directiveCode := option_map Str.toLowerCase (req_directiveCode body);
     req_facilityClass := option_map Str.toLowerCase (req_facilityClass body);
     req_domain := option_map Str.toLowerCase (req_domain body);
     req_query := option_map Str.toLowerCase (req_query body);
     req_limit := req_limit body |}.

(** Some character satisfies [p]. *)
Fixpoint anyChar (p : ascii -> bool) (s : string) : bool :=
  match s with
  | EmptyString => false
  | String c s' => p c || anyChar p s'
  end.

(** The 256 characters. *)
Definition allAscii : list ascii := List.map ascii_of_nat (List.seq 0 256).

(** Whatever the pattern consumes holds a character of [q]: some part that
    cannot be skipped consumes characters of [q] only. *)
Fixpoint demands (q : ascii -> bool) (r : Regex.regex) : bool :=
  match r with
  | Regex.Chr p => forallb (fun a => implb (p a) (q a)) allAscii
  | Regex.Cat r1 r2 => demands q r1 || demands q r2
  | Regex.Alt r1 r2 => demands q r1 && demands q r2
  | Regex.Group _ r1 => demands q r1
  | Regex.Eps | Regex.Star _ _ | Regex.Look _ | Regex.Eoi => false
  end.

(** What a successful run means: the pattern consumed a prefix and the
    continuation succeeded on the rest. *)
Definition sound_step (r : Regex.regex)
           (step : string -> Regex.captures
                   -> (string -> Regex.captures -> Regex.outcome)
                   -> Regex.outcome) : Prop :=
  forall s c k x,
    step s c k = Some x ->
    exists p rest c',
      s = (p ++ rest)%string /\ consumes r p rest c c'
      /\ k rest c' = Some x.

(** What a match of one of the three patterns captures: a label and a
    text, neither empty, with the characters [labelOk] and [textOk]. *)
Definition captured (labelOk textOk : ascii -> bool) (m : Regex.captures)
  : Prop :=
  Regex.capture m 1 <> "" /\ allChars labelOk (Regex.capture m 1) = true
  /\ Regex.capture m 2 <> "" /\ allChars textOk (Regex.capture m 2) = true.

(* ================================================================== *)
(** ** Sample inputs *)

Module Samples.

(** A free-form object whose text has 10,001 characters. *)
Definition longTextDoc : value :=
  VObj [("text", VStr (Str.repeat "a" 10001))].

(** A directive-rooted document with one explicit clause whose text has
    10,001 characters. *)
Definition longClauseDoc : value :=
  VObj [("directives",
         VArr [VObj [("directive_code", VStr "SEC-05");
                     ("structured_sections",
                      VArr [VObj [("section_code", VStr "4.3");
                                  ("clauses",
                                   VArr [VObj [("text",
                                                VStr (Str.repeat "a" 10001))
                                              ]])]])]])].

(** A free-form object with one nested object under [items]. *)
Definition childDoc : value := VObj [("title", VStr "Child")].
Definition parentDoc : value :=
  VObj [("title", VStr "Parent"); ("sectionCode", VStr "4.3");
        ("items", VArr [childDoc])].

Definition parentRecord : StoredRecord :=
  {| standard := "STD"; directiveCode := VStr ""; sectionCode := VStr "4.3";
     clauseId := VStr ""; title := VStr "Parent"; text := VStr "";
     facilityClass := VStr ""; domain := VStr "general"; tags := [];
     reference := VStr "STD  4.3" |}.

Definition childRecord : StoredRecord :=
  {| standard := "STD"; directiveCode := VStr ""; sectionCode := VStr "";
     clauseId := VStr ""; title := VStr "Child"; text := VStr "";
     facilityClass := VStr ""; domain := VStr "general"; tags := [];
     reference := VStr "STD" |}.

(** A free-form object whose title is the empty array, and a
    directive-rooted document with one such clause. *)
Definition emptyArrayTitleDoc : value := VObj [("title", VArr [])].

Definition emptyArrayTitleRecord : StoredRecord :=
  {| standard := "STD"; directiveCode := VStr ""; sectionCode := VStr "";
     clauseId := VStr ""; title := VArr []; text := VStr "";
     facilityClass := VStr ""; domain := VStr "general"; tags := [];
     reference := VStr "STD" |}.

Definition emptyArrayTitleClauseDoc : value :=
  VObj [("directives",
         VArr [VObj [("directive_code", VStr "SEC-05");
                     ("structured_sections",
                      VArr [VObj [("section_code", VStr "4.3");
                                  ("clauses",
                                   VArr [VObj [("title", VArr [])]])]])]])].

(** A section-rooted document: one section with free text and no
    explicit clause. *)
Definition sectionDoc : value :=
  VObj [("document",
         VObj [("structured_sections",
                VArr [VObj [("section_code", VStr "4.3");
                            ("content",
                             VStr "4.3.1 Fences must be tall enough for all. 4.3.2 Gates must be locked at night.")
                           ]])])].

(** Two paragraphs of 113 and 122 characters. *)
Definition paragraphA : string :=
  "Perimeter fences shall be inspected weekly by the site security officer and every defect shall be logged promptly".
Definition paragraphB : string :=
  "Gates shall remain locked outside working hours and the keys shall be held by the duty supervisor at the main control room".

(** 133 characters: one long paragraph, a blank line, a short one. *)
Definition shortText : string :=
  (paragraphA ++ Str.LF ++ Str.LF ++ "Short closing note")%string.

(** 237 characters: two long paragraphs separated by a blank line. *)
Definition twoParagraphs : string :=
  (paragraphA ++ Str.LF ++ Str.LF ++ paragraphB)%string.

(** Two numbered clauses followed by three articles. *)
Definition numberedAndArticles : string :=
  "1.1 Fences must be two metres high. 1.2 Gates must be locked every night. Article (1) Scope of this rule. Article (2) Owners must comply. Article (3) Effective upon notice.".

(** One numbered clause only: the digit of [2m] ends the first try. *)
Definition oneNumbered : string :=
  "4.3.1 Fences must be 2m. 4.3.2 Gates must be locked.".

Definition fenceRecord : NormalizedRecord :=
  sampleRecord "HCIS_SEC" "Perimeter fence" "HCIS_SEC SEC-05 4.3.2".
Definition gateRecord : NormalizedRecord :=
  sampleRecord "HCIS_SEC" "Gates" "HCIS_SEC SEC-05 4.3.3".
Definition blankRefRecord : NormalizedRecord :=
  sampleRecord "SBC_801" "Untitled" "_".

Definition classedRecord (fc : string) : NormalizedRecord :=
  {| standard := "HCIS_SEC"; directiveCode := "SEC-05";
     sectionCode := "4.3"; clauseId := "1"; title := "Fences";
     text := "Fences must be tall."; facilityClass := fc;
     domain := "security"; tags := [];
     reference := "HCIS_SEC SEC-05 4.3 1" |}.

(** Two records of HCIS_SEC, with and without a facility class, and one
    of another standard. *)
Definition classedCorpus : list NormalizedRecord :=
  [classedRecord "Class 1"; classedRecord ""; blankRefRecord].

Definition checklistBody : GenerateChecklistBody :=
  {| req_standards := Some ["hcis"];
     req_checklistFacilityClass := Some "Class 9";
     req_domains := None |}.

Definition searchBody (std : option string) (limit : option Z)
  : SearchRequirementsBody :=
  {| req_standard := std; req_directiveCode := None;
     req_facilityClass := None; req_domain := None; req_query := None;
     req_limit := limit |}.

End Samples.

(** Four long paragraphs separated by blank lines: the paragraph branch
    takes its stricter threshold on this text. *)
Definition fourParagraphs : string :=
  (Samples.paragraphA ++ Str.LF ++ Str.LF ++ Samples.paragraphB
   ++ Str.LF ++ Str.LF ++ Samples.paragraphA
   ++ Str.LF ++ Str.LF ++ Samples.paragraphB)%string.

(* ================================================================== *)
(** ** The matcher: the bound on star iterations is never reached *)

Section MatcherFacts.
Import Regex.

Lemma starLoop_ext step1 step2 :
(forall s c k1 k2,
    (forall s' c', k1 s' c' = k2 s' c') -> step1 s c k1 = step2 s c k2) ->
forall greedy n k1 k2 s c,
  (forall s' c', k1 s' c' = k2 s' c') ->
  starLoop step1 greedy k1 n s c = starLoop step2 greedy k2 n s c.
Proof.
intros Hstep greedy n. induction n as [|n IH]; intros k1 k2 s c Hk.
- cbn [starLoop]. now rewrite Hk.
- cbn [starLoop]. rewrite Hk.
  rewrite (Hstep s c _
             (fun s' c' =>
                if String.length s' <? String.length s
                then starLoop step2 greedy k2 n s' c' else None)).
  + reflexivity.
  + intros s' c'. destruct (_ <? _); [now apply IH | reflexivity].
Qed.

(** The matcher only looks at what its continuation returns. *)
Lemma run_ext (r : regex) :
forall s c k1 k2,
  (forall s' c', k1 s' c' = k2 s' c') -> run r s c k1 = run r s c k2.
Proof.
induction r as [|p|r1 IH1 r2 IH2|r1 IH1 r2 IH2|greedy r1 IH1|i r1 IH1
                |r1 IH1|]; intros s c k1 k2 Hk; cbn [run].
- apply Hk.
- destruct s as [|a s']; [reflexivity|]. now rewrite Hk.
- apply IH1. intros s' c'. now apply IH2.
- now rewrite (IH1 s c k1 k2 Hk), (IH2 s c k1 k2 Hk).
- now apply starLoop_ext.
- apply IH1. intros s' c'. apply Hk.
- destruct (run r1 s c _) as [[? c']|]; [apply Hk | reflexivity].
- destruct s; [apply Hk | reflexivity].
Qed.

(** Any two bounds above the length of the rest give the same result. *)
Lemma starLoop_fuel (r : regex) (greedy : bool)
    (k : string -> captures -> outcome) :
forall n m s c,
  String.length s < n -> String.length s < m ->
  starLoop (run r) greedy k n s c = starLoop (run r) greedy k m s c.
Proof.
induction n as [|n IH]; intros m s c Hn Hm; [lia|].
destruct m as [|m]; [lia|]. cbn [starLoop].
rewrite (run_ext r s c _
           (fun s' c' =>
              if String.length s' <? String.length s
              then starLoop (run r) greedy k m s' c' else None)).
- reflexivity.
- intros s' c'. destruct (String.length s' <? String.length s) eqn:E;
    [|reflexivity].
  apply Nat.ltb_lt in E. apply IH; lia.
Qed.

(** The star as the standard defines it, without a bound: one more
  iteration that consumes something and then the star again, or the
  continuation, in the order the greediness tells. *)
Lemma run_star (greedy : bool) (r : regex) s c k :
run (Star greedy r) s c k
= let again :=
    run r s c
        (fun s' c' =>
           if String.length s' <? String.length s
           then run (Star greedy r) s' c' k else None) in
  if greedy
  then match again with Some x => Some x | None => k s c end
  else match k s c with Some x => Some x | None => again end.
Proof.
cbn [run starLoop]. cbv zeta.
rewrite (run_ext r s c _
           (fun s' c' =>
              if String.length s' <? String.length s
              then starLoop (run r) greedy k (S (String.length s')) s' c'
              else None)).
- reflexivity.
- intros s' c'. destruct (String.length s' <? String.length s) eqn:E;
    [|reflexivity].
  apply Nat.ltb_lt in E. apply starLoop_fuel; lia.
Qed.

End MatcherFacts.

(* ================================================================== *)
(** ** Worked examples *)

Example numbered_two_clauses :
  labelsAndTexts
    (Regex.matchAll numberedPattern
       "4.3.1 Fences must be tall. 4.3.2 Gates must be locked.")
  = [("4.3.1", "Fences must be tall. "); ("4.3.2", "Gates must be locked.")].
Proof. vm_compute. reflexivity. Qed.

(** A digit inside the text ends the capture, and the lookahead then
    fails: the first clause is not matched. *)
Example numbered_digit_in_text :
  labelsAndTexts (Regex.matchAll numberedPattern Samples.oneNumbered)
  = [("4.3.2", "Gates must be locked.")].
Proof. vm_compute. reflexivity. Qed.

Example numbered_long_label :
  labelsAndTexts (Regex.matchAll numberedPattern "1.2.3.4.5 foo Article (")
  = [("1.2.3.4.5", "foo ")].
Proof. vm_compute. reflexivity. Qed.

Example article_any_case :
  labelsAndTexts
    (Regex.matchAll articlePattern
       "article(1): x ARTICLE  (22) y Article (3) zaz")
  = [("1", "x "); ("22", "y ")].
Proof. vm_compute. reflexivity. Qed.

Example section_pairs :
  labelsAndTexts (Regex.matchAll sectionPattern "4.1 Scope 4.2 Terms")
  = [("4.1", "Scope "); ("4.2", "Terms")].
Proof. vm_compute. reflexivity. Qed.

Example split_blank_lines :
  Regex.split blankLine Samples.twoParagraphs
  = [Samples.paragraphA; Samples.paragraphB].
Proof. vm_compute. reflexivity. Qed.

Example split_sentences :
  Regex.split sentenceEnd "Hello world. Foo! Bar"
  = ["Hello world"; " Foo"; " Bar"].
Proof. vm_compute. reflexivity. Qed.

Example split_words :
  Regex.split spaces " a  b " = [""; "a"; "b"; ""].
Proof. vm_compute. reflexivity. Qed.

Example sample_lengths :
  String.length Samples.paragraphA = 113
  /\ String.length Samples.paragraphB = 122
  /\ String.length Samples.shortText = 133
  /\ String.length Samples.twoParagraphs = 237.
Proof. repeat split; vm_compute; reflexivity. Qed.

Example normalize_reference :
  normalizeRefString "  HCIS_SEC   SEC-05  4.3.2 " = "hcis sec sec-05 4.3.2".
Proof. vm_compute. reflexivity. Qed.

Example fuzzy_all_words :
  fuzzyMatch "Perimeter fence height" "fence  perimeter" = true
  /\ fuzzyMatch "Perimeter fence height" "fence gate" = false.
Proof. split; vm_compute; reflexivity. Qed.

Example slice_from_the_end :
  slice0 [1; 2; 3] (-1)%Z = [1; 2] /\ slice0 [1; 2; 3] 2%Z = [1; 2]
  /\ slice0 [1; 2; 3] (-5)%Z = [] /\ slice0 [1; 2; 3] 9%Z = [1; 2; 3].
Proof. repeat split; reflexivity. Qed.

(** A directive-rooted document with one section that has free text and
    no explicit clause: the records come from the segmenter. *)
Example directive_rooted_segmented :
  List.map (fun r => (clauseId r, reference r))
    (loadData
       [("STD", "security",
         VObj [("directives",
                VArr [VObj [("directive_code", VStr "SEC-05");
                            ("structured_sections",
                             VArr [VObj [("section_code", VStr "4.3");
                                         ("content",
                                          VStr "4.3.1 Fences must be tall enough for all. 4.3.2 Gates must be locked at night.")
                                        ]])]])])])
  = [(VStr "4.3.1", VStr "STD SEC-05 4.3 4.3.1");
     (VStr "4.3.2", VStr "STD SEC-05 4.3 4.3.2")].
Proof. vm_compute. reflexivity. Qed.

(** A [null] among the elements of an array makes the normalisation of
    the whole file raise, and the file gives no record. *)
Example null_element_skips_file :
  normalizeRecord (VArr [VObj [("title", VStr "Kept")]; VNull]) "STD" "general"
  = Throw
  /\ loadData [("STD", "general",
                VArr [VObj [("title", VStr "Kept")]; VNull])] = [].
Proof. split; vm_compute; reflexivity. Qed.

(* ================================================================== *)
(** ** Strings: lengths, trimming, suffixes *)

Lemma substring0_length (n : nat) (s : string) :
  String.length (Str.substring0 n s) <= n.
Proof.
  unfold Str.substring0. revert s.
  induction n as [|n IH]; intros [|c s]; simpl; try lia.
  specialize (IH s). lia.
Qed.

Lemma substring_nothing (n : nat) (s : string) : substring n 0 s = "".
Proof.
  revert s. induction n as [|n IH]; intros [|c s]; simpl; auto.
Qed.

Lemma substring_whole (s : string) : substring 0 (String.length s) s = s.
Proof.
  induction s as [|c s IH]; simpl; [reflexivity | now rewrite IH].
Qed.

Lemma endsWith_empty (s : string) : Str.endsWith s "" = true.
Proof.
  unfold Str.endsWith. simpl. now rewrite substring_nothing.
Qed.

Lemma endsWith_refl (s : string) : Str.endsWith s s = true.
Proof.
  unfold Str.endsWith.
  rewrite Nat.leb_refl, Nat.sub_diag, substring_whole.
  simpl. apply String.eqb_refl.
Qed.

Lemma nonEmpty_true (s : string) : Str.nonEmpty s = true <-> s <> "".
Proof.
  destruct s; simpl; split; intro H; congruence.
Qed.

Lemma orElse_empty (s : string) : Str.orElse s "" = s.
Proof. now destruct s. Qed.

Lemma length_positive (s : string) :
  (0 <? String.length s) = Str.nonEmpty s.
Proof. now destruct s. Qed.

Lemma trimStart_leading (s : string) : leadingSpace (Str.trimStart s) = false.
Proof.
  induction s as [|c s IH]; simpl; [reflexivity|].
  destruct (Str.isWhiteSpace c) eqn:E; [assumption | simpl; exact E].
Qed.

Lemma trimEnd_trailing (s : string) : trailingSpace (Str.trimEnd s) = false.
Proof.
  induction s as [|c s IH]; simpl; [reflexivity|].
  destruct (Str.trimEnd s) as [|d r] eqn:E.
  - destruct (Str.isWhiteSpace c) eqn:W; simpl; auto.
  - exact IH.
Qed.

Lemma trimEnd_leading (s : string) :
  leadingSpace s = false -> leadingSpace (Str.trimEnd s) = false.
Proof.
  destruct s as [|c s]; simpl; [reflexivity|]. intro H.
  destruct (Str.trimEnd s); [rewrite H; simpl; exact H | exact H].
Qed.

(** A trimmed string neither starts nor ends with white space. *)
Lemma trim_clean (s : string) : cleanEdges (Str.trim s).
Proof.
  unfold Str.trim. split.
  - apply trimEnd_leading, trimStart_leading.
  - apply trimEnd_trailing.
Qed.

(* ================================================================== *)
(** ** Loops over lists *)

Lemma Forall_forEachFrom {A B : Type} (P : B -> Prop)
      (f : nat -> A -> list B) (l : list A) :
  (forall i x, Forall P (f i x)) ->
  forall i, Forall P (forEachFrom f i l).
Proof.
  intros Hf. induction l as [|x l IH]; intro i; simpl.
  - constructor.
  - apply Forall_app. split; [apply Hf | apply IH].
Qed.

Lemma Forall_forEach {A B : Type} (P : B -> Prop)
      (f : nat -> A -> list B) (l : list A) :
  (forall i x, Forall P (f i x)) -> Forall P (forEach f l).
Proof.
  intro Hf. now apply Forall_forEachFrom.
Qed.

Lemma Forall_filter_kept {A : Type} (p : A -> bool) (l : list A) :
  Forall (fun x => p x = true) (filter p l).
Proof.
  apply Forall_forall. intros x Hx. now apply filter_In in Hx.
Qed.

Lemma length_zero_nil {A : Type} (l : list A) :
  (List.length l =? 0) = true -> l = [].
Proof.
  destruct l; simpl; [reflexivity | discriminate].
Qed.

(* ================================================================== *)
(** ** The records of the segmenter *)

Section SegmenterFacts.
Variables (std dCode sCode dom : string).

(** Every record of the segmenter satisfies [P], provided the three
    kinds of record it builds do. *)
Lemma parseContentIntoClauses_Forall (P : NormalizedRecord -> Prop) :
  (forall i m, Forall P (matchRecord std dCode sCode dom i m)) ->
  (forall n i p, Forall P (paragraphRecord std dCode sCode dom n i p)) ->
  (forall c, P (wholeRecord std dCode sCode dom c)) ->
  forall content,
    Forall P (parseContentIntoClauses std dCode sCode dom content).
Proof.
  intros Hm Hp Hw content. unfold parseContentIntoClauses.
  destruct (negb _ || _); [constructor|].
  assert (Hc : Forall P (cascadeRecords std dCode sCode dom content))
    by (apply Forall_forEach, Hm).
  assert (Hpar : Forall P (paragraphRecords std dCode sCode dom content)).
  { unfold paragraphRecords.
    destruct (3 <? _); apply Forall_forEach; intros; apply Hp. }
  cbv zeta.
  set (r1 := if (List.length _ =? 0) && (200 <? _) then _ else _).
  assert (H1 : Forall P r1).
  { subst r1. destruct (_ && _); [apply Forall_app; split|]; assumption. }
  clearbody r1.
  destruct (_ && _); [|assumption].
  apply Forall_app. split; [assumption|]. constructor; [apply Hw|constructor].
Qed.

Lemma matchRecord_text (i : nat) (m : Regex.captures) :
  Forall (fun r => String.length (text r) <= 10000)
         (matchRecord std dCode sCode dom i m).
Proof.
  unfold matchRecord. cbv zeta.
  destruct (20 <? _); constructor; [|constructor].
  simpl. apply substring0_length.
Qed.

Lemma paragraphRecord_text (n i : nat) (p : string) :
  Forall (fun r => String.length (text r) <= 10000)
         (paragraphRecord std dCode sCode dom n i p).
Proof.
  unfold paragraphRecord. cbv zeta.
  destruct (n <? _); constructor; [|constructor].
  simpl. apply substring0_length.
Qed.

Lemma wholeRecord_text (c : string) :
  String.length (text (wholeRecord std dCode sCode dom c)) <= 10000.
Proof.
  unfold wholeRecord. simpl. apply substring0_length.
Qed.

Lemma segmenter_reference_clean (content : string) :
  Forall (fun r => cleanEdges (reference r))
         (parseContentIntoClauses std dCode sCode dom content).
Proof.
  apply parseContentIntoClauses_Forall.
  - intros i m. unfold matchRecord. cbv zeta.
    destruct (20 <? _); constructor; [|constructor].
    simpl. apply trim_clean.
  - intros n i p. unfold paragraphRecord. cbv zeta.
    destruct (n <? _); constructor; [|constructor].
    simpl. apply trim_clean.
  - intro c. unfold wholeRecord. simpl. apply trim_clean.
Qed.

End SegmenterFacts.

(** C1, as amended.  Every record the text segmenter builds, on each of
    its paths (cascade match, paragraph, whole text), has a [text] of at
    most 10,000 characters. *)
Theorem segmenter_text_capped :
  forall std dCode sCode dom content,
    Forall (fun r => String.length (text r) <= 10000)
           (parseContentIntoClauses std dCode sCode dom content).
Proof.
  intros. apply parseContentIntoClauses_Forall.
  - apply matchRecord_text.
  - apply paragraphRecord_text.
  - apply wholeRecord_text.
Qed.

(** C1 as stated fails: a free-form object and an explicit clause each put
    a text of 10,001 characters into the corpus. *)
Lemma text_cap_counterexample :
  (exists r t,
      loadData [("STD", "general", Samples.longTextDoc)] = [r]
      /\ text r = VStr t
      /\ (10000 <? String.length t) = true)
  /\ (exists r t,
         loadData [("STD", "security", Samples.longClauseDoc)] = [r]
         /\ text r = VStr t
         /\ (10000 <? String.length t) = true).
Proof.
  split; do 2 eexists;
    (split; [vm_compute; reflexivity|];
     split; [reflexivity | vm_compute; reflexivity]).
Qed.

(* ================================================================== *)
(** ** The segmenter as the walks call it *)

Lemma orv_truthy (a b : value) : truthy a = true -> a ||| b = a.
Proof. unfold orv. now intros ->. Qed.

(** With codes that are strings, the whole-text record is the one of the
    declared interface. *)
Lemma wholeRecordAny_typed (std d s dom content : string) :
  wholeRecordAny std (VStr d) (VStr s) dom content
  = withCodes (VStr d) (VStr s) (wholeRecord std d s dom content).
Proof.
  unfold wholeRecordAny, wholeRecord, withCodes. cbv zeta.
  cbn [standard directiveCode sectionCode clauseId title text facilityClass
       domain tags reference to_str List.map].
  f_equal. unfold orv, Str.orElse. cbn [truthy].
  destruct (Str.substring0 200 _); [|reflexivity].
  cbn [Str.nonEmpty]. now destruct s.
Qed.

(** The records of a call are those of the segmenter run on the printed
    codes, each stored with the codes of the call; when the result is the
    whole-text record, it is the one with the title of the call. *)
Lemma parseContentIntoClausesAny_cases
      (std : string) (dCode sCode : value) (dom content : string) :
  parseContentIntoClausesAny std dCode sCode dom content
  = List.map (withCodes dCode sCode)
             (parseContentIntoClauses std (to_str dCode) (to_str sCode) dom
                                      content)
  \/ (parseContentIntoClausesAny std dCode sCode dom content
      = [wholeRecordAny std dCode sCode dom content]
      /\ parseContentIntoClauses std (to_str dCode) (to_str sCode) dom content
         = [wholeRecord std (to_str dCode) (to_str sCode) dom content]).
Proof.
  unfold parseContentIntoClausesAny, parseContentIntoClauses.
  destruct (negb _ || _); [now left|]. cbv zeta.
  rewrite length_map.
  destruct (cascadeRecords std (to_str dCode) (to_str sCode) dom content)
    as [|c cs]; cbn [List.length Nat.eqb andb List.map app]; [|now left].
  destruct (200 <? String.length content);
    [|destruct (100 <? String.length content); [now right | now left]].
  rewrite length_map.
  destruct (paragraphRecords std (to_str dCode) (to_str sCode) dom content)
    as [|p ps]; cbn [List.length Nat.eqb andb List.map app]; [|now left].
  destruct (100 <? String.length content); [now right | now left].
Qed.

Lemma parseContentIntoClausesAny_typed (std d s dom content : string) :
  parseContentIntoClausesAny std (VStr d) (VStr s) dom content
  = List.map (withCodes (VStr d) (VStr s))
             (parseContentIntoClauses std d s dom content).
Proof.
  destruct (parseContentIntoClausesAny_cases std (VStr d) (VStr s) dom
                                             content) as [H|[H1 H2]].
  - exact H.
  - cbn [to_str] in H2. rewrite H1, H2. cbn [List.map].
    now rewrite wholeRecordAny_typed.
Qed.

(** A property of the stored form of every record of the segmenter, and
    of the whole-text record of the call, holds for every record of a
    call. *)
Lemma parseContentIntoClausesAny_Forall (P : StoredRecord -> Prop)
      (std : string) (dCode sCode : value) (dom content : string) :
  Forall (fun r => P (withCodes dCode sCode r))
         (parseContentIntoClauses std (to_str dCode) (to_str sCode) dom
                                  content) ->
  P (wholeRecordAny std dCode sCode dom content) ->
  Forall P (parseContentIntoClausesAny std dCode sCode dom content).
Proof.
  intros Hr Hw.
  destruct (parseContentIntoClausesAny_cases std dCode sCode dom content)
    as [H|[H _]]; rewrite H.
  - apply Forall_forall. intros x Hx. apply in_map_iff in Hx.
    destruct Hx as (r & <- & Hin).
    exact (proj1 (Forall_forall _ _) Hr r Hin).
  - constructor; [exact Hw | constructor].
Qed.

Lemma truthy_orv (a b : value) : truthy (a ||| b) = truthy a || truthy b.
Proof. unfold orv. destruct (truthy a) eqn:E; [exact E | reflexivity]. Qed.

(** The title of the whole-text record of a call is truthy. *)
Lemma wholeRecordAny_title
      (std : string) (dCode sCode : value) (dom content : string) :
  truthy (title (wholeRecordAny std dCode sCode dom content)) = true.
Proof.
  unfold wholeRecordAny. cbv zeta. cbn [title].
  rewrite !truthy_orv. cbn [truthy Str.nonEmpty]. apply orb_true_r.
Qed.

(* ================================================================== *)
(** ** Synthesised references *)

Lemma orv_falsy (a b : value) : truthy a = false -> a ||| b = b.
Proof. unfold orv. now intros ->. Qed.

Lemma trimmed_or_empty (s : string) :
  exists t, VStr (Str.trim s) ||| VStr "" = VStr t /\ cleanEdges t.
Proof.
  unfold orv. destruct (truthy (VStr (Str.trim s))); eexists;
    (split; [reflexivity|]).
  - apply trim_clean.
  - split; reflexivity.
Qed.

(** C8, as amended.  Where the source object supplies no reference, the
    stored reference is the joined parts trimmed: it is a string with no
    leading and no trailing white space.  This holds for the segmenter's
    records, also as the walks call it, for the explicit-clause records of
    both walks and for the record of a free-form object.  (Inner runs of
    spaces are kept.) *)
Theorem synthesized_reference_trimmed :
  forall std dom : string,
    (forall dCode sCode content,
        Forall (fun r => cleanEdges (reference r))
               (parseContentIntoClauses std dCode sCode dom content))
    /\ (forall dCode sCode content,
           Forall (fun r => exists s, reference r = VStr s /\ cleanEdges s)
                  (parseContentIntoClausesAny std dCode sCode dom content))
    /\ (forall dCode sCode section clause index,
           truthy (clause "reference") = false ->
           exists s,
             reference (hcisClauseRecord std dom dCode sCode
                                         section clause index) = VStr s
             /\ cleanEdges s)
    /\ (forall sCode section clause index,
           truthy (clause "reference") = false ->
           exists s,
             reference (documentClauseRecord std dom sCode
                                             section clause index) = VStr s
             /\ cleanEdges s)
    /\ (forall record,
           truthy (record "reference") = false ->
           truthy (record "ref") = false ->
           exists s,
             reference (genericRecord record std dom) = VStr s
             /\ cleanEdges s).
Proof.
  intros std dom. split; [|split; [|split; [|split]]].
  - intros dCode sCode content.
    apply (segmenter_reference_clean std dCode sCode dom content).
  - intros dCode sCode content.
    apply parseContentIntoClausesAny_Forall.
    + eapply Forall_impl;
        [|apply (segmenter_reference_clean std (to_str dCode) (to_str sCode)
                                           dom content)].
      intros r Hr. exists (reference r). split; [reflexivity | exact Hr].
    + eexists. split; [reflexivity|]. apply trim_clean.
  - intros dCode sCode section clause index H.
    cbn [reference hcisClauseRecord].
    rewrite (orv_falsy (clause "reference")) by assumption.
    eexists. split; [reflexivity|]. apply trim_clean.
  - intros sCode section clause index H.
    cbn [reference documentClauseRecord].
    rewrite (orv_falsy (clause "reference")) by assumption.
    eexists. split; [reflexivity|]. apply trim_clean.
  - intros record H1 H2.
    cbn [reference genericRecord].
    rewrite (orv_falsy (record "reference")) by assumption.
    rewrite (orv_falsy (record "ref")) by assumption.
    apply trimmed_or_empty.
Qed.

Lemma synthesized_reference_trimmed_witness :
  truthy (prop Samples.parentDoc "reference") = false
  /\ truthy (prop Samples.parentDoc "ref") = false
  /\ exists s,
       reference (genericRecord (prop Samples.parentDoc) "STD" "general")
       = VStr s
       /\ cleanEdges s.
Proof.
  split; [reflexivity|]. split; [reflexivity|].
  apply (proj2 (proj2 (proj2 (proj2
           (synthesized_reference_trimmed "STD" "general")))));
    reflexivity.
Defined.

(** C8 as stated fails: with an empty directive code the synthesised
    reference keeps the two spaces around it, for a free-form object and
    for the segmenter's records of a section-rooted document. *)
Lemma reference_collapse_counterexample :
  normalizeRecord Samples.parentDoc "STD" "general"
  = Ok [Samples.parentRecord]
  /\ truthy (prop Samples.parentDoc "reference") = false
  /\ reference Samples.parentRecord = VStr "STD  4.3"
  /\ doubleSpace "STD  4.3" = true
  /\ (exists r1 r2,
         normalizeRecord Samples.sectionDoc "STD" "security" = Ok [r1; r2]
         /\ reference r1 = VStr "STD  4.3 4.3.1"
         /\ reference r2 = VStr "STD  4.3 4.3.2"
         /\ doubleSpace "STD  4.3 4.3.1" = true).
Proof.
  split; [vm_compute; reflexivity|].
  split; [reflexivity|]. split; [reflexivity|]. split; [reflexivity|].
  do 2 eexists. split; [vm_compute; reflexivity|].
  repeat split; reflexivity.
Qed.

(* ================================================================== *)
(** ** The walkers keep records with a title or a text only *)

Lemma normalizeRecord_array (items : list value) (std dom : string) :
  normalizeRecord (VArr items) std dom = normalizeAll items std dom.
Proof.
  cbn [normalizeRecord props bind prop truthy andb].
  induction items as [|item rest IH]; [reflexivity|].
  cbn [normalizeAll]. now rewrite <- IH.
Qed.

Lemma normalizeRecord_object (record : value) (std dom : string) :
  isArray record = false ->
  normalizeRecord record std dom
  = (r <- props record ;;
     if truthy (r "directives") && isArray (r "directives")
     then fromHcis record std dom
     else if truthy (r "document")
             && truthy (prop (r "document") "structured_sections")
     then fromDocumentStructure record std dom
     else Ok (filter hasTitleOrText [genericRecord r std dom])).
Proof.
  destruct record; intro H; try discriminate H; try reflexivity.
  cbn [normalizeRecord props bind filter].
  destruct (_ && _); [reflexivity|].
  destruct (_ && _); [reflexivity|].
  now destruct (hasTitleOrText _).
Qed.

Lemma Ok_filter_kept (l rs : list StoredRecord) :
  Ok (filter hasTitleOrText l) = Ok rs -> Forall kept rs.
Proof.
  intro H. injection H as <-. apply Forall_filter_kept.
Qed.

Lemma fromHcis_kept (raw : value) (std dom : string) rs :
  fromHcis raw std dom = Ok rs -> Forall kept rs.
Proof.
  unfold fromHcis. destruct (props raw) as [r|]; [|discriminate].
  cbn [bind].
  destruct (r "directives"); try (intro H; inversion H; constructor).
  destruct (forEachM _ _) as [results|]; [|discriminate].
  cbn [bind]. intro H. inversion H. apply Forall_filter_kept.
Qed.

Lemma fromDocumentStructure_kept (raw : value) (std dom : string) rs :
  fromDocumentStructure raw std dom = Ok rs -> Forall kept rs.
Proof.
  unfold fromDocumentStructure. destruct (props raw) as [r|]; [|discriminate].
  cbn [bind].
  destruct (negb _); [intro H; inversion H; constructor|].
  destruct (prop _ _); try (intro H; inversion H; constructor).
  destruct (forEachM _ _) as [results|]; [|discriminate].
  cbn [bind]. intro H. inversion H. apply Forall_filter_kept.
Qed.

Lemma normalizeRecord_kept (record : value) :
  forall std dom rs,
    normalizeRecord record std dom = Ok rs -> Forall kept rs.
Proof.
  induction record as [| | | | |items IH|fields] using value_array_ind;
    intros std dom rs;
    try (rewrite normalizeRecord_object by reflexivity;
         cbn [props bind]; try discriminate;
         repeat match goal with
                | |- (if ?c then _ else _) = _ -> _ => destruct c
                end;
         try apply fromHcis_kept; try apply fromDocumentStructure_kept;
         apply Ok_filter_kept).
  rewrite normalizeRecord_array. revert rs.
  induction IH as [|item rest Hitem _ IHrest]; intros rs; cbn [normalizeAll].
  - intro H. inversion H. constructor.
  - destruct (normalizeRecord item std dom) as [here|] eqn:E; [|discriminate].
    destruct (normalizeAll rest std dom) as [later|]; [|discriminate].
    cbn [bind]. intro H. inversion H. apply Forall_app. split.
    + exact (Hitem _ _ _ E).
    + now apply IHrest.
Qed.

Lemma loadData_kept (files : list (string * string * value)) :
  Forall kept (loadData files).
Proof.
  induction files as [|[[std dom] jsonData] rest IH]; cbn [loadData].
  - constructor.
  - apply Forall_app. split; [|exact IH].
    destruct (normalizeRecord jsonData std dom) eqn:E.
    + exact (normalizeRecord_kept _ _ _ _ E).
    + constructor.
Qed.

(** C4, as amended.  Every record of the finished corpus has a truthy
    title or a truthy text: each walk ends with the filter that drops the
    others, the free-form case tests its single record, and arrays
    concatenate such results.  When the title and the text are both
    strings, one of them is not empty. *)
Theorem corpus_title_or_text :
  forall (files : list (string * string * value)),
    Forall (fun r =>
              (truthy (title r) = true \/ truthy (text r) = true)
              /\ (forall t x, title r = VStr t -> text r = VStr x ->
                              t <> "" \/ x <> ""))
           (loadData files).
Proof.
  intro files.
  eapply Forall_impl; [|apply loadData_kept].
  intros r H. unfold kept, hasTitleOrText in H.
  apply orb_true_iff in H. split; [exact H|].
  intros t x Ht Hx. rewrite Ht, Hx in H. cbn [truthy] in H.
  destruct H as [H|H]; [left | right]; now apply nonEmpty_true.
Qed.

Lemma corpus_title_or_text_witness :
  loadData [("STD", "general", Samples.parentDoc)] = [Samples.parentRecord]
  /\ ("Parent" <> "" \/ "" <> "").
Proof.
  assert (E : loadData [("STD", "general", Samples.parentDoc)]
              = [Samples.parentRecord]) by (vm_compute; reflexivity).
  split; [exact E|].
  pose proof (corpus_title_or_text
                [("STD", "general", Samples.parentDoc)]) as H.
  rewrite E in H.
  exact (proj2 (Forall_inv H) "Parent" "" eq_refl eq_refl).
Defined.

(** C4 as stated fails: a title that is the empty array is truthy, so the
    record is kept although its title prints as the empty string and its
    text is the empty string, for a free-form object and for an explicit
    clause of a directive-rooted document. *)
Lemma empty_title_counterexample :
  loadData [("STD", "general", Samples.emptyArrayTitleDoc)]
  = [Samples.emptyArrayTitleRecord]
  /\ title Samples.emptyArrayTitleRecord = VArr []
  /\ to_str (title Samples.emptyArrayTitleRecord) = ""
  /\ text Samples.emptyArrayTitleRecord = VStr ""
  /\ (exists r,
         loadData [("STD", "security", Samples.emptyArrayTitleClauseDoc)]
         = [r]
         /\ title r = VArr [] /\ text r = VStr "").
Proof.
  split; [vm_compute; reflexivity|].
  split; [reflexivity|]. split; [reflexivity|]. split; [reflexivity|].
  eexists. split; [vm_compute; reflexivity|]. split; reflexivity.
Qed.

(* ================================================================== *)
(** ** Free-form objects *)

(** C2, as amended.  For a free-form document, [normalizeRecord] returns
    the one record assembled from the document itself when its title or
    its text is truthy, and nothing otherwise; arrays under
    [requirements], [sections], [clauses] or [items] are not entered. *)
Theorem generic_single_record :
  forall record std dom,
    isGeneric record = true ->
    normalizeRecord record std dom
    = Ok (filter hasTitleOrText [genericRecord (prop record) std dom])
    /\ (truthy (title (genericRecord (prop record) std dom))
        || truthy (text (genericRecord (prop record) std dom)) = true ->
        normalizeRecord record std dom
        = Ok [genericRecord (prop record) std dom])
    /\ (truthy (title (genericRecord (prop record) std dom))
        || truthy (text (genericRecord (prop record) std dom)) = false ->
        normalizeRecord record std dom = Ok [])
    /\ (forall rs, normalizeRecord record std dom = Ok rs ->
                   List.length rs <= 1).
Proof.
  intros record std dom H.
  assert (E : normalizeRecord record std dom
              = Ok (filter hasTitleOrText
                           [genericRecord (prop record) std dom])).
  { destruct record; try discriminate H;
      rewrite normalizeRecord_object by reflexivity;
      cbn [props bind]; unfold isGeneric in H;
      apply andb_true_iff in H; destruct H as [H1 H2];
      apply negb_true_iff in H1; apply negb_true_iff in H2;
      rewrite H1, H2; reflexivity. }
  split; [exact E|]. rewrite E. cbn [filter]. unfold hasTitleOrText.
  split; [now intros ->|]. split; [now intros ->|].
  intros rs Hrs. inversion Hrs.
  destruct (_ || _); simpl; lia.
Qed.

Lemma generic_single_record_witness :
  isGeneric Samples.parentDoc = true
  /\ nestedItems Samples.parentDoc = [Samples.childDoc]
  /\ normalizeRecord Samples.parentDoc "STD" "general"
     = Ok [genericRecord (prop Samples.parentDoc) "STD" "general"].
Proof.
  split; [reflexivity|]. split; [reflexivity|].
  apply (generic_single_record Samples.parentDoc "STD" "general");
    reflexivity.
Defined.

(** A title that is the empty array is truthy: the free-form object is
    kept, with the array as its title. *)
Example generic_empty_array_title :
  isGeneric Samples.emptyArrayTitleDoc = true
  /\ truthy (VArr []) = true
  /\ normalizeRecord Samples.emptyArrayTitleDoc "STD" "general"
     = Ok [Samples.emptyArrayTitleRecord].
Proof. repeat split; vm_compute; reflexivity. Qed.

(** C2 as stated fails: the object under [items] would give a record of
    its own, and the result holds the parent's record only. *)
Lemma nested_recursion_counterexample :
  isGeneric Samples.parentDoc = true
  /\ nestedItems Samples.parentDoc = [Samples.childDoc]
  /\ normalizeRecord Samples.childDoc "STD" "general"
     = Ok [Samples.childRecord]
  /\ normalizeRecord Samples.parentDoc "STD" "general"
     = Ok [Samples.parentRecord]
  /\ ~ In Samples.childRecord [Samples.parentRecord].
Proof.
  split; [reflexivity|]. split; [reflexivity|].
  split; [vm_compute; reflexivity|]. split; [vm_compute; reflexivity|].
  intros [H|[]]. discriminate H.
Qed.

(* ================================================================== *)
(** ** The cascade and the fallbacks of the segmenter *)

Lemma nonblank_guard (content : string) :
  Str.nonEmpty (Str.trim content) = true ->
  negb (Str.nonEmpty content) || (String.length (Str.trim content) =? 0)
  = false.
Proof.
  intro H. destruct content as [|c s]; [discriminate H|].
  destruct (Str.trim (String c s)); [discriminate H | reflexivity].
Qed.

(** Once the cascade has given no record, the result is that of the
    fallbacks. *)
Lemma parse_without_cascade (std dCode sCode dom content : string) :
  Str.nonEmpty (Str.trim content) = true ->
  cascadeRecords std dCode sCode dom content = [] ->
  parseContentIntoClauses std dCode sCode dom content
  = fallbackRecords std dCode sCode dom content.
Proof.
  intros Hnb Hc. unfold parseContentIntoClauses, fallbackRecords.
  rewrite (nonblank_guard _ Hnb), Hc. cbn [List.length Nat.eqb andb app].
  destruct (200 <? String.length content).
  - destruct (paragraphRecords std dCode sCode dom content) as [|r rs];
      cbn [List.length Nat.eqb andb app].
    + now destruct (100 <? String.length content).
    + reflexivity.
  - cbn [List.length Nat.eqb andb app].
    now destruct (100 <? String.length content).
Qed.

Lemma selectMatches_none (content : string) :
  List.length (Regex.matchAll numberedPattern content) < 2 ->
  List.length (Regex.matchAll articlePattern content) < 2 ->
  List.length (Regex.matchAll sectionPattern content) < 2 ->
  selectMatches content = [].
Proof.
  intros Hn Ha Hs. unfold selectMatches. cbv zeta.
  rewrite (proj2 (Nat.ltb_ge 1 _)) by lia.
  rewrite (proj2 (Nat.ltb_ge 1 _)) by lia.
  now rewrite (proj2 (Nat.ltb_ge 1 _)) by lia.
Qed.

(** C5, as amended.  For a text that is not blank, has more than 200
    characters and for which the cascade gives no record, the segmenter
    returns the records of paragraph splitting: the text is split on blank
    lines, the paragraphs of more than 100 characters (trimmed) are kept,
    and each kept paragraph whose cleaned text is longer than the least
    length gives one record, the least length being 100 when more than 3
    paragraphs were kept and 50 otherwise.  When that gives no record, the
    single record of the whole text is returned. *)
Theorem paragraph_fallback :
  forall std dCode sCode dom content,
    Str.nonEmpty (Str.trim content) = true ->
    cascadeRecords std dCode sCode dom content = [] ->
    (200 <? String.length content) = true ->
    let kept := filter (fun p => 100 <? String.length (Str.trim p))
                       (Regex.split blankLine content) in
    let least := if 3 <? List.length kept then 100 else 50 in
    let emitted := forEach (paragraphRecord std dCode sCode dom least) kept in
    parseContentIntoClauses std dCode sCode dom content
    = match emitted with
      | [] => [wholeRecord std dCode sCode dom content]
      | _ => emitted
      end.
Proof.
  intros std dCode sCode dom content Hnb Hc Hlen kept least emitted.
  rewrite parse_without_cascade by assumption.
  unfold fallbackRecords. rewrite Hlen.
  assert (E : paragraphRecords std dCode sCode dom content = emitted).
  { unfold paragraphRecords, paragraphsOf. subst emitted least kept.
    cbv zeta. now destruct (3 <? _). }
  rewrite E. destruct emitted; [|reflexivity].
  apply Nat.ltb_lt in Hlen.
  assert (H100 : (100 <? String.length content) = true)
    by (apply Nat.ltb_lt; lia).
  now rewrite H100.
Qed.

Lemma paragraph_fallback_witness :
  Str.nonEmpty (Str.trim Samples.twoParagraphs) = true
  /\ cascadeRecords "STD" "SEC-05" "4.3" "security" Samples.twoParagraphs = []
  /\ (200 <? String.length Samples.twoParagraphs) = true
  /\ List.map text
       (parseContentIntoClauses "STD" "SEC-05" "4.3" "security"
                                Samples.twoParagraphs)
     = [Samples.paragraphA; Samples.paragraphB].
Proof.
  split; [vm_compute; reflexivity|].
  split; [vm_compute; reflexivity|].
  split; [vm_compute; reflexivity|].
  rewrite (paragraph_fallback "STD" "SEC-05" "4.3" "security"
                              Samples.twoParagraphs);
    vm_compute; reflexivity.
Defined.

(** C5 as stated fails: a text of 133 characters on which no pattern
    matches at all is not split into paragraphs.  Paragraph splitting
    would give the one long paragraph; the segmenter gives the whole
    text. *)
Lemma paragraph_fallback_counterexample :
  Regex.matchAll numberedPattern Samples.shortText = []
  /\ Regex.matchAll articlePattern Samples.shortText = []
  /\ Regex.matchAll sectionPattern Samples.shortText = []
  /\ String.length Samples.shortText = 133
  /\ List.map text
       (paragraphRecords "STD" "SEC-05" "4.3" "security" Samples.shortText)
     = [Samples.paragraphA]
  /\ List.map text
       (parseContentIntoClauses "STD" "SEC-05" "4.3" "security"
                                Samples.shortText)
     = [(Samples.paragraphA ++ " Short closing note")%string]
  /\ parseContentIntoClauses "STD" "SEC-05" "4.3" "security"
                             Samples.shortText
     <> paragraphRecords "STD" "SEC-05" "4.3" "security" Samples.shortText.
Proof.
  repeat (split; [vm_compute; reflexivity|]).
  vm_compute. intro H. discriminate H.
Qed.

(** C6.  The patterns are tried in the order numbered, article, section,
    and the first with at least 2 matches gives the matches.  With exactly
    2 numbered matches and 3 article matches the numbered matches are
    used.  With exactly 1 numbered match and no other pattern reaching 2
    matches, no match is selected, the cascade gives no record and the
    result is that of the paragraph and whole-text fallbacks. *)
Theorem cascade_priority :
  forall content : string,
    let numbered := Regex.matchAll numberedPattern content in
    let article := Regex.matchAll articlePattern content in
    let section := Regex.matchAll sectionPattern content in
    (2 <= List.length numbered -> selectMatches content = numbered)
    /\ (List.length numbered < 2 -> 2 <= List.length article ->
        selectMatches content = article)
    /\ (List.length numbered < 2 -> List.length article < 2 ->
        2 <= List.length section -> selectMatches content = section)
    /\ (List.length numbered = 2 -> List.length article = 3 ->
        selectMatches content = numbered)
    /\ (List.length numbered = 1 -> List.length article < 2 ->
        List.length section < 2 ->
        selectMatches content = []
        /\ forall std dCode sCode dom,
            cascadeRecords std dCode sCode dom content = []
            /\ (Str.nonEmpty (Str.trim content) = true ->
                parseContentIntoClauses std dCode sCode dom content
                = fallbackRecords std dCode sCode dom content)).
Proof.
  intros content numbered article section.
  assert (Hn : 2 <= List.length numbered -> selectMatches content = numbered).
  { intro H. unfold selectMatches. cbv zeta. fold numbered.
    now rewrite (proj2 (Nat.ltb_lt 1 _)) by lia. }
  split; [exact Hn|]. split; [|split; [|split]].
  - intros H1 H2. unfold selectMatches. cbv zeta. fold numbered article.
    rewrite (proj2 (Nat.ltb_ge 1 (List.length numbered))) by lia.
    now rewrite (proj2 (Nat.ltb_lt 1 (List.length article))) by lia.
  - intros H1 H2 H3. unfold selectMatches. cbv zeta.
    fold numbered article section.
    rewrite (proj2 (Nat.ltb_ge 1 (List.length numbered))) by lia.
    rewrite (proj2 (Nat.ltb_ge 1 (List.length article))) by lia.
    now rewrite (proj2 (Nat.ltb_lt 1 (List.length section))) by lia.
  - intros H1 _. apply Hn. lia.
  - intros H1 H2 H3.
    assert (E : selectMatches content = []).
    { apply selectMatches_none; fold numbered article section; lia. }
    split; [exact E|]. intros std dCode sCode dom.
    assert (Ec : cascadeRecords std dCode sCode dom content = []).
    { unfold cascadeRecords. now rewrite E. }
    split; [exact Ec|]. intro Hnb. now apply parse_without_cascade.
Qed.

Lemma cascade_priority_witness :
  (List.length (Regex.matchAll numberedPattern Samples.numberedAndArticles)
   = 2
   /\ List.length (Regex.matchAll articlePattern Samples.numberedAndArticles)
      = 3
   /\ selectMatches Samples.numberedAndArticles
      = Regex.matchAll numberedPattern Samples.numberedAndArticles)
  /\ (List.length (Regex.matchAll numberedPattern Samples.oneNumbered) = 1
      /\ List.length (Regex.matchAll articlePattern Samples.oneNumbered) < 2
      /\ List.length (Regex.matchAll sectionPattern Samples.oneNumbered) < 2
      /\ selectMatches Samples.oneNumbered = []).
Proof.
  split.
  - split; [vm_compute; reflexivity|]. split; [vm_compute; reflexivity|].
    apply (proj1 (proj2 (proj2 (proj2
             (cascade_priority Samples.numberedAndArticles)))));
      vm_compute; reflexivity.
  - split; [vm_compute; reflexivity|].
    split; [vm_compute; lia|]. split; [vm_compute; lia|].
    apply (proj2 (proj2 (proj2 (proj2
             (cascade_priority Samples.oneNumbered)))));
      vm_compute; lia.
Defined.

(* ================================================================== *)
(** ** Lists: first matches and successive filters *)

Lemma find_first {A : Type} (p : A -> bool) (before after : list A) (x : A) :
  (forall y, In y before -> p y = false) ->
  p x = true ->
  find p (before ++ x :: after) = Some x.
Proof.
  intros Hb Hx. induction before as [|y before IH]; cbn [app find].
  - now rewrite Hx.
  - rewrite (Hb y) by now left. apply IH. intros z Hz. apply Hb. now right.
Qed.

Lemma find_nowhere {A : Type} (p : A -> bool) (l : list A) :
  (forall y, In y l -> p y = false) -> find p l = None.
Proof.
  intro H. induction l as [|y l IH]; cbn [find]; [reflexivity|].
  rewrite (H y) by now left. apply IH. intros z Hz. apply H. now right.
Qed.

Lemma filter_nowhere {A : Type} (p : A -> bool) (l : list A) :
  (forall y, In y l -> p y = false) -> filter p l = [].
Proof.
  intro H. induction l as [|y l IH]; cbn [filter]; [reflexivity|].
  rewrite (H y) by now left. apply IH. intros z Hz. apply H. now right.
Qed.

Lemma filter_everything {A : Type} (l : list A) :
  filter (fun _ => true) l = l.
Proof.
  induction l as [|y l IH]; cbn [filter]; [reflexivity | now rewrite IH].
Qed.

Lemma filter_twice {A : Type} (p q : A -> bool) (l : list A) :
  filter p (filter q l) = filter (fun x => q x && p x) l.
Proof.
  induction l as [|y l IH]; cbn [filter]; [reflexivity|].
  destruct (q y); cbn [filter andb]; [destruct (p y)|]; now rewrite IH.
Qed.

(** An optional filter is a filter. *)
Lemma narrow_option {A : Type} (c : bool) (p : A -> bool) (l : list A) :
  (if c then filter p l else l)
  = filter (fun x => if c then p x else true) l.
Proof.
  destruct c; [reflexivity | now rewrite filter_everything].
Qed.

Lemma existsb_over_map {A B : Type} (f : B -> bool) (g : A -> B)
      (l : list A) :
  existsb f (List.map g l) = existsb (fun x => f (g x)) l.
Proof.
  induction l as [|y l IH]; cbn [List.map existsb];
    [reflexivity | now rewrite IH].
Qed.

Lemma firstn_short {A : Type} (n : nat) (l : list A) :
  List.length (firstn n l) <= n.
Proof.
  rewrite length_firstn. lia.
Qed.

(* ================================================================== *)
(** ** Checklist generation *)

(** The soft-filter block of the handler is [softFilter]. *)
Lemma soft_block (hasValue test : NormalizedRecord -> bool)
      (results : list NormalizedRecord) :
  (let withValue := filter hasValue results in
   if 0 <? List.length withValue
   then let filtered := filter test withValue in
        if 0 <? List.length filtered then filtered else results
   else results)
  = softFilter hasValue test results.
Proof.
  unfold softFilter. cbv zeta.
  destruct (filter hasValue results) as [|r rs]; [reflexivity|].
  cbn [List.length Nat.ltb Nat.leb].
  now destruct (filter test (r :: rs)).
Qed.

Lemma softFilter_no_match (hasValue test : NormalizedRecord -> bool)
      (results : list NormalizedRecord) :
  (forall r, In r results -> test r = false) ->
  softFilter hasValue test results = results.
Proof.
  intro H. unfold softFilter. rewrite filter_nowhere; [reflexivity|].
  intros r Hr. apply filter_In in Hr. now apply H.
Qed.

Lemma generateChecklist_spec (corpus : list NormalizedRecord)
      (body : GenerateChecklistBody) (s : string) (ss : list string) :
  req_standards body = Some (s :: ss) ->
  generateChecklist corpus body
  = Json (checklistSpec corpus (s :: ss) (req_checklistFacilityClass body)
                        (req_domains body)).
Proof.
  intro H. unfold generateChecklist, checklistSpec. rewrite H.
  fold (standardsSelected corpus (s :: ss)).
  set (selected := standardsSelected corpus (s :: ss)).
  cbv zeta. f_equal. f_equal.
  assert (Efc :
    (if supplied (req_checklistFacilityClass body)
     then
       if 0 <? List.length
                 (filter (fun r => 0 <? String.length
                                          (Str.orElse (facilityClass r) ""))
                         selected)
       then
         if 0 <? List.length
                   (filter (fun r =>
                              Str.includes
                                (Str.toLowerCase
                                   (Str.orElse (facilityClass r) ""))
                                (Str.toLowerCase
                                   (the (req_checklistFacilityClass body))))
                      (filter (fun r => 0 <? String.length
                                               (Str.orElse (facilityClass r)
                                                           ""))
                              selected))
         then filter (fun r =>
                        Str.includes
                          (Str.toLowerCase (Str.orElse (facilityClass r) ""))
                          (Str.toLowerCase
                             (the (req_checklistFacilityClass body))))
                (filter (fun r => 0 <? String.length
                                         (Str.orElse (facilityClass r) ""))
                        selected)
         else selected
       else selected
     else selected)
    = (if supplied (req_checklistFacilityClass body)
       then softFilter (fun r => Str.nonEmpty (facilityClass r))
                       (fun r => fieldContains (facilityClass r)
                                   (the (req_checklistFacilityClass body)))
                       selected
       else selected)).
  { destruct (supplied _); [|reflexivity].
    rewrite <- soft_block. cbv zeta.
    rewrite (filter_ext (fun r => Str.nonEmpty (facilityClass r))
                        (fun r => 0 <? String.length
                                         (Str.orElse (facilityClass r) "")))
      by (intro r; now rewrite orElse_empty, length_positive).
    rewrite (filter_ext
               (fun r => fieldContains (facilityClass r)
                           (the (req_checklistFacilityClass body)))
               (fun r => Str.includes
                           (Str.toLowerCase (Str.orElse (facilityClass r) ""))
                           (Str.toLowerCase
                              (the (req_checklistFacilityClass body)))))
      by (intro r; now rewrite orElse_empty).
    reflexivity. }
  rewrite Efc.
  set (afterFc := if supplied _ then _ else _).
  destruct (req_domains body) as [[|d ds]|]; try reflexivity.
  rewrite <- soft_block. cbv zeta.
  rewrite (filter_ext (fun r => Str.nonEmpty (domain r))
                      (fun r => 0 <? String.length
                                       (Str.orElse (domain r) "")))
    by (intro r; now rewrite orElse_empty, length_positive).
  rewrite (filter_ext
             (fun r => existsb (fun x => fieldContains (domain r) x)
                               (d :: ds))
             (fun r => existsb
                         (fun x => Str.includes
                                     (Str.toLowerCase
                                        (Str.orElse (domain r) "")) x)
                         (List.map Str.toLowerCase (d :: ds))))
    by (intro r; now rewrite existsb_over_map, orElse_empty).
  reflexivity.
Qed.

(** C3.  With a non-empty [standards] array, the handler answers with the
    records selected by the standards filter, narrowed softly by
    [facilityClass] and then by [domains]: each test runs over the
    selected records that have a value for the attribute, and replaces
    the working set only when it keeps a record.  In particular, when the
    [facilityClass] value matches none of the N selected records, the
    filter is ignored: the answer is that of the same request without
    [facilityClass], and without [domains] all N records are in the
    response. *)
Theorem checklist_soft_filter :
  forall corpus body standards,
    req_standards body = Some standards ->
    standards <> [] ->
    generateChecklist corpus body
    = Json (checklistSpec corpus standards (req_checklistFacilityClass body)
                          (req_domains body))
    /\ ((forall r, In r (standardsSelected corpus standards) ->
                   fieldContains (facilityClass r)
                                 (the (req_checklistFacilityClass body))
                   = false) ->
        generateChecklist corpus body
        = generateChecklist corpus (withoutFacilityClass body)
        /\ (req_domains body = None ->
            generateChecklist corpus body
            = Json (List.map toChecklistItem
                             (standardsSelected corpus standards)))).
Proof.
  intros corpus body [|s ss] Hs Hne; [contradiction|].
  split; [now apply generateChecklist_spec|].
  intro Hnone.
  assert (E : checklistSpec corpus (s :: ss)
                            (req_checklistFacilityClass body)
                            (req_domains body)
              = checklistSpec corpus (s :: ss) None (req_domains body)).
  { unfold checklistSpec. cbv zeta. cbn [supplied].
    destruct (supplied (req_checklistFacilityClass body)); [|reflexivity].
    now rewrite softFilter_no_match. }
  split.
  - rewrite (generateChecklist_spec _ _ _ _ Hs), E.
    symmetry.
    exact (generateChecklist_spec corpus (withoutFacilityClass body) s ss Hs).
  - intro Hd. rewrite (generateChecklist_spec _ _ _ _ Hs), E, Hd.
    reflexivity.
Qed.

Lemma checklist_soft_filter_witness :
  req_standards Samples.checklistBody = Some ["hcis"]
  /\ List.length (standardsSelected Samples.classedCorpus ["hcis"]) = 2
  /\ filter (fun r => fieldContains (facilityClass r) "Class 9")
            (standardsSelected Samples.classedCorpus ["hcis"]) = []
  /\ generateChecklist Samples.classedCorpus Samples.checklistBody
     = Json [toChecklistItem (Samples.classedRecord "Class 1");
             toChecklistItem (Samples.classedRecord "")].
Proof.
  split; [reflexivity|]. split; [vm_compute; reflexivity|].
  split; [vm_compute; reflexivity|].
  refine (proj2 (proj2 (checklist_soft_filter Samples.classedCorpus
                          Samples.checklistBody ["hcis"]
                          eq_refl ltac:(discriminate)) _) eq_refl).
  intros r Hr. vm_compute in Hr.
  destruct Hr as [<-|[<-|[]]]; vm_compute; reflexivity.
Defined.

(* ================================================================== *)
(** ** Reference lookup *)

Lemma normalizeRefString_spec (s : string) :
  normalizeRefString s = normalizeSpec s.
Proof. now destruct s. Qed.

Lemma getReference_valid (corpus : list NormalizedRecord) (q : string) :
  Str.nonEmpty q = true ->
  getReference corpus (Some q)
  = match find (fun r => String.eqb (normalizeRefString (reference r))
                                    (normalizeRefString q)) corpus with
    | Some r => Json r
    | None =>
        match find (fun r => Str.endsWith (normalizeRefString (reference r))
                                          (normalizeRefString q)) corpus with
        | Some r => Json r
        | None => NotFound
        end
    end.
Proof.
  intro H. unfold getReference. cbn [supplied the]. rewrite H. cbn [negb].
  now destruct (find _ corpus).
Qed.

(** C7.  For a query that passes validation, the stored references and the
    query are normalised by the same function (lower-case, underscores to
    spaces, runs of white space to one space, trimmed); the answer is the
    first record whose normalised reference equals the normalised query,
    otherwise the first whose normalised reference ends with it, otherwise
    not-found.  The query "hcis sec sec-05 4.3.2" has the normal form of
    the stored reference "HCIS_SEC SEC-05 4.3.2" and so resolves as that
    reference does, to a record with that normal form whenever the corpus
    stores such a reference. *)
Theorem getReference_lookup :
  forall (corpus : list NormalizedRecord) (q : string),
    Str.nonEmpty q = true ->
    let norm := normalizeRefString in
    (forall s, norm s = normalizeSpec s)
    /\ (forall before r after,
           corpus = before ++ r :: after ->
           (forall x, In x before -> norm (reference x) <> norm q) ->
           norm (reference r) = norm q ->
           getReference corpus (Some q) = Json r)
    /\ (forall before r after,
           (forall x, In x corpus -> norm (reference x) <> norm q) ->
           corpus = before ++ r :: after ->
           (forall x, In x before ->
                      Str.endsWith (norm (reference x)) (norm q) = false) ->
           Str.endsWith (norm (reference r)) (norm q) = true ->
           getReference corpus (Some q) = Json r)
    /\ ((forall x, In x corpus ->
                   Str.endsWith (norm (reference x)) (norm q) = false) ->
        getReference corpus (Some q) = NotFound)
    /\ norm "hcis sec sec-05 4.3.2" = norm "HCIS_SEC SEC-05 4.3.2"
    /\ getReference corpus (Some "hcis sec sec-05 4.3.2")
       = getReference corpus (Some "HCIS_SEC SEC-05 4.3.2")
    /\ (forall r, In r corpus -> reference r = "HCIS_SEC SEC-05 4.3.2" ->
                  exists r',
                    getReference corpus (Some "hcis sec sec-05 4.3.2")
                    = Json r'
                    /\ norm (reference r') = norm "HCIS_SEC SEC-05 4.3.2").
Proof.
  intros corpus q Hq norm.
  assert (Hexact : forall l, (forall x, In x l ->
                                norm (reference x) <> norm q) ->
                             find (fun r => String.eqb (norm (reference r))
                                                       (norm q)) l = None).
  { intros l Hl. apply find_nowhere. intros y Hy.
    apply String.eqb_neq. now apply Hl. }
  split; [exact normalizeRefString_spec|].
  split; [|split; [|split; [|split; [|split]]]].
  - intros before r after -> Hb Hr.
    rewrite (getReference_valid _ _ Hq). fold norm.
    rewrite find_first; [reflexivity| |now apply String.eqb_eq].
    intros y Hy. apply String.eqb_neq. now apply Hb.
  - intros before r after Hnone -> Hb Hr.
    rewrite (getReference_valid _ _ Hq). fold norm.
    rewrite (Hexact _ Hnone). now rewrite find_first.
  - intro Hnone. rewrite (getReference_valid _ _ Hq). fold norm.
    rewrite Hexact.
    + now rewrite find_nowhere.
    + intros x Hx E. specialize (Hnone x Hx).
      rewrite E, endsWith_refl in Hnone. discriminate Hnone.
  - reflexivity.
  - rewrite !getReference_valid by reflexivity. reflexivity.
  - intros r Hin Href.
    rewrite getReference_valid by reflexivity.
    destruct (find _ corpus) as [r'|] eqn:E.
    + exists r'. split; [reflexivity|].
      apply find_some in E. destruct E as [_ E].
      now apply String.eqb_eq in E.
    + exfalso. apply (find_none _ _ E) in Hin.
      rewrite Href in Hin. vm_compute in Hin. discriminate Hin.
Qed.

Lemma getReference_lookup_witness :
  Str.nonEmpty "hcis sec sec-05 4.3.2" = true
  /\ getReference [Samples.gateRecord; Samples.fenceRecord]
                  (Some "hcis sec sec-05 4.3.2")
     = Json Samples.fenceRecord.
Proof.
  split; [reflexivity|].
  apply (proj1 (proj2 (getReference_lookup
                         [Samples.gateRecord; Samples.fenceRecord]
                         "hcis sec sec-05 4.3.2" eq_refl))
           [Samples.gateRecord] Samples.fenceRecord []).
  - reflexivity.
  - intros x [<-|[]]. vm_compute. intro H. discriminate H.
  - vm_compute. reflexivity.
Defined.

(** C10, as amended.  For a non-empty corpus and a non-empty query whose
    normal form is empty, the answer is never not-found: it is the first
    record whose normalised reference is itself empty when there is one,
    and the first record of the corpus otherwise, since every normalised
    reference ends with the empty string. *)
Theorem getReference_blank_query :
  forall (first : NormalizedRecord) (rest : list NormalizedRecord)
         (q : string),
    Str.nonEmpty q = true ->
    normalizeRefString q = "" ->
    getReference (first :: rest) (Some q)
    = Json match find (fun r => String.eqb
                                  (normalizeRefString (reference r)) "")
                      (first :: rest) with
           | Some r => r
           | None => first
           end
    /\ ((forall x, In x (first :: rest) ->
                   normalizeRefString (reference x) <> "") ->
        getReference (first :: rest) (Some q) = Json first).
Proof.
  intros first rest q Hq Hn.
  assert (E : getReference (first :: rest) (Some q)
              = Json match find (fun r => String.eqb
                                            (normalizeRefString (reference r))
                                            "")
                                (first :: rest) with
                     | Some r => r
                     | None => first
                     end).
  { rewrite (getReference_valid _ _ Hq), Hn.
    destruct (find _ (first :: rest)); [reflexivity|].
    cbn [find]. now rewrite endsWith_empty. }
  split; [exact E|].
  intro Hnone. rewrite E. rewrite find_nowhere; [reflexivity|].
  intros y Hy. apply String.eqb_neq. now apply Hnone.
Qed.

Lemma getReference_blank_query_witness :
  Str.nonEmpty "_ _" = true
  /\ normalizeRefString "_ _" = ""
  /\ getReference [Samples.fenceRecord; Samples.gateRecord] (Some "_ _")
     = Json Samples.fenceRecord.
Proof.
  split; [reflexivity|]. split; [reflexivity|].
  apply (proj2 (getReference_blank_query Samples.fenceRecord
                  [Samples.gateRecord] "_ _" eq_refl eq_refl)).
  intros x [<-|[<-|[]]]; vm_compute; intro H; discriminate H.
Defined.

(** C10 as stated fails: when a later record stores a reference whose
    normal form is empty, the exact match finds that record, not the first
    record of the corpus. *)
Lemma blank_query_counterexample :
  Str.nonEmpty "_" = true
  /\ normalizeRefString "_" = ""
  /\ getReference [Samples.fenceRecord; Samples.blankRefRecord] (Some "_")
     = Json Samples.blankRefRecord
  /\ getReference [Samples.fenceRecord; Samples.blankRefRecord] (Some "_")
     <> Json Samples.fenceRecord.
Proof.
  split; [reflexivity|]. split; [reflexivity|].
  split; [vm_compute; reflexivity|].
  vm_compute. intro H. discriminate H.
Qed.

(* ================================================================== *)
(** ** Search *)

Lemma searchRequirements_narrowing (corpus : list NormalizedRecord)
      (body : SearchRequirementsBody) :
  noFilter body = false ->
  searchRequirements corpus body
  = Json (slice0 (filter (passesFilters body) corpus) (limitOf body)).
Proof.
  intro H. unfold searchRequirements. fold (noFilter body). rewrite H.
  fold (limitOf body). cbv zeta. f_equal. f_equal.
  rewrite !narrow_option, !filter_twice.
  apply filter_ext. intro r. unfold passesFilters.
  now rewrite !andb_assoc.
Qed.

(** C9, as amended.  The search is rejected exactly when none of the five
    filters is supplied with a non-empty value.  Otherwise the answer is
    the corpus narrowed by every supplied filter in turn (field substring
    for the four field filters, fuzzy match on title or text for the
    query), cut by [slice(0, limit)] with a limit of 50 when the caller
    gives none: for a limit that is not negative these are the first
    [limit] results, at most [limit] of them. *)
Theorem search_narrowing_and_limit :
  forall (corpus : list NormalizedRecord) (body : SearchRequirementsBody),
    (searchRequirements corpus body = BadRequest <-> noFilter body = true)
    /\ (noFilter body = false ->
        searchRequirements corpus body
        = Json (slice0 (filter (passesFilters body) corpus) (limitOf body)))
    /\ (forall results,
           searchRequirements corpus body = Json results ->
           (0 <= limitOf body)%Z ->
           results = firstn (Z.to_nat (limitOf body))
                            (filter (passesFilters body) corpus)
           /\ (Z.of_nat (List.length results) <= limitOf body)%Z)
    /\ (req_limit body = None -> limitOf body = 50%Z).
Proof.
  intros corpus body.
  assert (Hbad : noFilter body = true ->
                 searchRequirements corpus body = BadRequest).
  { intro H. unfold searchRequirements. fold (noFilter body). now rewrite H. }
  split; [|split; [|split]].
  - split; [|exact Hbad].
    destruct (noFilter body) eqn:E; [reflexivity|].
    rewrite (searchRequirements_narrowing _ _ E). discriminate.
  - apply searchRequirements_narrowing.
  - intros results Hres Hlim.
    destruct (noFilter body) eqn:E.
    + rewrite (Hbad eq_refl) in Hres. discriminate Hres.
    + rewrite (searchRequirements_narrowing _ _ E) in Hres.
      injection Hres as <-. unfold slice0.
      rewrite (proj2 (Z.ltb_ge _ _) Hlim). split; [reflexivity|].
      pose proof (firstn_short (Z.to_nat (limitOf body))
                               (filter (passesFilters body) corpus)).
      lia.
  - unfold limitOf. now intros ->.
Qed.

Lemma search_narrowing_and_limit_witness :
  noFilter (Samples.searchBody (Some "hcis") (Some 1%Z)) = false
  /\ searchRequirements [Samples.fenceRecord; Samples.gateRecord]
                        (Samples.searchBody (Some "hcis") (Some 1%Z))
     = Json [Samples.fenceRecord].
Proof.
  split; [reflexivity|].
  rewrite (proj1 (proj2 (search_narrowing_and_limit
                           [Samples.fenceRecord; Samples.gateRecord]
                           (Samples.searchBody (Some "hcis") (Some 1%Z))))
             eq_refl).
  vm_compute. reflexivity.
Defined.

(** C9 as stated fails twice: with the limit -1 two matching records give
    one result, which is more than the limit; and a request that supplies
    only an empty [query] is rejected although a filter is supplied. *)
Lemma search_limit_counterexample :
  searchRequirements [Samples.fenceRecord; Samples.gateRecord]
                     (Samples.searchBody (Some "hcis") (Some (-1)%Z))
  = Json [Samples.fenceRecord]
  /\ (-1 < Z.of_nat (List.length [Samples.fenceRecord]))%Z
  /\ searchRequirements [Samples.fenceRecord; Samples.gateRecord]
                        {| req_standard := None; req_directiveCode := None;
                           req_facilityClass := None; req_domain := None;
                           req_query := Some ""; req_limit := None |}
     = BadRequest.
Proof.
  split; [vm_compute; reflexivity|]. split; [vm_compute; reflexivity|].
  vm_compute. reflexivity.
Qed.

(* ================================================================== *)
(** ** Further properties of the segmenter *)

Lemma substring0_length_min (n : nat) (s : string) :
  String.length (Str.substring0 n s) = Nat.min n (String.length s).
Proof.
  unfold Str.substring0. revert s.
  induction n as [|n IH]; intros [|c s]; simpl; try reflexivity.
  now rewrite IH.
Qed.

Lemma cap_above_thresholds : 100 < 10000.
Proof. apply Nat.ltb_lt. vm_compute. reflexivity. Qed.

Lemma substring0_keeps_longer (k : nat) (s : string) :
  k <= 100 -> k < String.length s ->
  k < String.length (Str.substring0 10000 s).
Proof.
  intros Hk Hs. rewrite substring0_length_min.
  pose proof cap_above_thresholds. apply Nat.min_glb_lt; lia.
Qed.

Lemma orElse_nonempty (a b : string) : b <> "" -> Str.orElse a b <> "".
Proof. destruct a; simpl; [auto | discriminate]. Qed.

Lemma length_nonempty (s : string) : 0 < String.length s -> s <> "".
Proof. destruct s; simpl; [lia | discriminate]. Qed.

Lemma trim_empty_guard (content : string) :
  Str.trim content = "" ->
  negb (Str.nonEmpty content) || (String.length (Str.trim content) =? 0)
  = true.
Proof.
  intro H. rewrite H. apply orb_true_r.
Qed.

Lemma guard_trim_empty (content : string) :
  negb (Str.nonEmpty content) || (String.length (Str.trim content) =? 0)
  = true ->
  Str.trim content = "".
Proof.
  destruct content as [|c s]; [reflexivity|]. cbn [Str.nonEmpty negb orb].
  destruct (Str.trim (String c s)); [reflexivity | discriminate].
Qed.

Lemma trim_nonblank (content : string) :
  Str.trim content <> "" -> Str.nonEmpty (Str.trim content) = true.
Proof. intro H. now apply nonEmpty_true. Qed.

Lemma fallbackRecords_empty (std dCode sCode dom content : string) :
  fallbackRecords std dCode sCode dom content = [] <->
  String.length content <= 100.
Proof.
  unfold fallbackRecords. split.
  - intro H. destruct (100 <? String.length content) eqn:E.
    + destruct (if 200 <? _ then _ else _); discriminate H.
    + now apply Nat.ltb_ge.
  - intro H.
    rewrite (proj2 (Nat.ltb_ge 200 _)) by lia.
    now rewrite (proj2 (Nat.ltb_ge 100 _)) by lia.
Qed.

Lemma parse_with_cascade (std dCode sCode dom content : string) :
  Str.nonEmpty (Str.trim content) = true ->
  cascadeRecords std dCode sCode dom content <> [] ->
  parseContentIntoClauses std dCode sCode dom content
  = cascadeRecords std dCode sCode dom content.
Proof.
  intros Hnb Hc. unfold parseContentIntoClauses.
  rewrite (nonblank_guard _ Hnb).
  destruct (cascadeRecords std dCode sCode dom content) as [|r rs];
    [contradiction|reflexivity].
Qed.

(** X1.  The segmenter returns no record exactly for a blank text and for
    a text of at most 100 characters on which the cascade gives nothing:
    any text that is not blank and has more than 100 characters gives at
    least one record. *)
Theorem segmenter_empty_iff :
  forall std dCode sCode dom content,
    parseContentIntoClauses std dCode sCode dom content = [] <->
    (Str.trim content = ""
     \/ (cascadeRecords std dCode sCode dom content = []
         /\ String.length content <= 100)).
Proof.
  intros std dCode sCode dom content.
  destruct (Str.nonEmpty (Str.trim content)) eqn:Hnb.
  - assert (Hne : Str.trim content <> "") by now apply nonEmpty_true.
    destruct (cascadeRecords std dCode sCode dom content) as [|r rs] eqn:Hc.
    + rewrite parse_without_cascade by assumption.
      rewrite fallbackRecords_empty. split; [auto|].
      intros [H|[_ H]]; [contradiction | exact H].
    + rewrite parse_with_cascade by (try assumption; rewrite Hc; discriminate).
      rewrite Hc. split; [discriminate|].
      intros [H|[H _]]; [contradiction | discriminate H].
  - assert (He : Str.trim content = "").
    { destruct (Str.trim content); [reflexivity | discriminate Hnb]. }
    split; [now left|]. intros _.
    unfold parseContentIntoClauses. now rewrite trim_empty_guard.
Qed.

Lemma parse_context (std dCode sCode dom content : string) :
  Forall (fun r =>
            standard r = std /\ directiveCode r = dCode
            /\ sectionCode r = sCode /\ domain r = dom
            /\ facilityClass r = "" /\ tags r = []
            /\ reference r = joinedReference std dCode sCode (clauseId r))
         (parseContentIntoClauses std dCode sCode dom content).
Proof.
  apply parseContentIntoClauses_Forall.
  - intros i m. unfold matchRecord. cbv zeta.
    destruct (20 <? _); constructor; [|constructor].
    cbn. repeat split.
  - intros n i p. unfold paragraphRecord. cbv zeta.
    destruct (n <? _); constructor; [|constructor].
    cbn. repeat split.
  - intro c. unfold wholeRecord. cbn. repeat split.
Qed.

(** X2.  Every record of the segmenter carries the enclosing standard,
    directive code, section code and domain unchanged, has no facility
    class and no tags, and its reference is the trimmed join of these
    three codes with the record's own clause id. *)
Theorem segmenter_context :
  forall std dCode sCode dom content,
    Forall (fun r =>
              standard r = std /\ directiveCode r = dCode
              /\ sectionCode r = sCode /\ domain r = dom
              /\ facilityClass r = "" /\ tags r = []
              /\ reference r = joinedReference std dCode sCode (clauseId r))
           (parseContentIntoClauses std dCode sCode dom content).
Proof.
  intros. apply parse_context.
Qed.

(** X3.  Every record of the segmenter has a title that is not empty (the
    first sentence of its text, or a synthetic label), so the walkers'
    final filter never drops a segmenter record: the stored form of the
    record is kept, and so is every record of a call of the segmenter by
    the walks, whose title is truthy whatever the codes read from the
    document are. *)
Theorem segmenter_title_nonempty :
  forall std dCode sCode dom content,
    Forall (fun r =>
              title r <> ""
              /\ hasTitleOrText (withCodes (VStr dCode) (VStr sCode) r)
                 = true)
           (parseContentIntoClauses std dCode sCode dom content)
    /\ (forall codeOfDirective codeOfSection : value,
           Forall (fun r => truthy (title r) = true
                            /\ hasTitleOrText r = true)
                  (parseContentIntoClausesAny std codeOfDirective
                                              codeOfSection dom content)).
Proof.
  intros.
  assert (H : forall d s,
             Forall (fun r => title r <> "")
                    (parseContentIntoClauses std d s dom content)).
  { intros d s. apply parseContentIntoClauses_Forall.
    - intros i m. unfold matchRecord. cbv zeta.
      destruct (20 <? _); constructor; [|constructor].
      cbn [title]. destruct (0 <? String.length _) eqn:E.
      + apply Nat.ltb_lt in E. now apply length_nonempty.
      + discriminate.
    - intros n i p. unfold paragraphRecord. cbv zeta.
      destruct (n <? _); constructor; [|constructor].
      cbn [title]. apply orElse_nonempty. discriminate.
    - intro c. unfold wholeRecord. cbn [title].
      apply orElse_nonempty, orElse_nonempty. discriminate. }
  assert (Hk : forall (d s : value) (r : NormalizedRecord),
             title r <> "" ->
             truthy (title (withCodes d s r)) = true
             /\ hasTitleOrText (withCodes d s r) = true).
  { intros d s r Hr.
    assert (Ht : truthy (title (withCodes d s r)) = true)
      by (cbn [withCodes title truthy]; now apply nonEmpty_true).
    split; [exact Ht|]. unfold hasTitleOrText. now rewrite Ht. }
  split.
  - eapply Forall_impl; [|apply H].
    intros r Hr. split; [exact Hr | now apply Hk].
  - intros codeOfDirective codeOfSection.
    apply parseContentIntoClausesAny_Forall.
    + eapply Forall_impl; [|apply H]. intros r Hr. now apply Hk.
    + pose proof (wholeRecordAny_title std codeOfDirective codeOfSection
                                       dom content) as Ht.
      split; [exact Ht|]. unfold hasTitleOrText. now rewrite Ht.
Qed.

(** X4.  The least lengths are kept after truncation: a record of the
    cascade has a text of more than 20 characters, a record of the
    paragraph branch a text of more than 50 characters, and of more than
    100 when more than 3 paragraphs were kept. *)
Theorem segmenter_text_thresholds :
  forall std dCode sCode dom content,
    Forall (fun r => 20 < String.length (text r))
           (cascadeRecords std dCode sCode dom content)
    /\ Forall (fun r => 50 < String.length (text r))
              (paragraphRecords std dCode sCode dom content)
    /\ (3 < List.length (paragraphsOf content) ->
        Forall (fun r => 100 < String.length (text r))
               (paragraphRecords std dCode sCode dom content)).
Proof.
  intros std dCode sCode dom content.
  assert (Hp : forall k n i p,
             k <= n -> n <= 100 ->
             Forall (fun r => k < String.length (text r))
                    (paragraphRecord std dCode sCode dom n i p)).
  { intros k n i p Hk Hn. unfold paragraphRecord. cbv zeta.
    destruct (n <? _) eqn:E; constructor; [|constructor].
    cbn [text]. apply Nat.ltb_lt in E.
    apply substring0_keeps_longer; lia. }
  split; [|split].
  - apply Forall_forEach. intros i m. unfold matchRecord. cbv zeta.
    destruct (20 <? _) eqn:E; constructor; [|constructor].
    cbn [text]. apply Nat.ltb_lt in E.
    apply substring0_keeps_longer; [lia | exact E].
  - unfold paragraphRecords. cbv zeta.
    destruct (3 <? _); apply Forall_forEach; intros i p; apply Hp; lia.
  - intro H. unfold paragraphRecords. cbv zeta.
    rewrite (proj2 (Nat.ltb_lt _ _) H).
    apply Forall_forEach. intros i p. apply Hp; lia.
Qed.

Lemma segmenter_text_thresholds_witness :
  3 < List.length (paragraphsOf fourParagraphs)
  /\ Forall (fun r => 100 < String.length (text r))
            (paragraphRecords "STD" "SEC-05" "4.3" "security"
                              fourParagraphs).
Proof.
  split; [vm_compute; lia|].
  apply (segmenter_text_thresholds "STD" "SEC-05" "4.3" "security"
                                   fourParagraphs).
  vm_compute. lia.
Defined.

(** X5.  The cascade and the fallbacks never mix: for a text that is not
    blank, when the cascade gives at least one record the result is
    exactly the cascade's records, whatever the length of the text. *)
Theorem cascade_excludes_fallbacks :
  forall std dCode sCode dom content,
    Str.nonEmpty (Str.trim content) = true ->
    cascadeRecords std dCode sCode dom content <> [] ->
    parseContentIntoClauses std dCode sCode dom content
    = cascadeRecords std dCode sCode dom content.
Proof.
  intros. now apply parse_with_cascade.
Qed.

Lemma cascade_excludes_fallbacks_witness :
  Str.nonEmpty (Str.trim Samples.numberedAndArticles) = true
  /\ List.length (cascadeRecords "STD" "SEC-05" "4.3" "security"
                                 Samples.numberedAndArticles) = 2
  /\ parseContentIntoClauses "STD" "SEC-05" "4.3" "security"
                             Samples.numberedAndArticles
     = cascadeRecords "STD" "SEC-05" "4.3" "security"
                      Samples.numberedAndArticles.
Proof.
  split; [vm_compute; reflexivity|]. split; [vm_compute; reflexivity|].
  apply (cascade_excludes_fallbacks "STD" "SEC-05" "4.3" "security"
                                    Samples.numberedAndArticles).
  - vm_compute. reflexivity.
  - vm_compute. discriminate.
Defined.

(* ================================================================== *)
(** ** Further properties of the walkers and of the corpus *)

Lemma Forall_filter_sub {A : Type} (P : A -> Prop) (p : A -> bool)
      (l : list A) :
  Forall P l -> Forall P (filter p l).
Proof.
  intro H. apply Forall_forall. intros x Hx.
  apply filter_In in Hx. destruct Hx as [Hx _].
  revert x Hx. now apply Forall_forall.
Qed.

Lemma forEachMFrom_Forall {A B : Type} (P : B -> Prop)
      (f : nat -> A -> result (list B)) :
  (forall i x ys, f i x = Ok ys -> Forall P ys) ->
  forall l i rs, forEachMFrom f i l = Ok rs -> Forall P rs.
Proof.
  intros Hf l. induction l as [|x l IH]; intros i rs; cbn [forEachMFrom].
  - intros [= <-]. constructor.
  - destruct (f i x) as [here|] eqn:E; [|discriminate]. cbn [bind].
    destruct (forEachMFrom f (S i) l) as [later|] eqn:E'; [|discriminate].
    cbn [bind]. intros [= <-]. apply Forall_app. split.
    + exact (Hf _ _ _ E).
    + exact (IH _ _ E').
Qed.

Lemma forEachM_Forall {A B : Type} (P : B -> Prop)
      (f : nat -> A -> result (list B)) (l : list A) rs :
  (forall i x ys, f i x = Ok ys -> Forall P ys) ->
  forEachM f l = Ok rs -> Forall P rs.
Proof.
  intros Hf H. exact (forEachMFrom_Forall P f Hf l 0 rs H).
Qed.

(** What every record of a call of the segmenter carries. *)
Lemma parseAny_context (std : string) (dCode sCode : value)
      (dom content : string) :
  Forall (fun x =>
            standard x = std /\ directiveCode x = dCode
            /\ sectionCode x = sCode /\ domain x = VStr dom
            /\ facilityClass x = VStr "" /\ tags x = []
            /\ exists id,
                 clauseId x = VStr id
                 /\ reference x
                    = VStr (joinedReference std (to_str dCode)
                                            (to_str sCode) id))
         (parseContentIntoClausesAny std dCode sCode dom content).
Proof.
  apply parseContentIntoClausesAny_Forall.
  - eapply Forall_impl; [|apply parse_context].
    intros r (H1 & H2 & H3 & H4 & H5 & H6 & H7).
    cbn [withCodes standard directiveCode sectionCode domain facilityClass
         tags clauseId reference].
    rewrite H1, H4, H5, H6, H7. repeat split.
    exists (clauseId r). now split.
  - unfold wholeRecordAny. cbv zeta.
    cbn [standard directiveCode sectionCode domain facilityClass tags
         clauseId reference].
    repeat split. exists "1". now split.
Qed.

Lemma sectionContentRecords_Forall (P : StoredRecord -> Prop)
      (std : string) (dCode sCode : value) (dom : string)
      (section : string -> value) rs :
  (forall content,
      Forall P (parseContentIntoClausesAny std dCode sCode dom content)) ->
  sectionContentRecords std dCode sCode dom section = Ok rs ->
  Forall P rs.
Proof.
  intros HP. unfold sectionContentRecords.
  destruct (truthy (section "content")); [|intros [= <-]; constructor].
  destruct (section "content"); try discriminate.
  destruct (0 <? _); intros [= <-]; [apply HP | constructor].
Qed.

(** A property of every explicit-clause record and of every segmenter
    record holds for every record of the directive-rooted walk. *)
Lemma fromHcis_Forall (P : StoredRecord -> Prop)
      (raw : value) (std dom : string) rs :
  (forall dCode sCode section clause index,
      P (hcisClauseRecord std dom dCode sCode section clause index)) ->
  (forall dCode sCode content,
      Forall P (parseContentIntoClausesAny std dCode sCode dom content)) ->
  fromHcis raw std dom = Ok rs -> Forall P rs.
Proof.
  intros Hclause Hseg. unfold fromHcis.
  destruct (props raw) as [r|]; [|discriminate]. cbn [bind].
  destruct (r "directives"); try (intros [= <-]; constructor).
  destruct (forEachM _ _) as [results|] eqn:E; [|discriminate].
  cbn [bind]. intros [= <-]. apply Forall_filter_sub.
  revert E. apply forEachM_Forall. clear results.
  intros _ directiveV ys.
  destruct (props directiveV) as [directive|]; [|discriminate]. cbn [bind].
  destruct (directive "structured_sections");
    try (intros [= <-]; constructor).
  apply forEachM_Forall.
  intros _ sectionV zs.
  destruct (props sectionV) as [section|]; [|discriminate]. cbn [bind].
  match goal with
  | |- bind ?e _ = _ -> _ => destruct e as [fromClauses|] eqn:Ec
  end; [|discriminate]. cbn [bind].
  destruct (sectionContentRecords _ _ _ _ _) as [parsed|] eqn:Ep;
    [|discriminate].
  cbn [bind]. intros [= <-]. apply Forall_app. split.
  - destruct (section "clauses") as [| | | | |[|c cs]|];
      try (injection Ec as <-; constructor).
    revert Ec. apply forEachM_Forall.
    intros index clauseV ws.
    destruct (props clauseV) as [clause|]; [|discriminate]. cbn [bind].
    intros [= <-]. constructor; [apply Hclause | constructor].
  - revert Ep. apply sectionContentRecords_Forall. apply Hseg.
Qed.

(** The same for the section-rooted walk, whose directive code is
    empty. *)
Lemma fromDocumentStructure_Forall (P : StoredRecord -> Prop)
      (raw : value) (std dom : string) rs :
  (forall sCode section clause index,
      P (documentClauseRecord std dom sCode section clause index)) ->
  (forall sCode content,
      Forall P (parseContentIntoClausesAny std (VStr "") sCode dom
                                           content)) ->
  fromDocumentStructure raw std dom = Ok rs -> Forall P rs.
Proof.
  intros Hclause Hseg. unfold fromDocumentStructure.
  destruct (props raw) as [r|]; [|discriminate]. cbn [bind].
  destruct (negb _); [intros [= <-]; constructor|].
  destruct (prop _ _); try (intros [= <-]; constructor).
  destruct (forEachM _ _) as [results|] eqn:E; [|discriminate].
  cbn [bind]. intros [= <-]. apply Forall_filter_sub.
  revert E. apply forEachM_Forall. clear results.
  intros _ sectionV zs.
  destruct (props sectionV) as [section|]; [|discriminate]. cbn [bind].
  match goal with
  | |- bind ?e _ = _ -> _ => destruct e as [fromClauses|] eqn:Ec
  end; [|discriminate]. cbn [bind].
  destruct (sectionContentRecords _ _ _ _ _) as [parsed|] eqn:Ep;
    [|discriminate].
  cbn [bind]. intros [= <-]. apply Forall_app. split.
  - destruct (section "clauses") as [| | | | |[|c cs]|];
      try (injection Ec as <-; constructor).
    revert Ec. apply forEachM_Forall.
    intros index clauseV ws.
    destruct (props clauseV) as [clause|]; [|discriminate]. cbn [bind].
    intros [= <-]. constructor; [apply Hclause | constructor].
  - revert Ep. apply sectionContentRecords_Forall. apply Hseg.
Qed.

(** A property of every record the three assembly sites build holds for
    every record of [normalizeRecord]. *)
Lemma normalizeRecord_Forall (P : StoredRecord -> Prop)
      (std dom : string) :
  (forall dCode sCode section clause index,
      P (hcisClauseRecord std dom dCode sCode section clause index)) ->
  (forall sCode section clause index,
      P (documentClauseRecord std dom sCode section clause index)) ->
  (forall dCode sCode content,
      Forall P (parseContentIntoClausesAny std dCode sCode dom content)) ->
  (forall record, P (genericRecord record std dom)) ->
  forall record rs,
    normalizeRecord record std dom = Ok rs -> Forall P rs.
Proof.
  intros Hh Hd Hs Hg record.
  assert (Hobj : forall v rs, isArray v = false ->
                              normalizeRecord v std dom = Ok rs ->
                              Forall P rs).
  { intros v rs Hv. rewrite (normalizeRecord_object v std dom Hv).
    destruct (props v) as [r|]; [|discriminate]. cbn [bind].
    destruct (_ && _); [now apply fromHcis_Forall|].
    destruct (_ && _).
    - apply fromDocumentStructure_Forall; [apply Hd | intros; apply Hs].
    - intro H. injection H as <-.
      apply (Forall_filter_sub P hasTitleOrText [genericRecord r std dom]).
      constructor; [apply Hg | constructor]. }
  induction record as [| | | | |items IH|fields] using value_array_ind;
    intros rs; try (now apply Hobj).
  rewrite normalizeRecord_array. revert rs.
  induction IH as [|item rest Hitem _ IHrest]; intros rs; cbn [normalizeAll].
  - intros [= <-]. constructor.
  - destruct (normalizeRecord item std dom) as [here|] eqn:E; [|discriminate].
    destruct (normalizeAll rest std dom) as [later|]; [|discriminate].
    cbn [bind]. intros [= <-]. apply Forall_app. split.
    + exact (Hitem _ eq_refl).
    + exact (IHrest _ eq_refl).
Qed.

Lemma In_loadData (files : list (string * string * value))
      (r : StoredRecord) :
  In r (loadData files) ->
  exists std dom jsonData rs,
    In (std, dom, jsonData) files
    /\ normalizeRecord jsonData std dom = Ok rs /\ In r rs.
Proof.
  induction files as [|[[std dom] jsonData] rest IH]; cbn [loadData];
    [intros []|].
  intro H. apply in_app_or in H. destruct H as [H|H].
  - destruct (normalizeRecord jsonData std dom) as [rs|] eqn:E; [|destruct H].
    exists std, dom, jsonData, rs. split; [now left | now split].
  - destruct (IH H) as (s & d & j & rs & Hin & Hn & Hr).
    exists s, d, j, rs. split; [now right | now split].
Qed.

(** X6.  Every record of the corpus comes from one of the files and
    carries the standard derived from that file's name, on every assembly
    path. *)
Theorem corpus_record_standard :
  forall (files : list (string * string * value)) (r : StoredRecord),
    In r (loadData files) ->
    exists std dom jsonData rs,
      In (std, dom, jsonData) files
      /\ normalizeRecord jsonData std dom = Ok rs
      /\ In r rs
      /\ standard r = std.
Proof.
  intros files r H.
  destruct (In_loadData files r H) as (std & dom & j & rs & Hin & Hn & Hr).
  exists std, dom, j, rs. repeat split; try assumption.
  assert (HF : Forall (fun x => standard x = std) rs).
  { apply (normalizeRecord_Forall _ std dom) with (record := j);
      try assumption; try reflexivity.
    intros dCode sCode content.
    eapply Forall_impl; [|apply parseAny_context].
    intros a Ha. apply Ha. }
  exact (proj1 (Forall_forall _ rs) HF r Hr).
Qed.

Lemma corpus_record_standard_witness :
  exists r,
    In r (loadData [("STD", "security", Samples.sectionDoc)])
    /\ standard r = "STD".
Proof.
  assert (H : In (mkRecord "STD" (VStr "") (VStr "4.3") (VStr "4.3.1")
                           (VStr "Fences must be tall enough for all")
                           (VStr "Fences must be tall enough for all.")
                           (VStr "") (VStr "security") []
                           (VStr "STD  4.3 4.3.1"))
                 (loadData [("STD", "security", Samples.sectionDoc)]))
    by (vm_compute; now left).
  eexists. split; [exact H|].
  destruct (corpus_record_standard _ _ H)
    as (std & dom & j & rs & [Hin|[]] & _ & _ & Hs).
  injection Hin as <- _ _. exact Hs.
Defined.

(** X7.  The records of both structural walks, explicit clauses and
    segmented text alike, carry the domain derived from the file; those of
    the section-rooted walk have an empty directive code. *)
Theorem walks_domain_and_directive :
  forall raw std dom,
    (forall rs, fromHcis raw std dom = Ok rs ->
                Forall (fun r => domain r = VStr dom) rs)
    /\ (forall rs, fromDocumentStructure raw std dom = Ok rs ->
                   Forall (fun r => domain r = VStr dom
                                    /\ directiveCode r = VStr "")
                          rs).
Proof.
  intros raw std dom. split; intros rs H.
  - revert H. apply fromHcis_Forall; [reflexivity|].
    intros dCode sCode content.
    eapply Forall_impl; [|apply parseAny_context]. intros a Ha. apply Ha.
  - revert H. apply fromDocumentStructure_Forall; [now split|].
    intros sCode content.
    eapply Forall_impl; [|apply parseAny_context]. intros a Ha.
    split; apply Ha.
Qed.

Lemma walks_domain_and_directive_witness :
  exists rs,
    fromDocumentStructure Samples.sectionDoc "STD" "security" = Ok rs
    /\ List.length rs = 2
    /\ Forall (fun r => domain r = VStr "security"
                        /\ directiveCode r = VStr "") rs.
Proof.
  eexists. split; [vm_compute; reflexivity|]. split; [reflexivity|].
  apply (proj2 (walks_domain_and_directive Samples.sectionDoc
                                           "STD" "security")).
  vm_compute. reflexivity.
Defined.

Lemma normalizeAll_null (items : list value) (std dom : string) :
  In VNull items -> normalizeAll items std dom = Throw.
Proof.
  induction items as [|x rest IH]; [intros []|].
  intros [->|H]; cbn [normalizeAll].
  - reflexivity.
  - rewrite (IH H). now destruct (normalizeRecord x std dom).
Qed.

(** X8.  A [null] anywhere among the elements of a top-level array makes
    the normalisation of the whole document raise, whatever the other
    elements are; the file then gives no record to the corpus. *)
Theorem null_element_voids_document :
  forall items std dom,
    In VNull items ->
    normalizeRecord (VArr items) std dom = Throw
    /\ loadData [(std, dom, VArr items)] = [].
Proof.
  intros items std dom H.
  assert (E : normalizeRecord (VArr items) std dom = Throw)
    by (rewrite normalizeRecord_array; now apply normalizeAll_null).
  split; [exact E|]. cbn [loadData]. now rewrite E.
Qed.

Lemma null_element_voids_document_witness :
  normalizeRecord (VArr [Samples.childDoc; VNull; Samples.parentDoc])
                  "STD" "general" = Throw.
Proof.
  apply (null_element_voids_document
           [Samples.childDoc; VNull; Samples.parentDoc] "STD" "general").
  right. left. reflexivity.
Defined.

Lemma loadData_app (before after : list (string * string * value)) :
  loadData (before ++ after) = loadData before ++ loadData after.
Proof.
  induction before as [|[[std dom] jsonData] rest IH]; cbn [loadData app].
  - reflexivity.
  - now rewrite IH, app_assoc.
Qed.

(** X9.  A document whose normalisation raises is skipped without any
    effect on the others: the corpus is the one built from the remaining
    files, in the same order. *)
Theorem failing_file_is_isolated :
  forall before after std dom bad,
    normalizeRecord bad std dom = Throw ->
    loadData (before ++ (std, dom, bad) :: after)
    = loadData before ++ loadData after.
Proof.
  intros before after std dom bad H.
  rewrite loadData_app. cbn [loadData]. now rewrite H.
Qed.

Lemma failing_file_is_isolated_witness :
  loadData [("STD", "general", Samples.parentDoc);
            ("BAD", "general", VArr [VNull]);
            ("STD", "general", Samples.childDoc)]
  = [Samples.parentRecord; Samples.childRecord].
Proof.
  refine (eq_trans (failing_file_is_isolated
                      [("STD", "general", Samples.parentDoc)]
                      [("STD", "general", Samples.childDoc)]
                      "BAD" "general" (VArr [VNull]) eq_refl) _).
  vm_compute. reflexivity.
Defined.

Lemma normalizeAll_app (l1 l2 : list value) (std dom : string) :
  normalizeAll (l1 ++ l2) std dom
  = (a <- normalizeAll l1 std dom ;;
     b <- normalizeAll l2 std dom ;;
     Ok (a ++ b)).
Proof.
  induction l1 as [|x l1 IH]; cbn [app normalizeAll bind].
  - now destruct (normalizeAll l2 std dom).
  - rewrite IH. destruct (normalizeRecord x std dom) as [here|];
      [|reflexivity].
    cbn [bind]. destruct (normalizeAll l1 std dom) as [a|]; [|reflexivity].
    cbn [bind]. destruct (normalizeAll l2 std dom) as [b|]; [|reflexivity].
    cbn [bind]. now rewrite app_assoc.
Qed.

(** X10.  Arrays only group documents: a one-element array gives what its
    element gives, an array nested in an array is flattened, and the
    records of a concatenation are the concatenation of the records. *)
Theorem array_is_transparent :
  forall (x : value) (l1 l2 : list value) (std dom : string),
    normalizeRecord (VArr [x]) std dom = normalizeRecord x std dom
    /\ normalizeRecord (VArr (VArr l1 :: l2)) std dom
       = normalizeRecord (VArr (l1 ++ l2)) std dom
    /\ normalizeRecord (VArr (l1 ++ l2)) std dom
       = (a <- normalizeRecord (VArr l1) std dom ;;
          b <- normalizeRecord (VArr l2) std dom ;;
          Ok (a ++ b)).
Proof.
  intros x l1 l2 std dom. rewrite !normalizeRecord_array.
  split; [|split].
  - cbn [normalizeAll]. destruct (normalizeRecord x std dom) as [here|];
      [|reflexivity].
    cbn [bind]. now rewrite app_nil_r.
  - cbn [normalizeAll]. now rewrite normalizeRecord_array, normalizeAll_app.
  - apply normalizeAll_app.
Qed.

Lemma prop_truthy_object (v : value) (k : string) :
  truthy (prop v k) = true -> truthy v = true.
Proof. destruct v; cbn; try discriminate; reflexivity. Qed.

(** X11.  A document with something truthy that is not an array under
    [document.structured_sections] (and no array under [directives]) is
    sent to the section-rooted walk, which returns nothing: it gives no
    record at all, even when it has a title or a text of its own. *)
Theorem malformed_sections_give_nothing :
  forall record std dom,
    isArray (prop record "directives") = false ->
    truthy (prop (prop record "document") "structured_sections") = true ->
    isArray (prop (prop record "document") "structured_sections") = false ->
    normalizeRecord record std dom = Ok [].
Proof.
  intros record std dom Hd Ht Ha.
  pose proof (prop_truthy_object _ _ Ht) as Hdoc.
  pose proof (prop_truthy_object _ _ Hdoc) as Hrec.
  destruct record; try discriminate Hrec; try discriminate Hdoc.
  rewrite normalizeRecord_object by reflexivity.
  cbn [props bind]. rewrite Hd, andb_false_r, Hdoc, Ht. cbn [andb].
  unfold fromDocumentStructure. cbn [props bind]. rewrite Hdoc. cbn [negb].
  destruct (prop (prop (VObj fields) "document") "structured_sections");
    try reflexivity; discriminate Ha.
Qed.

Lemma malformed_sections_give_nothing_witness :
  normalizeRecord
    (VObj [("title", VStr "Kept elsewhere");
           ("document", VObj [("structured_sections", VStr "none")])])
    "STD" "general" = Ok [].
Proof.
  apply malformed_sections_give_nothing; reflexivity.
Defined.

(* ================================================================== *)
(** ** Further properties of the reference lookup *)

(** X12.  The three answers of the lookup are exact.  It rejects exactly
    a missing or empty reference.  A record it returns is a record of the
    corpus whose normalised reference ends with the normalised query.  It
    answers not-found exactly when the query is valid and no normalised
    stored reference ends with the normalised query. *)
Theorem getReference_sound_complete :
  forall (corpus : list NormalizedRecord) (ref : option string),
    (getReference corpus ref = BadRequest <-> supplied ref = false)
    /\ (forall r,
           getReference corpus ref = Json r ->
           In r corpus
           /\ Str.endsWith (normalizeRefString (reference r))
                           (normalizeRefString (the ref)) = true)
    /\ (getReference corpus ref = NotFound <->
        supplied ref = true
        /\ forall x, In x corpus ->
                     Str.endsWith (normalizeRefString (reference x))
                                  (normalizeRefString (the ref)) = false).
Proof.
  intros corpus ref.
  destruct (supplied ref) eqn:Hs.
  - assert (Hq : exists q, ref = Some q /\ Str.nonEmpty q = true).
    { destruct ref as [q|]; [|discriminate Hs]. now exists q. }
    destruct Hq as (q & -> & Hq). cbn [the].
    rewrite (getReference_valid _ _ Hq).
    destruct (find _ corpus) as [r1|] eqn:E1.
    + apply find_some in E1. destruct E1 as [Hin Heq].
      apply String.eqb_eq in Heq.
      split; [split; discriminate|]. split.
      * intros r [= <-]. split; [exact Hin|].
        rewrite Heq. apply endsWith_refl.
      * split; [discriminate|]. intros [_ H]. specialize (H r1 Hin).
        rewrite Heq, endsWith_refl in H. discriminate H.
    + destruct (find (fun r => Str.endsWith _ _) corpus) as [r2|] eqn:E2.
      * apply find_some in E2. destruct E2 as [Hin Hends].
        split; [split; discriminate|]. split.
        -- intros r [= <-]. now split.
        -- split; [discriminate|]. intros [_ H].
           rewrite (H r2 Hin) in Hends. discriminate Hends.
      * split; [split; discriminate|]. split; [discriminate|].
        split; [|reflexivity]. intros _. split; [reflexivity|].
        intros x Hx. exact (find_none _ _ E2 x Hx).
  - assert (E : getReference corpus ref = BadRequest).
    { unfold getReference. now rewrite Hs. }
    rewrite E. split; [split; reflexivity|].
    split; [discriminate|]. split; [discriminate | intros [H _]; discriminate H].
Qed.

Lemma getReference_sound_complete_witness :
  supplied (Some "SEC-99") = true
  /\ getReference [Samples.gateRecord; Samples.fenceRecord] (Some "SEC-99")
     = NotFound.
Proof.
  split; [reflexivity|].
  apply (getReference_sound_complete
           [Samples.gateRecord; Samples.fenceRecord] (Some "SEC-99")).
  split; [reflexivity|].
  intros x [<-|[<-|[]]]; vm_compute; reflexivity.
Defined.

(** X13.  Looking up a reference exactly as a record of the corpus stores
    it always succeeds: the answer is the first record with the same
    normalised reference, which is that record itself when no earlier
    record shares its normalised reference. *)
Theorem stored_reference_resolves :
  forall (corpus : list NormalizedRecord) (r : NormalizedRecord),
    In r corpus ->
    Str.nonEmpty (reference r) = true ->
    exists r',
      getReference corpus (Some (reference r)) = Json r'
      /\ In r' corpus
      /\ normalizeRefString (reference r') = normalizeRefString (reference r)
      /\ (forall before after,
             corpus = before ++ r :: after ->
             (forall x, In x before ->
                        normalizeRefString (reference x)
                        <> normalizeRefString (reference r)) ->
             r' = r).
Proof.
  intros corpus r Hin Hne.
  rewrite (getReference_valid _ _ Hne).
  destruct (find _ corpus) as [r'|] eqn:E.
  - exists r'. split; [reflexivity|].
    pose proof (find_some _ _ E) as [Hin' Heq].
    apply String.eqb_eq in Heq. split; [exact Hin'|]. split; [exact Heq|].
    intros before after -> Hb.
    rewrite find_first in E.
    + now injection E as <-.
    + intros y Hy. apply String.eqb_neq. now apply Hb.
    + apply String.eqb_refl.
  - pose proof (find_none _ _ E r Hin) as H. cbv beta in H.
    rewrite String.eqb_refl in H. discriminate H.
Qed.

Lemma stored_reference_resolves_witness :
  exists r',
    getReference [Samples.gateRecord; Samples.fenceRecord]
                 (Some (reference Samples.fenceRecord)) = Json r'
    /\ In r' [Samples.gateRecord; Samples.fenceRecord]
    /\ normalizeRefString (reference r')
       = normalizeRefString (reference Samples.fenceRecord).
Proof.
  destruct (stored_reference_resolves
              [Samples.gateRecord; Samples.fenceRecord] Samples.fenceRecord
              (or_intror (or_introl eq_refl)) eq_refl)
    as (r' & H1 & H2 & H3 & _).
  exists r'. now repeat split.
Defined.

(* ================================================================== *)
(** ** Further properties of the search *)

Lemma filter_length_bound {A : Type} (p : A -> bool) (l : list A) :
  List.length (filter p l) <= List.length l.
Proof.
  induction l as [|x l IH]; cbn [filter List.length]; [lia|].
  destruct (p x); cbn [List.length]; lia.
Qed.

Lemma slice0_prefix {A : Type} (l : list A) (limit : Z) :
  exists rest, l = slice0 l limit ++ rest.
Proof.
  unfold slice0. destruct (limit <? 0)%Z.
  - exists (skipn (List.length l - Z.to_nat (- limit)) l).
    symmetry. apply firstn_skipn.
  - exists (skipn (Z.to_nat limit) l). symmetry. apply firstn_skipn.
Qed.

Lemma slice0_everything {A : Type} (l : list A) (limit : Z) :
  (Z.of_nat (List.length l) <= limit)%Z -> slice0 l limit = l.
Proof.
  intro H. unfold slice0.
  rewrite (proj2 (Z.ltb_ge limit 0)) by lia.
  apply firstn_all2. lia.
Qed.

Lemma startsWith_refl (s : string) : Str.startsWith s s = true.
Proof.
  induction s as [|c s IH]; cbn [Str.startsWith]; [reflexivity|].
  now rewrite Ascii.eqb_refl, IH.
Qed.

Lemma includes_refl (s : string) : Str.includes s s = true.
Proof.
  destruct s; cbn [Str.includes]; now rewrite startsWith_refl.
Qed.

Lemma fieldContains_refl (s : string) : fieldContains s s = true.
Proof. apply includes_refl. Qed.

(** X14.  The results of a search are a prefix of the corpus narrowed by
    the supplied filters, for every limit, negative ones included: each
    result is a record of the corpus that passes every supplied filter,
    and the results keep the order of the corpus. *)
Theorem search_results_sound :
  forall (corpus : list NormalizedRecord) (body : SearchRequirementsBody)
         (results : list NormalizedRecord),
    searchRequirements corpus body = Json results ->
    (exists rest, filter (passesFilters body) corpus = results ++ rest)
    /\ (forall r, In r results ->
                  In r corpus /\ passesFilters body r = true).
Proof.
  intros corpus body results H.
  destruct (noFilter body) eqn:E.
  - unfold searchRequirements in H. fold (noFilter body) in H.
    rewrite E in H. discriminate H.
  - rewrite (searchRequirements_narrowing _ _ E) in H. injection H as <-.
    destruct (slice0_prefix (filter (passesFilters body) corpus)
                            (limitOf body)) as [rest Hrest].
    split; [now exists rest|].
    intros r Hr. apply filter_In. rewrite Hrest.
    apply in_or_app. now left.
Qed.

Lemma search_results_sound_witness :
  searchRequirements
    [Samples.fenceRecord; Samples.gateRecord; Samples.blankRefRecord]
    (Samples.searchBody (Some "hcis") (Some (-1)%Z))
  = Json [Samples.fenceRecord]
  /\ In Samples.fenceRecord
        [Samples.fenceRecord; Samples.gateRecord; Samples.blankRefRecord]
  /\ passesFilters (Samples.searchBody (Some "hcis") (Some (-1)%Z))
                   Samples.fenceRecord = true.
Proof.
  split; [vm_compute; reflexivity|].
  apply (proj2 (search_results_sound
                  [Samples.fenceRecord; Samples.gateRecord;
                   Samples.blankRefRecord]
                  (Samples.searchBody (Some "hcis") (Some (-1)%Z))
                  [Samples.fenceRecord] eq_refl)
           Samples.fenceRecord).
  left. reflexivity.
Defined.

(** X15.  With a limit that is at least the size of the corpus, the search
    returns every record that passes the supplied filters, and nothing
    else. *)
Theorem search_complete_within_limit :
  forall (corpus : list NormalizedRecord) (body : SearchRequirementsBody),
    noFilter body = false ->
    (Z.of_nat (List.length corpus) <= limitOf body)%Z ->
    searchRequirements corpus body
    = Json (filter (passesFilters body) corpus)
    /\ (forall r, In r corpus -> passesFilters body r = true ->
                  exists results,
                    searchRequirements corpus body = Json results
                    /\ In r results).
Proof.
  intros corpus body Hf Hl.
  assert (E : searchRequirements corpus body
              = Json (filter (passesFilters body) corpus)).
  { rewrite (searchRequirements_narrowing _ _ Hf).
    rewrite slice0_everything; [reflexivity|].
    pose proof (filter_length_bound (passesFilters body) corpus). lia. }
  split; [exact E|].
  intros r Hin Hp. exists (filter (passesFilters body) corpus).
  split; [exact E|]. apply filter_In. now split.
Qed.

Lemma search_complete_within_limit_witness :
  searchRequirements
    [Samples.fenceRecord; Samples.gateRecord; Samples.blankRefRecord]
    (Samples.searchBody (Some "hcis") None)
  = Json [Samples.fenceRecord; Samples.gateRecord].
Proof.
  refine (eq_trans
            (proj1 (search_complete_within_limit
                      [Samples.fenceRecord; Samples.gateRecord;
                       Samples.blankRefRecord]
                      (Samples.searchBody (Some "hcis") None)
                      eq_refl _)) _).
  - vm_compute. discriminate.
  - vm_compute. reflexivity.
Defined.

(** X16.  Every record with a non-empty standard is found by a search for
    its own standard, when the limit is at least the size of the
    corpus. *)
Theorem search_finds_own_standard :
  forall (corpus : list NormalizedRecord) (r : NormalizedRecord)
         (limit : Z),
    In r corpus ->
    Str.nonEmpty (standard r) = true ->
    (Z.of_nat (List.length corpus) <= limit)%Z ->
    exists results,
      searchRequirements corpus
        {| req_standard := Some (standard r); req_directiveCode := None;
           req_facilityClass := None; req_domain := None;
           req_query := None; req_limit := Some limit |}
      = Json results
      /\ In r results.
Proof.
  intros corpus r limit Hin Hne Hl.
  set (body := {| req_standard := Some (standard r);
                  req_directiveCode := None; req_facilityClass := None;
                  req_domain := None; req_query := None;
                  req_limit := Some limit |}).
  assert (Hf : noFilter body = false).
  { unfold noFilter, body. cbn. now rewrite Hne. }
  exists (filter (passesFilters body) corpus). split.
  - rewrite (searchRequirements_narrowing _ _ Hf).
    rewrite slice0_everything; [reflexivity|].
    pose proof (filter_length_bound (passesFilters body) corpus).
    change (limitOf body) with limit. lia.
  - apply filter_In. split; [exact Hin|].
    unfold passesFilters, body. cbn. rewrite Hne.
    now rewrite fieldContains_refl.
Qed.

Lemma search_finds_own_standard_witness :
  exists results,
    searchRequirements
      [Samples.fenceRecord; Samples.blankRefRecord]
      {| req_standard := Some (standard Samples.blankRefRecord);
         req_directiveCode := None; req_facilityClass := None;
         req_domain := None; req_query := None; req_limit := Some 2%Z |}
    = Json results
    /\ In Samples.blankRefRecord results.
Proof.
  apply (search_finds_own_standard
           [Samples.fenceRecord; Samples.blankRefRecord]
           Samples.blankRefRecord 2%Z).
  - right. left. reflexivity.
  - reflexivity.
  - vm_compute. discriminate.
Defined.

(* ================================================================== *)
(** ** Further properties of the checklist *)

Lemma softFilter_cases (hasValue test : NormalizedRecord -> bool)
      (results : list NormalizedRecord) :
  (softFilter hasValue test results = results
   /\ filter test (filter hasValue results) = [])
  \/ (softFilter hasValue test results
      = filter test (filter hasValue results)
      /\ filter test (filter hasValue results) <> []).
Proof.
  unfold softFilter.
  destruct (filter test (filter hasValue results));
    [left | right]; split; try reflexivity; discriminate.
Qed.

Lemma softFilter_In (hasValue test : NormalizedRecord -> bool)
      (results : list NormalizedRecord) (r : NormalizedRecord) :
  In r (softFilter hasValue test results) -> In r results.
Proof.
  destruct (softFilter_cases hasValue test results) as [[-> _]|[-> _]];
    [auto|].
  intro H. apply filter_In in H. destruct H as [H _].
  now apply filter_In in H.
Qed.

Lemma softFilter_nonempty (hasValue test : NormalizedRecord -> bool)
      (results : list NormalizedRecord) :
  results <> [] -> softFilter hasValue test results <> [].
Proof.
  intro H.
  destruct (softFilter_cases hasValue test results) as [[-> _]|[-> Hne]];
    assumption.
Qed.

Lemma softFilter_length (hasValue test : NormalizedRecord -> bool)
      (results : list NormalizedRecord) :
  List.length (softFilter hasValue test results) <= List.length results.
Proof.
  destruct (softFilter_cases hasValue test results) as [[-> _]|[-> _]];
    [lia|].
  pose proof (filter_length_bound test (filter hasValue results)).
  pose proof (filter_length_bound hasValue results). lia.
Qed.

Lemma softFilter_enforced (hasValue test : NormalizedRecord -> bool)
      (results : list NormalizedRecord) (x : NormalizedRecord) :
  In x results -> hasValue x = true -> test x = true ->
  forall r, In r (softFilter hasValue test results) -> test r = true.
Proof.
  intros Hin Hv Ht r.
  destruct (softFilter_cases hasValue test results) as [[_ He]|[-> _]].
  - assert (Hx : In x (filter test (filter hasValue results))).
    { apply filter_In. split; [|exact Ht]. apply filter_In. now split. }
    rewrite He in Hx. destruct Hx.
  - intro H. now apply filter_In in H.
Qed.

(** The records behind the checklist of a valid request. *)
Lemma checklistSpec_records (corpus : list NormalizedRecord)
      (standards : list string) (fc : option string)
      (domains : option (list string)) :
  exists records,
    checklistSpec corpus standards fc domains
    = List.map toChecklistItem records
    /\ (forall r, In r records -> In r (standardsSelected corpus standards))
    /\ (standardsSelected corpus standards <> [] -> records <> [])
    /\ List.length records
       <= List.length (standardsSelected corpus standards)
    /\ (supplied fc = true ->
        (exists x, In x (standardsSelected corpus standards)
                   /\ Str.nonEmpty (facilityClass x) = true
                   /\ fieldContains (facilityClass x) (the fc) = true) ->
        forall r, In r records ->
                  fieldContains (facilityClass r) (the fc) = true).
Proof.
  unfold checklistSpec. cbv zeta.
  set (selected := standardsSelected corpus standards).
  set (afterFc := if supplied fc then _ else selected).
  assert (Hin1 : forall r, In r afterFc -> In r selected).
  { subst afterFc. destruct (supplied fc); [|auto].
    intro r. apply softFilter_In. }
  assert (Hne1 : selected <> [] -> afterFc <> []).
  { subst afterFc. destruct (supplied fc); [|auto].
    apply softFilter_nonempty. }
  assert (Hlen1 : List.length afterFc <= List.length selected).
  { subst afterFc. destruct (supplied fc); [|lia].
    apply softFilter_length. }
  assert (Henf1 : supplied fc = true ->
                  (exists x, In x selected
                             /\ Str.nonEmpty (facilityClass x) = true
                             /\ fieldContains (facilityClass x) (the fc)
                                = true) ->
                  forall r, In r afterFc ->
                            fieldContains (facilityClass r) (the fc) = true).
  { intros Hs (x & Hx & Hv & Ht). subst afterFc. rewrite Hs.
    now apply (softFilter_enforced _ _ _ x). }
  clearbody afterFc.
  destruct domains as [[|d ds]|].
  - exists afterFc. repeat split; auto.
  - exists (softFilter (fun r => Str.nonEmpty (domain r))
                       (fun r => existsb
                                   (fun x => fieldContains (domain r) x)
                                   (d :: ds)) afterFc).
    split; [reflexivity|]. split; [|split; [|split]].
    + intros r Hr. apply Hin1. revert Hr. apply softFilter_In.
    + intro H. now apply softFilter_nonempty, Hne1.
    + etransitivity; [apply softFilter_length | exact Hlen1].
    + intros Hs Hx r Hr. apply (Henf1 Hs Hx).
      revert Hr. apply softFilter_In.
  - exists afterFc. repeat split; auto.
Qed.

Lemma includes_in_empty (sub : string) :
  Str.includes "" sub = true -> sub = "".
Proof.
  destruct sub; [reflexivity|]. cbn. discriminate.
Qed.

Lemma map_empty (f : ascii -> ascii) (s : string) :
  Str.map f s = "" -> s = "".
Proof. destruct s; [reflexivity | discriminate]. Qed.

Lemma fieldContains_nonempty (field filter : string) :
  Str.nonEmpty filter = true ->
  fieldContains field filter = true ->
  Str.nonEmpty field = true.
Proof.
  intros Hf H. destruct field; [|reflexivity].
  unfold fieldContains in H. cbn [Str.toLowerCase Str.map] in H.
  apply includes_in_empty, map_empty in H. subst filter. discriminate Hf.
Qed.

(** X17.  The checklist is rejected exactly when [standards] is missing or
    empty.  Every item of an accepted request is the reshaped form of a
    record of the corpus whose standard contains one of the requested
    standards, with its [requirement] the record's text and [mandatory]
    set: the standards filter is enforced whatever the soft filters do. *)
Theorem checklist_items_sound :
  forall (corpus : list NormalizedRecord) (body : GenerateChecklistBody),
    (generateChecklist corpus body = BadRequest <->
     req_standards body = None \/ req_standards body = Some [])
    /\ (forall standards items,
           req_standards body = Some standards ->
           generateChecklist corpus body = Json items ->
           forall item, In item items ->
             mandatory item = true
             /\ exists r,
                 In r corpus
                 /\ item = toChecklistItem r
                 /\ requirement item = text r
                 /\ existsb (fun s => fieldContains (standard r) s)
                            standards = true).
Proof.
  intros corpus body. split.
  - destruct (req_standards body) as [[|s ss]|] eqn:E.
    + unfold generateChecklist. rewrite E. split; [now right | reflexivity].
    + rewrite (generateChecklist_spec _ _ _ _ E).
      split; [discriminate | intros [H|H]; discriminate H].
    + unfold generateChecklist. rewrite E. split; [now left | reflexivity].
  - intros standards items Hs Hj item Hitem.
    destruct standards as [|s ss].
    + unfold generateChecklist in Hj. rewrite Hs in Hj. discriminate Hj.
    + rewrite (generateChecklist_spec _ _ _ _ Hs) in Hj.
      destruct (checklistSpec_records corpus (s :: ss)
                  (req_checklistFacilityClass body) (req_domains body))
        as (records & E & Hin & _).
      rewrite E in Hj. injection Hj as <-.
      apply in_map_iff in Hitem. destruct Hitem as (r & <- & Hr).
      split; [reflexivity|]. exists r.
      apply Hin in Hr. apply filter_In in Hr. destruct Hr as [Hc Hm].
      repeat split; assumption.
Qed.

Lemma checklist_items_sound_witness :
  generateChecklist Samples.classedCorpus Samples.checklistBody
  = Json [toChecklistItem (Samples.classedRecord "Class 1");
          toChecklistItem (Samples.classedRecord "")]
  /\ mandatory (toChecklistItem (Samples.classedRecord "")) = true.
Proof.
  split; [vm_compute; reflexivity|].
  apply (proj2 (checklist_items_sound Samples.classedCorpus
                                      Samples.checklistBody)
           ["hcis"]
           [toChecklistItem (Samples.classedRecord "Class 1");
            toChecklistItem (Samples.classedRecord "")]
           eq_refl eq_refl (toChecklistItem (Samples.classedRecord ""))).
  right. left. reflexivity.
Defined.

(** X18.  The soft filters never empty a checklist: when the standards
    filter selects at least one record, the answer has at least one item,
    and never more items than the standards filter selected. *)
Theorem checklist_never_emptied :
  forall (corpus : list NormalizedRecord) (body : GenerateChecklistBody)
         (standards : list string),
    req_standards body = Some standards ->
    standardsSelected corpus standards <> [] ->
    exists items,
      generateChecklist corpus body = Json items
      /\ items <> []
      /\ List.length items
         <= List.length (standardsSelected corpus standards).
Proof.
  intros corpus body [|s ss] Hs Hsel.
  - exfalso. apply Hsel. unfold standardsSelected. cbn [existsb].
    apply filter_nowhere. reflexivity.
  - rewrite (generateChecklist_spec _ _ _ _ Hs).
    destruct (checklistSpec_records corpus (s :: ss)
                (req_checklistFacilityClass body) (req_domains body))
      as (records & E & _ & Hne & Hlen & _).
    rewrite E. eexists. split; [reflexivity|]. split.
    + intro H. apply map_eq_nil in H. now apply Hne.
    + now rewrite length_map.
Qed.

Lemma checklist_never_emptied_witness :
  exists items,
    generateChecklist Samples.classedCorpus Samples.checklistBody
    = Json items
    /\ items <> [].
Proof.
  destruct (checklist_never_emptied Samples.classedCorpus
              Samples.checklistBody ["hcis"] eq_refl)
    as (items & H1 & H2 & _).
  - vm_compute. discriminate.
  - now exists items.
Defined.

(** X19.  The facility-class filter is enforced as soon as it can be: when
    at least one record selected by the standards filter has a facility
    class containing the requested one, every item of the checklist has a
    facility class containing it. *)
Theorem checklist_facility_enforced :
  forall (corpus : list NormalizedRecord) (body : GenerateChecklistBody)
         (standards : list string) (x : NormalizedRecord),
    req_standards body = Some standards ->
    supplied (req_checklistFacilityClass body) = true ->
    In x (standardsSelected corpus standards) ->
    fieldContains (facilityClass x) (the (req_checklistFacilityClass body))
    = true ->
    exists items,
      generateChecklist corpus body = Json items
      /\ forall item, In item items ->
           fieldContains (item_facilityClass item)
                         (the (req_checklistFacilityClass body)) = true.
Proof.
  intros corpus body [|s ss] x Hs Hfc Hx Hm.
  - unfold standardsSelected in Hx. cbn [existsb] in Hx.
    rewrite filter_nowhere in Hx by reflexivity. destruct Hx.
  - rewrite (generateChecklist_spec _ _ _ _ Hs).
    destruct (checklistSpec_records corpus (s :: ss)
                (req_checklistFacilityClass body) (req_domains body))
      as (records & E & _ & _ & _ & Henf).
    rewrite E. eexists. split; [reflexivity|].
    intros item Hitem. apply in_map_iff in Hitem.
    destruct Hitem as (r & <- & Hr). cbn [item_facilityClass toChecklistItem].
    apply (Henf Hfc); [|exact Hr].
    exists x. split; [exact Hx|]. split; [|exact Hm].
    apply (fieldContains_nonempty _ (the (req_checklistFacilityClass body)));
      [|exact Hm].
    destruct (req_checklistFacilityClass body); [exact Hfc | discriminate Hfc].
Qed.

Lemma checklist_facility_enforced_witness :
  exists items,
    generateChecklist Samples.classedCorpus
      {| req_standards := Some ["hcis"];
         req_checklistFacilityClass := Some "class 1";
         req_domains := None |}
    = Json items
    /\ forall item, In item items ->
         fieldContains (item_facilityClass item) "class 1" = true.
Proof.
  apply (checklist_facility_enforced Samples.classedCorpus
           {| req_standards := Some ["hcis"];
              req_checklistFacilityClass := Some "class 1";
              req_domains := None |}
           ["hcis"] (Samples.classedRecord "Class 1") eq_refl eq_refl).
  - vm_compute. left. reflexivity.
  - vm_compute. reflexivity.
Defined.

(* ================================================================== *)
(** ** Case, underscores and normal forms *)

Lemma lowerChar_idem (c : ascii) :
  Str.lowerChar (Str.lowerChar c) = Str.lowerChar c.
Proof.
  destruct c as [[] [] [] [] [] [] [] []]; vm_compute; reflexivity.
Qed.

Lemma toLowerCase_idem (s : string) :
  Str.toLowerCase (Str.toLowerCase s) = Str.toLowerCase s.
Proof.
  unfold Str.toLowerCase.
  induction s as [|c s IH]; cbn [Str.map]; [reflexivity|].
  now rewrite lowerChar_idem, IH.
Qed.

Lemma map_nonEmpty (f : ascii -> ascii) (s : string) :
  Str.nonEmpty (Str.map f s) = Str.nonEmpty s.
Proof. now destruct s. Qed.

Lemma underscore_lower_char (c : ascii) :
  let u := fun a : ascii => if Ascii.eqb a "_" then " "%char else a in
  u (Str.lowerChar (u c)) = u (Str.lowerChar c).
Proof.
  destruct c as [[] [] [] [] [] [] [] []]; vm_compute; reflexivity.
Qed.

Lemma underscoresToSpaces_lower (s : string) :
  Str.underscoresToSpaces (Str.toLowerCase (Str.underscoresToSpaces s))
  = Str.underscoresToSpaces (Str.toLowerCase s).
Proof.
  unfold Str.underscoresToSpaces, Str.toLowerCase.
  induction s as [|c s IH]; cbn [Str.map]; [reflexivity|].
  rewrite IH. f_equal. apply underscore_lower_char.
Qed.

Lemma normalizeSpec_lower (s : string) :
  normalizeSpec (Str.toLowerCase s) = normalizeSpec s.
Proof. unfold normalizeSpec. now rewrite toLowerCase_idem. Qed.

Lemma normalizeSpec_underscores (s : string) :
  normalizeSpec (Str.underscoresToSpaces s) = normalizeSpec s.
Proof. unfold normalizeSpec. now rewrite underscoresToSpaces_lower. Qed.

Lemma getReference_same_normal_form (corpus : list NormalizedRecord)
      (q q' : string) :
  Str.nonEmpty q = Str.nonEmpty q' ->
  normalizeRefString q = normalizeRefString q' ->
  getReference corpus (Some q) = getReference corpus (Some q').
Proof.
  intros Hne Hn. unfold getReference. cbn [supplied the].
  now rewrite Hne, Hn.
Qed.

(** X20.  The lookup does not depend on the spelling of the query: putting
    the query in lower case, or writing spaces for its underscores, gives
    the same answer. *)
Theorem getReference_query_spelling :
  forall (corpus : list NormalizedRecord) (q : string),
    getReference corpus (Some (Str.toLowerCase q))
    = getReference corpus (Some q)
    /\ getReference corpus (Some (Str.underscoresToSpaces q))
       = getReference corpus (Some q).
Proof.
  intros corpus q. split; apply getReference_same_normal_form.
  - apply map_nonEmpty.
  - rewrite !normalizeRefString_spec. apply normalizeSpec_lower.
  - apply map_nonEmpty.
  - rewrite !normalizeRefString_spec. apply normalizeSpec_underscores.
Qed.

Lemma fieldContains_lower (field filter : string) :
  fieldContains field (Str.toLowerCase filter) = fieldContains field filter
  /\ fieldContains (Str.toLowerCase field) filter
     = fieldContains field filter.
Proof.
  unfold fieldContains. now rewrite !toLowerCase_idem.
Qed.

Lemma fuzzyMatch_lower (text query : string) :
  fuzzyMatch text (Str.toLowerCase query) = fuzzyMatch text query
  /\ fuzzyMatch (Str.toLowerCase text) query = fuzzyMatch text query.
Proof.
  unfold fuzzyMatch. unfold Str.toLowerCase at 1.
  rewrite map_nonEmpty, !toLowerCase_idem. now split.
Qed.

Lemma supplied_lower (o : option string) :
  supplied (option_map Str.toLowerCase o) = supplied o.
Proof. destruct o as [s|]; [apply map_nonEmpty | reflexivity]. Qed.

Lemma the_lower (o : option string) :
  the (option_map Str.toLowerCase o) = Str.toLowerCase (the o).
Proof. now destruct o. Qed.

(** X21.  The fuzzy match ignores case on both sides: putting the text or
    the query in lower case does not change its answer. *)
Theorem fuzzyMatch_ignores_case :
  forall text query : string,
    fuzzyMatch text (Str.toLowerCase query) = fuzzyMatch text query
    /\ fuzzyMatch (Str.toLowerCase text) query = fuzzyMatch text query.
Proof.
  intros. apply fuzzyMatch_lower.
Qed.

(** X22.  The search ignores the case of every filter value: the request
    with all its filter values in lower case gets the same answer. *)
Theorem search_ignores_case :
  forall (corpus : list NormalizedRecord) (body : SearchRequirementsBody),
    searchRequirements corpus (lowerCaseFilters body)
    = searchRequirements corpus body.
Proof.
  intros corpus body.
  assert (Hno : noFilter (lowerCaseFilters body) = noFilter body).
  { unfold noFilter, lowerCaseFilters. cbn. now rewrite !supplied_lower. }
  destruct (noFilter body) eqn:E.
  - unfold searchRequirements. fold (noFilter (lowerCaseFilters body)).
    fold (noFilter body). now rewrite Hno, E.
  - rewrite !searchRequirements_narrowing by congruence.
    f_equal. f_equal. apply filter_ext. intro r.
    unfold passesFilters, lowerCaseFilters. cbn.
    rewrite !supplied_lower, !the_lower.
    rewrite !(proj1 (fieldContains_lower _ _)).
    now rewrite !(proj1 (fuzzyMatch_lower _ _)).
Qed.

(* Normal forms. *)

Lemma tidy_step (b : bool) (c : ascii) (s : string) :
  Str.isWhiteSpace c = false ->
  tidy b (String c s) = tidy false (String c s).
Proof. intro H. cbn [tidy]. now rewrite H. Qed.

Lemma lowered_char (c : ascii) :
  let d := if Ascii.eqb (Str.lowerChar c) "_" then " "%char
           else Str.lowerChar c in
  Str.isWhiteSpace d = false ->
  Ascii.eqb (Str.lowerChar d) d && negb (Ascii.eqb d "_") = true.
Proof.
  destruct c as [[] [] [] [] [] [] [] []]; vm_compute; intro H;
    first [reflexivity | discriminate H].
Qed.

Lemma collapse_tidy (s : string) :
  forall b,
    tidy b (Str.collapseFrom b
              (Str.underscoresToSpaces (Str.toLowerCase s))) = true.
Proof.
  unfold Str.underscoresToSpaces, Str.toLowerCase.
  induction s as [|c s IH]; intro b; cbn [Str.map Str.collapseFrom];
    [reflexivity|].
  destruct (Str.isWhiteSpace _) eqn:W.
  - destruct b; [apply IH|].
    cbn [tidy]. replace (Str.isWhiteSpace " ") with true by reflexivity.
    cbn. apply IH.
  - cbn [tidy]. rewrite W. rewrite (lowered_char c W). apply IH.
Qed.

Lemma tidy_trimStart (s : string) :
  forall b, tidy b s = true -> tidy false (Str.trimStart s) = true.
Proof.
  induction s as [|c s IH]; intros b H; cbn [Str.trimStart];
    [reflexivity|].
  destruct (Str.isWhiteSpace c) eqn:W.
  - cbn [tidy] in H. rewrite W in H.
    apply andb_true_iff in H. destruct H as [_ H]. exact (IH _ H).
  - now rewrite <- (tidy_step b c s W).
Qed.

Lemma tidy_trimEnd (s : string) :
  forall b, tidy b s = true -> tidy b (Str.trimEnd s) = true.
Proof.
  induction s as [|c s IH]; intros b H; cbn [Str.trimEnd]; [reflexivity|].
  cbn [tidy] in H.
  destruct (Str.isWhiteSpace c) eqn:W.
  - apply andb_true_iff in H. destruct H as [H1 H2].
    specialize (IH _ H2).
    destruct (Str.trimEnd s) as [|d r] eqn:E; [reflexivity|].
    cbn [tidy]. rewrite W, H1. exact IH.
  - apply andb_true_iff in H. destruct H as [H1 H2].
    specialize (IH _ H2).
    destruct (Str.trimEnd s) as [|d r] eqn:E.
    + cbn [tidy]. rewrite W, H1. reflexivity.
    + cbn [tidy]. rewrite W, H1. exact IH.
Qed.

Lemma normalizeSpec_tidy (s : string) : tidy false (normalizeSpec s) = true.
Proof.
  unfold normalizeSpec, Str.trim, Str.collapseSpaces.
  apply tidy_trimEnd. apply (tidy_trimStart _ false). apply collapse_tidy.
Qed.

Lemma tidy_lower (s : string) :
  forall b, tidy b s = true -> Str.toLowerCase s = s.
Proof.
  unfold Str.toLowerCase.
  induction s as [|c s IH]; intros b H; cbn [Str.map]; [reflexivity|].
  cbn [tidy] in H. destruct (Str.isWhiteSpace c).
  - apply andb_true_iff in H. destruct H as [H1 H2].
    apply andb_true_iff in H1. destruct H1 as [_ H1].
    apply Ascii.eqb_eq in H1. subst c. now rewrite (IH _ H2).
  - apply andb_true_iff in H. destruct H as [H1 H2].
    apply andb_true_iff in H1. destruct H1 as [H1 _].
    apply Ascii.eqb_eq in H1. now rewrite H1, (IH _ H2).
Qed.

Lemma tidy_underscores (s : string) :
  forall b, tidy b s = true -> Str.underscoresToSpaces s = s.
Proof.
  unfold Str.underscoresToSpaces.
  induction s as [|c s IH]; intros b H; cbn [Str.map]; [reflexivity|].
  cbn [tidy] in H. destruct (Str.isWhiteSpace c).
  - apply andb_true_iff in H. destruct H as [H1 H2].
    apply andb_true_iff in H1. destruct H1 as [_ H1].
    apply Ascii.eqb_eq in H1. subst c. now rewrite (IH _ H2).
  - apply andb_true_iff in H. destruct H as [H1 H2].
    apply andb_true_iff in H1. destruct H1 as [_ H1].
    apply negb_true_iff in H1. now rewrite H1, (IH _ H2).
Qed.

Lemma tidy_collapse (s : string) :
  forall b, tidy b s = true -> Str.collapseFrom b s = s.
Proof.
  induction s as [|c s IH]; intros b H; cbn [Str.collapseFrom];
    [reflexivity|].
  cbn [tidy] in H. destruct (Str.isWhiteSpace c).
  - apply andb_true_iff in H. destruct H as [H1 H2].
    apply andb_true_iff in H1. destruct H1 as [Hb H1].
    apply negb_true_iff in Hb. subst b.
    apply Ascii.eqb_eq in H1. subst c. now rewrite (IH _ H2).
  - apply andb_true_iff in H. destruct H as [_ H2]. now rewrite (IH _ H2).
Qed.

Lemma trimStart_fixed (s : string) :
  leadingSpace s = false -> Str.trimStart s = s.
Proof.
  destruct s as [|c s]; [reflexivity|]. cbn. now intros ->.
Qed.

Lemma trimEnd_fixed (s : string) :
  trailingSpace s = false -> Str.trimEnd s = s.
Proof.
  induction s as [|c s IH]; [reflexivity|]. cbn [trailingSpace Str.trimEnd].
  destruct s as [|d s'].
  - cbn. now intros ->.
  - intro H. rewrite (IH H). reflexivity.
Qed.

Lemma trim_fixed (s : string) : cleanEdges s -> Str.trim s = s.
Proof.
  intros [H1 H2]. unfold Str.trim.
  now rewrite (trimStart_fixed _ H1), (trimEnd_fixed _ H2).
Qed.

Lemma startsWith_two_spaces (s : string) :
  forall b, tidy b s = true -> Str.startsWith s "  " = false.
Proof.
  intros b H. destruct s as [|c [|d s]]; try reflexivity.
  - cbn. now rewrite andb_false_r.
  - cbn [Str.startsWith].
    destruct (Ascii.eqb " " c) eqn:E1; [|reflexivity].
    destruct (Ascii.eqb " " d) eqn:E2; [|reflexivity].
    apply Ascii.eqb_eq in E1, E2. subst c d. cbn in H.
    rewrite andb_false_r in H. discriminate H.
Qed.

Lemma tidy_tail (b : bool) (c : ascii) (s : string) :
  tidy b (String c s) = true -> exists b', tidy b' s = true.
Proof.
  cbn [tidy]. destruct (Str.isWhiteSpace c); intro H;
    apply andb_true_iff in H; destruct H as [_ H]; eauto.
Qed.

Lemma tidy_no_double_space (s : string) :
  forall b, tidy b s = true -> doubleSpace s = false.
Proof.
  unfold doubleSpace.
  induction s as [|c s IH]; intros b H; [reflexivity|].
  cbn [Str.includes]. rewrite (startsWith_two_spaces _ _ H).
  destruct (tidy_tail _ _ _ H) as [b' H']. exact (IH _ H').
Qed.

Lemma tidy_no_underscore (s : string) :
  forall b, tidy b s = true -> Str.includes s "_" = false.
Proof.
  induction s as [|c s IH]; intros b H; [reflexivity|].
  cbn [Str.includes Str.startsWith].
  destruct (tidy_tail _ _ _ H) as [b' H']. rewrite (IH _ H').
  cbn [tidy] in H. destruct (Ascii.eqb "_" c) eqn:E; [|reflexivity].
  apply Ascii.eqb_eq in E. subst c. cbn in H. discriminate H.
Qed.

(** X23.  The normal form of a reference is a fixed point: normalising
    twice is normalising once.  The normal form is trimmed, has no
    underscore, no two consecutive spaces, and is in lower case. *)
Theorem normalizeRefString_idempotent :
  forall s : string,
    normalizeRefString (normalizeRefString s) = normalizeRefString s
    /\ cleanEdges (normalizeRefString s)
    /\ doubleSpace (normalizeRefString s) = false
    /\ Str.includes (normalizeRefString s) "_" = false
    /\ Str.toLowerCase (normalizeRefString s) = normalizeRefString s.
Proof.
  intro s. rewrite !normalizeRefString_spec.
  pose proof (normalizeSpec_tidy s) as Ht.
  assert (Hc : cleanEdges (normalizeSpec s)) by apply trim_clean.
  split; [|split; [exact Hc|split; [|split]]].
  - unfold normalizeSpec at 1.
    rewrite (tidy_lower _ _ Ht), (tidy_underscores _ _ Ht).
    unfold Str.collapseSpaces. rewrite (tidy_collapse _ _ Ht).
    now apply trim_fixed.
  - exact (tidy_no_double_space _ _ Ht).
  - exact (tidy_no_underscore _ _ Ht).
  - exact (tidy_lower _ _ Ht).
Qed.

(* ================================================================== *)
(** ** What the patterns of the segmenter capture *)

Lemma str_app_assoc (a b c : string) :
  ((a ++ b) ++ c)%string = (a ++ (b ++ c))%string.
Proof.
  induction a as [|x a IH]; cbn; [reflexivity | now rewrite IH].
Qed.

Lemma str_app_length (a b : string) :
  String.length (a ++ b) = String.length a + String.length b.
Proof.
  induction a as [|x a IH]; cbn; [reflexivity | now rewrite IH].
Qed.

Lemma str_app_empty (a b : string) :
  (a ++ b)%string = "" -> a = "" /\ b = "".
Proof.
  destruct a; cbn; [now split | discriminate].
Qed.

Lemma substring_prefix (p rest : string) :
  substring 0 (String.length (p ++ rest) - String.length rest) (p ++ rest)
  = p.
Proof.
  rewrite str_app_length, Nat.add_sub.
  induction p as [|x p IH]; cbn.
  - now destruct rest.
  - now rewrite IH.
Qed.

Section MatcherSoundness.
Import Regex.

Lemma starLoop_sound (r : regex) step (greedy : bool) :
  sound_step r step ->
  forall n k s c x,
    starLoop step greedy k n s c = Some x ->
    exists p rest c',
      s = (p ++ rest)%string /\ consumes (Star greedy r) p rest c c'
      /\ k rest c' = Some x.
Proof.
  intros Hstep n k.
  assert (Hstop : forall s c x, k s c = Some x ->
                    exists p rest c',
                      s = (p ++ rest)%string
                      /\ consumes (Star greedy r) p rest c c'
                      /\ k rest c' = Some x).
  { intros s c x H. exists "", s, c.
    split; [reflexivity|]. split; [constructor | exact H]. }
  induction n as [|n IH]; intros s c x; cbn [starLoop].
  - destruct greedy.
    + apply Hstop.
    + destruct (k s c) as [y|] eqn:E; [|discriminate].
      intros [= <-]. now apply Hstop.
  - assert (Hmore :
              step s c
                   (fun s' c' =>
                      if String.length s' <? String.length s
                      then starLoop step greedy k n s' c' else None)
              = Some x ->
              exists p rest c',
                s = (p ++ rest)%string
                /\ consumes (Star greedy r) p rest c c'
                /\ k rest c' = Some x).
    { intro H. apply Hstep in H.
      destruct H as (p1 & rest1 & c1 & -> & Hc1 & Hk).
      destruct (String.length rest1 <? _); [|discriminate Hk].
      apply IH in Hk. destruct Hk as (p2 & rest & c2 & -> & Hc2 & Hk).
      exists (p1 ++ p2)%string, rest, c2.
      split; [now rewrite str_app_assoc|].
      split; [|exact Hk]. econstructor; eassumption. }
    destruct greedy.
    + destruct (step s c _) as [y|] eqn:E.
      * intros [= <-]. now apply Hmore.
      * apply Hstop.
    + destruct (k s c) as [y|] eqn:E.
      * intros [= <-]. now apply Hstop.
      * apply Hmore.
Qed.

Lemma run_sound (r : regex) : sound_step r (run r).
Proof.
  induction r as [|p|r1 IH1 r2 IH2|r1 IH1 r2 IH2|greedy r1 IH1|i r1 IH1
                  |r1 IH1|]; intros s c k x; cbn [run].
  - intro H. exists "", s, c. split; [reflexivity|].
    split; [constructor | exact H].
  - destruct s as [|a s']; [discriminate|].
    destruct (p a) eqn:E; [|discriminate].
    intro H. exists (String a ""), s', c. split; [reflexivity|].
    split; [now constructor | exact H].
  - intro H. apply IH1 in H. destruct H as (p1 & rest1 & c1 & -> & H1 & H).
    apply IH2 in H. destruct H as (p2 & rest & c2 & -> & H2 & H).
    exists (p1 ++ p2)%string, rest, c2.
    split; [now rewrite str_app_assoc|]. split; [|exact H].
    econstructor; eassumption.
  - destruct (run r1 s c k) as [y|] eqn:E.
    + intros [= <-]. apply IH1 in E.
      destruct E as (p & rest & c' & -> & H1 & H).
      exists p, rest, c'. split; [reflexivity|].
      split; [now apply ConsAltLeft | exact H].
    + intro H. apply IH2 in H.
      destruct H as (p & rest & c' & -> & H2 & H).
      exists p, rest, c'. split; [reflexivity|].
      split; [now apply ConsAltRight | exact H].
  - apply starLoop_sound. exact IH1.
  - intro H. apply IH1 in H. destruct H as (p & rest & c' & -> & H1 & H).
    rewrite substring_prefix in H.
    exists p, rest, ((i, p) :: c'). split; [reflexivity|].
    split; [now constructor | exact H].
  - destruct (run r1 s c _) as [[s1 c1]|] eqn:E; [|discriminate].
    intro H. apply IH1 in E.
    destruct E as (p & rest & c' & -> & H1 & [= _ ->]).
    exists "", (p ++ rest)%string, c1. split; [reflexivity|].
    split; [now constructor | exact H].
  - destruct s; [|discriminate]. intro H.
    exists "", "", c. split; [reflexivity|].
    split; [constructor | exact H].
Qed.

Lemma matchAt_sound (r : regex) (s s' : string) (c : captures) :
  matchAt r s = Some (s', c) ->
  exists p, s = (p ++ s')%string /\ consumes r p s' [] c.
Proof.
  unfold matchAt. intro H. apply run_sound in H.
  destruct H as (p & rest & c' & -> & Hc & [= -> ->]).
  now exists p.
Qed.

Lemma matchAllFrom_In (r : regex) (s : string) :
  forall skip c,
    In c (matchAllFrom r s skip) ->
    exists t s', matchAt r t = Some (s', c).
Proof.
  induction s as [|a t IH]; intros skip c.
  - destruct skip; cbn [matchAllFrom]; [|intros []].
    destruct (matchAt r "") as [[s' c']|] eqn:E; [|intros []].
    intros [<-|[]]. now exists "", s'.
  - destruct skip; cbn [matchAllFrom]; [|apply IH].
    destruct (matchAt r (String a t)) as [[s' c']|] eqn:E; [|apply IH].
    intros [<-|H]; [now exists (String a t), s' | exact (IH _ _ H)].
Qed.

Lemma allChars_app (p : ascii -> bool) (a b : string) :
  allChars p (a ++ b) = allChars p a && allChars p b.
Proof.
  induction a as [|x a IH]; cbn; [reflexivity|].
  now rewrite IH, andb_assoc.
Qed.

Lemma allChars_weaken (p q : ascii -> bool) (s : string) :
  (forall a, p a = true -> q a = true) ->
  allChars p s = true -> allChars q s = true.
Proof.
  intro H. induction s as [|x s IH]; cbn; [reflexivity|].
  intro Hs. apply andb_true_iff in Hs. destruct Hs as [H1 H2].
  now rewrite (H _ H1), IH.
Qed.

Lemma consumes_alphabet r p rest c c' :
  consumes r p rest c c' -> allChars (alphabet r) p = true.
Proof.
  induction 1; cbn [alphabet allChars]; try reflexivity.
  - now rewrite H.
  - rewrite allChars_app. apply andb_true_iff. split.
    + revert IHconsumes1. apply allChars_weaken.
      intros a ->. reflexivity.
    + revert IHconsumes2. apply allChars_weaken.
      intros a ->. apply orb_true_r.
  - revert IHconsumes. apply allChars_weaken. intros a ->. reflexivity.
  - revert IHconsumes. apply allChars_weaken. intros a ->.
    apply orb_true_r.
  - rewrite allChars_app. apply andb_true_iff. split.
    + revert IHconsumes1. apply allChars_weaken. intros a Ha. exact Ha.
    + exact IHconsumes2.
  - revert IHconsumes. apply allChars_weaken. intros a Ha. exact Ha.
Qed.

Lemma consumes_nonempty r p rest c c' :
  consumes r p rest c c' -> nullable r = false -> p <> "".
Proof.
  induction 1; cbn [nullable]; try discriminate.
  - intros Hn E. apply str_app_empty in E. destruct E as [E1 E2].
    apply andb_false_iff in Hn.
    destruct Hn as [Hn|Hn];
      [exact (IHconsumes1 Hn E1) | exact (IHconsumes2 Hn E2)].
  - intro Hn. apply orb_false_iff in Hn. now apply IHconsumes.
  - intro Hn. apply orb_false_iff in Hn. now apply IHconsumes.
  - exact IHconsumes.
Qed.

Lemma consumes_groupFree r p rest c c' :
  consumes r p rest c c' -> groupFree r = true -> c' = c.
Proof.
  induction 1; cbn [groupFree]; try reflexivity; try discriminate.
  - intro H1. apply andb_true_iff in H1. destruct H1 as [Ha Hb].
    rewrite (IHconsumes2 Hb). now apply IHconsumes1.
  - intro H1. apply andb_true_iff in H1. now apply IHconsumes.
  - intro H1. apply andb_true_iff in H1. now apply IHconsumes.
  - intro H1. rewrite (IHconsumes2 H1). now apply IHconsumes1.
  - exact IHconsumes.
Qed.

Lemma consumes_cat r1 r2 p rest c c2 :
  consumes (Cat r1 r2) p rest c c2 ->
  exists p1 p2 c1,
    consumes r1 p1 (p2 ++ rest)%string c c1 /\ consumes r2 p2 rest c1 c2.
Proof.
  intro H. inversion H; subst. eauto.
Qed.

Lemma consumes_group i r p rest c c' :
  consumes (Group i r) p rest c c' ->
  exists c0, c' = (i, p) :: c0 /\ consumes r p rest c c0.
Proof.
  intro H. inversion H; subst. eauto.
Qed.

(** A prefix without groups, the first group, a middle without groups, the
    second group and a lookahead without groups: the captures are the two
    groups' texts. *)
Lemma consumes_two_groups (L M T A : regex) p rest c0 c :
  groupFree L = true -> groupFree M = true ->
  groupFree T = true -> groupFree A = true ->
  consumes (Cat (Group 1 L) (Cat M (Cat (Group 2 T) A))) p rest c0 c ->
  exists label txt,
    c = (2, txt) :: (1, label) :: c0
    /\ allChars (alphabet L) label = true
    /\ (nullable L = false -> label <> "")
    /\ allChars (alphabet T) txt = true
    /\ (nullable T = false -> txt <> "").
Proof.
  intros HL HM HT HA H.
  apply consumes_cat in H. destruct H as (label & p2 & c1 & H1 & H).
  apply consumes_group in H1. destruct H1 as (cL & -> & H1).
  pose proof (consumes_groupFree _ _ _ _ _ H1 HL) as ->.
  apply consumes_cat in H. destruct H as (pm & p3 & c2 & H2 & H).
  pose proof (consumes_groupFree _ _ _ _ _ H2 HM) as ->.
  apply consumes_cat in H. destruct H as (txt & p4 & c3 & H3 & H).
  apply consumes_group in H3. destruct H3 as (cT & -> & H3).
  pose proof (consumes_groupFree _ _ _ _ _ H3 HT) as ->.
  pose proof (consumes_groupFree _ _ _ _ _ H HA) as ->.
  exists label, txt. split; [reflexivity|].
  split; [exact (consumes_alphabet _ _ _ _ _ H1)|].
  split; [exact (consumes_nonempty _ _ _ _ _ H1)|].
  split; [exact (consumes_alphabet _ _ _ _ _ H3)|].
  exact (consumes_nonempty _ _ _ _ _ H3).
Qed.

End MatcherSoundness.

Section PatternCaptures.
Import Regex.

Lemma consumes_skip (M r : regex) p rest c c' :
  groupFree M = true ->
  consumes (Cat M r) p rest c c' ->
  exists p', consumes r p' rest c c'.
Proof.
  intros HM H. apply consumes_cat in H.
  destruct H as (p1 & p2 & c1 & H1 & H2).
  pose proof (consumes_groupFree _ _ _ _ _ H1 HM) as ->. now exists p2.
Qed.

Lemma consumes_group_then (i : nat) (L r : regex) p rest c0 c :
  groupFree L = true ->
  consumes (Cat (Group i L) r) p rest c0 c ->
  exists label p',
    allChars (alphabet L) label = true
    /\ (nullable L = false -> label <> "")
    /\ consumes r p' rest ((i, label) :: c0) c.
Proof.
  intros HL H. apply consumes_cat in H.
  destruct H as (label & p2 & c1 & H1 & H2).
  apply consumes_group in H1. destruct H1 as (cL & -> & H1).
  pose proof (consumes_groupFree _ _ _ _ _ H1 HL) as ->.
  exists label, p2. split; [exact (consumes_alphabet _ _ _ _ _ H1)|].
  split; [exact (consumes_nonempty _ _ _ _ _ H1) | exact H2].
Qed.

Lemma label_alphabet (a : ascii) :
  alphabet (seq [dottedPair; star dotNumber; opt dotNumber]) a = true ->
  digitOrDot a = true.
Proof.
  destruct a as [[] [] [] [] [] [] [] []]; vm_compute; intro H;
    first [reflexivity | discriminate H].
Qed.

Lemma pair_alphabet (a : ascii) :
  alphabet dottedPair a = true -> digitOrDot a = true.
Proof.
  destruct a as [[] [] [] [] [] [] [] []]; vm_compute; intro H;
    first [reflexivity | discriminate H].
Qed.

Lemma digits_alphabet (a : ascii) :
  alphabet (plus digit) a = true -> digitOrDot a = true.
Proof.
  destruct a as [[] [] [] [] [] [] [] []]; vm_compute; intro H;
    first [reflexivity | discriminate H].
Qed.

Lemma text_alphabet (a : ascii) :
  alphabet (plusLazy nonDigit) a = true -> notDigit a = true.
Proof.
  destruct a as [[] [] [] [] [] [] [] []]; vm_compute; intro H;
    first [reflexivity | discriminate H].
Qed.

Lemma article_text_alphabet (a : ascii) :
  alphabet
    (plusLazy (Chr (fun a => negb (Ascii.eqb (Str.upperChar a)
                                             (Str.upperChar "A"))))) a
  = true ->
  notLetterA a = true.
Proof.
  destruct a as [[] [] [] [] [] [] [] []]; vm_compute; intro H;
    first [reflexivity | discriminate H].
Qed.

Lemma numbered_captured (t s' : string) (m : captures) :
  matchAt numberedPattern t = Some (s', m) -> captured digitOrDot notDigit m.
Proof.
  intro H. apply matchAt_sound in H. destruct H as (p & _ & H).
  apply (consumes_two_groups
           (seq [dottedPair; star dotNumber; opt dotNumber])
           (plus space) (plusLazy nonDigit)
           (Look (Alt (seq [dottedPair; star dotNumber])
                      (Alt articleMarker Eoi)))) in H;
    try reflexivity.
  destruct H as (label & txt & -> & Hl & Hln & Ht & Htn).
  unfold captured. cbn [capture Nat.eqb].
  split; [now apply Hln|].
  split; [exact (allChars_weaken _ _ _ label_alphabet Hl)|].
  split; [now apply Htn|].
  exact (allChars_weaken _ _ _ text_alphabet Ht).
Qed.

Lemma section_captured (t s' : string) (m : captures) :
  matchAt sectionPattern t = Some (s', m) -> captured digitOrDot notDigit m.
Proof.
  intro H. apply matchAt_sound in H. destruct H as (p & _ & H).
  apply (consumes_two_groups
           dottedPair (plus space) (plusLazy nonDigit)
           (Look (Alt dottedPair (Alt articleMarker Eoi)))) in H;
    try reflexivity.
  destruct H as (label & txt & -> & Hl & Hln & Ht & Htn).
  unfold captured. cbn [capture Nat.eqb].
  split; [now apply Hln|].
  split; [exact (allChars_weaken _ _ _ pair_alphabet Hl)|].
  split; [now apply Htn|].
  exact (allChars_weaken _ _ _ text_alphabet Ht).
Qed.

Lemma article_captured (t s' : string) (m : captures) :
  matchAt articlePattern t = Some (s', m) ->
  captured digitOrDot notLetterA m.
Proof.
  intro H. apply matchAt_sound in H. destruct H as (p & _ & H).
  unfold articlePattern in H. cbn [seq] in H.
  apply consumes_skip in H; [|reflexivity]. destruct H as (p1 & H).
  apply consumes_skip in H; [|reflexivity]. destruct H as (p2 & H).
  apply consumes_skip in H; [|reflexivity]. destruct H as (p3 & H).
  apply consumes_group_then in H; [|reflexivity].
  destruct H as (label & p4 & Hl & Hln & H).
  apply consumes_skip in H; [|reflexivity]. destruct H as (p5 & H).
  apply consumes_skip in H; [|reflexivity]. destruct H as (p6 & H).
  apply consumes_skip in H; [|reflexivity]. destruct H as (p7 & H).
  apply consumes_group_then in H; [|reflexivity].
  destruct H as (txt & p8 & Ht & Htn & H).
  apply consumes_groupFree in H; [|reflexivity]. subst m.
  unfold captured. cbn [capture Nat.eqb].
  split; [now apply Hln|].
  split; [exact (allChars_weaken _ _ _ digits_alphabet Hl)|].
  split; [now apply Htn|].
  exact (allChars_weaken _ _ _ article_text_alphabet Ht).
Qed.

Lemma matchAll_captured (r : regex) (labelOk textOk : ascii -> bool)
      (content : string) :
  (forall t s' m, matchAt r t = Some (s', m) -> captured labelOk textOk m) ->
  forall m, In m (matchAll r content) -> captured labelOk textOk m.
Proof.
  intros Hr m Hm. apply matchAllFrom_In in Hm.
  destruct Hm as (t & s' & Hm). exact (Hr _ _ _ Hm).
Qed.

End PatternCaptures.

(** Which pattern gives the selected matches. *)
Lemma selectMatches_cases (content : string) :
  (2 <= List.length (Regex.matchAll numberedPattern content)
   /\ selectMatches content = Regex.matchAll numberedPattern content)
  \/ (List.length (Regex.matchAll numberedPattern content) < 2
      /\ 2 <= List.length (Regex.matchAll articlePattern content)
      /\ selectMatches content = Regex.matchAll articlePattern content)
  \/ (List.length (Regex.matchAll numberedPattern content) < 2
      /\ List.length (Regex.matchAll articlePattern content) < 2
      /\ (selectMatches content = Regex.matchAll sectionPattern content
          \/ selectMatches content = [])).
Proof.
  unfold selectMatches. cbv zeta.
  destruct (1 <? List.length (Regex.matchAll numberedPattern content))
    eqn:En.
  - left. apply Nat.ltb_lt in En. split; [lia | reflexivity].
  - apply Nat.ltb_ge in En. right.
    destruct (1 <? List.length (Regex.matchAll articlePattern content))
      eqn:Ea.
    + left. apply Nat.ltb_lt in Ea. repeat split; lia || reflexivity.
    + apply Nat.ltb_ge in Ea. right.
      split; [lia|]. split; [lia|].
      destruct (1 <? _); [now left | now right].
Qed.

Lemma Forall_forEachFrom_In {A B : Type} (P : B -> Prop)
      (f : nat -> A -> list B) (l : list A) :
  (forall i x, In x l -> Forall P (f i x)) ->
  forall i, Forall P (forEachFrom f i l).
Proof.
  induction l as [|x l IH]; intros Hf i; cbn [forEachFrom].
  - constructor.
  - apply Forall_app. split.
    + apply Hf. now left.
    + apply IH. intros j y Hy. apply Hf. now right.
Qed.

Lemma allChars_trimStart (p : ascii -> bool) (s : string) :
  allChars p s = true -> allChars p (Str.trimStart s) = true.
Proof.
  induction s as [|c s IH]; cbn [Str.trimStart]; [auto|].
  destruct (Str.isWhiteSpace c); [|auto].
  cbn [allChars]. intro H. apply andb_true_iff in H. now apply IH.
Qed.

Lemma allChars_trimEnd (p : ascii -> bool) (s : string) :
  allChars p s = true -> allChars p (Str.trimEnd s) = true.
Proof.
  induction s as [|c s IH]; cbn [Str.trimEnd]; [auto|].
  cbn [allChars]. intro H. apply andb_true_iff in H. destruct H as [H1 H2].
  specialize (IH H2).
  destruct (Str.trimEnd s) as [|d r].
  - destruct (Str.isWhiteSpace c); [reflexivity|].
    cbn [allChars]. now rewrite H1.
  - cbn [allChars] in *. now rewrite H1, IH.
Qed.

Lemma allChars_trim (p : ascii -> bool) (s : string) :
  allChars p s = true -> allChars p (Str.trim s) = true.
Proof.
  intro H. unfold Str.trim. now apply allChars_trimEnd, allChars_trimStart.
Qed.

Lemma allChars_collapse (p : ascii -> bool) (s : string) :
  p " "%char = true ->
  allChars p s = true ->
  forall b, allChars p (Str.collapseFrom b s) = true.
Proof.
  intro Hsp. induction s as [|c s IH]; cbn [Str.collapseFrom]; [auto|].
  cbn [allChars]. intro H. apply andb_true_iff in H. destruct H as [H1 H2].
  intro b. destruct (Str.isWhiteSpace c).
  - destruct b; [now apply IH|]. cbn [allChars]. now rewrite Hsp, IH.
  - cbn [allChars]. now rewrite H1, IH.
Qed.

Lemma allChars_substring0 (p : ascii -> bool) (n : nat) (s : string) :
  allChars p s = true -> allChars p (Str.substring0 n s) = true.
Proof.
  unfold Str.substring0. revert s.
  induction n as [|n IH]; intros [|c s]; cbn; auto.
  intro H. apply andb_true_iff in H. destruct H as [H1 H2].
  now rewrite H1, IH.
Qed.

(** The record of a match whose captures have the characters [labelOk]
    and [textOk]. *)
Lemma matchRecord_captured (std dCode sCode dom : string)
      (labelOk textOk : ascii -> bool) (i : nat) (m : Regex.captures) :
  textOk " "%char = true ->
  captured labelOk textOk m ->
  Forall (fun r => clauseId r = Regex.capture m 1
                   /\ allChars labelOk (clauseId r) = true
                   /\ allChars textOk (text r) = true)
         (matchRecord std dCode sCode dom i m).
Proof.
  intros Hsp (Hl & Hla & _ & Hta). unfold matchRecord. cbv zeta.
  destruct (20 <? _); constructor; [|constructor].
  cbn [clauseId text].
  assert (E : Str.orElse (Regex.capture m 1) (Str.ofNat (i + 1))
              = Regex.capture m 1).
  { destruct (Regex.capture m 1); [contradiction | reflexivity]. }
  rewrite E. split; [reflexivity|]. split; [exact Hla|].
  apply allChars_substring0, allChars_trim.
  unfold Str.collapseSpaces. apply allChars_collapse; [exact Hsp|].
  now apply allChars_trim.
Qed.

Lemma cascade_from (std dCode sCode dom content : string)
      (labelOk textOk : ascii -> bool) :
  textOk " "%char = true ->
  (forall m, In m (selectMatches content) -> captured labelOk textOk m) ->
  Forall (fun r => clauseId r <> ""
                   /\ allChars labelOk (clauseId r) = true
                   /\ allChars textOk (text r) = true)
         (cascadeRecords std dCode sCode dom content).
Proof.
  intros Hsp Hc. unfold cascadeRecords, forEach.
  apply Forall_forEachFrom_In. intros i m Hm.
  eapply Forall_impl;
    [|exact (matchRecord_captured std dCode sCode dom labelOk textOk i m
               Hsp (Hc m Hm))].
  intros r (E & Hl & Ht). split; [|now split].
  rewrite E. exact (proj1 (Hc m Hm)).
Qed.

Lemma cascade_numbered_or_section (std dCode sCode dom content : string) :
  selectMatches content = Regex.matchAll numberedPattern content
  \/ selectMatches content = Regex.matchAll sectionPattern content
  \/ selectMatches content = [] ->
  Forall (fun r => clauseId r <> ""
                   /\ allChars digitOrDot (clauseId r) = true
                   /\ allChars notDigit (text r) = true)
         (cascadeRecords std dCode sCode dom content).
Proof.
  intro H. apply cascade_from; [reflexivity|].
  destruct H as [->|[->| ->]].
  - apply matchAll_captured. exact numbered_captured.
  - apply matchAll_captured. exact section_captured.
  - intros m [].
Qed.

Lemma cascade_article (std dCode sCode dom content : string) :
  selectMatches content = Regex.matchAll articlePattern content ->
  Forall (fun r => clauseId r <> ""
                   /\ allChars digitOrDot (clauseId r) = true
                   /\ allChars notLetterA (text r) = true)
         (cascadeRecords std dCode sCode dom content).
Proof.
  intro H. apply cascade_from; [reflexivity|]. rewrite H.
  apply matchAll_captured. exact article_captured.
Qed.

Lemma In_forEachFrom {A B : Type} (f : nat -> A -> list B) (l : list A) :
  forall i y,
    In y (forEachFrom f i l) ->
    exists k x, nth_error l k = Some x /\ In y (f (i + k) x).
Proof.
  induction l as [|x l IH]; intros i y; cbn [forEachFrom]; [intros []|].
  intro H. apply in_app_or in H. destruct H as [H|H].
  - exists 0, x. split; [reflexivity|]. now rewrite Nat.add_0_r.
  - destruct (IH _ _ H) as (k & z & Hk & Hz).
    exists (S k), z. split; [exact Hk|].
    now rewrite Nat.add_succ_r.
Qed.

(** Every match the cascade selects captured a label. *)
Lemma selectMatches_labels (content : string) (m : Regex.captures) :
  In m (selectMatches content) ->
  Regex.capture m 1 <> ""
  /\ allChars digitOrDot (Regex.capture m 1) = true.
Proof.
  intro Hm.
  destruct (selectMatches_cases content)
    as [[_ H]|[(_ & _ & H)|(_ & _ & [H|H])]]; rewrite H in Hm.
  - destruct (matchAll_captured _ _ _ content numbered_captured m Hm)
      as (H1 & H2 & _). now split.
  - destruct (matchAll_captured _ _ _ content article_captured m Hm)
      as (H1 & H2 & _). now split.
  - destruct (matchAll_captured _ _ _ content section_captured m Hm)
      as (H1 & H2 & _). now split.
  - destruct Hm.
Qed.

(** X24.  The clause id of a record of the cascade is the label the
    pattern captured.  Every match the cascade selects has a first
    capture that is not empty, so [match[1] || String(index + 1)] is that
    capture whatever the index is, and the ordinal fallback is never
    used there; the record built at position [index] for the match [m]
    has the first capture of [m] as its clause id, which is not empty and
    is made of digits and dots only. *)
Theorem cascade_clause_ids :
  forall std dCode sCode dom content,
    Forall (fun m =>
              Regex.capture m 1 <> ""
              /\ forall index,
                   Str.orElse (Regex.capture m 1) (Str.ofNat (index + 1))
                   = Regex.capture m 1)
           (selectMatches content)
    /\ Forall (fun r =>
                 (exists index m,
                     nth_error (selectMatches content) index = Some m
                     /\ matchRecord std dCode sCode dom index m = [r]
                     /\ clauseId r = Regex.capture m 1)
                 /\ clauseId r <> ""
                 /\ allChars digitOrDot (clauseId r) = true)
              (cascadeRecords std dCode sCode dom content).
Proof.
  intros std dCode sCode dom content.
  assert (Hor : forall m index,
             Regex.capture m 1 <> "" ->
             Str.orElse (Regex.capture m 1) (Str.ofNat (index + 1))
             = Regex.capture m 1).
  { intros m index H. destruct (Regex.capture m 1);
      [contradiction | reflexivity]. }
  split.
  - apply Forall_forall. intros m Hm.
    destruct (selectMatches_labels content m Hm) as [H1 _].
    split; [exact H1|]. intro index. now apply Hor.
  - apply Forall_forall. intros r Hr.
    unfold cascadeRecords, forEach in Hr.
    apply In_forEachFrom in Hr. destruct Hr as (k & m & Hk & Hr).
    cbn [Nat.add] in Hr.
    destruct (selectMatches_labels content m (nth_error_In _ _ Hk))
      as [H1 H2].
    assert (E : matchRecord std dCode sCode dom k m = [r]
                /\ clauseId r = Regex.capture m 1).
    { revert Hr. unfold matchRecord. cbv zeta.
      destruct (20 <? _); [|intros []].
      intros [<-|[]]. split; [reflexivity|].
      cbn [clauseId]. now apply Hor. }
    destruct E as [E1 E2].
    split; [exists k, m; now repeat split|].
    rewrite E2. now split.
Qed.

(** X25.  The text of a record of the cascade never holds a character the
    pattern's capture excludes: no digit when the numbered or the section
    pattern gave the matches, and neither [A] nor [a] when the article
    pattern did. *)
Theorem cascade_text_characters :
  forall std dCode sCode dom content,
    let numbered := Regex.matchAll numberedPattern content in
    let article := Regex.matchAll articlePattern content in
    (2 <= List.length numbered ->
     Forall (fun r => allChars notDigit (text r) = true)
            (cascadeRecords std dCode sCode dom content))
    /\ (List.length numbered < 2 -> 2 <= List.length article ->
        Forall (fun r => allChars notLetterA (text r) = true)
               (cascadeRecords std dCode sCode dom content))
    /\ (List.length numbered < 2 -> List.length article < 2 ->
        Forall (fun r => allChars notDigit (text r) = true)
               (cascadeRecords std dCode sCode dom content)).
Proof.
  intros std dCode sCode dom content numbered article.
  subst numbered article.
  destruct (selectMatches_cases content)
    as [[Hn H]|[(Hn & Ha & H)|(Hn & Ha & H)]];
    (split; [|split]); intros; try lia.
  - eapply Forall_impl; [|apply cascade_numbered_or_section; now left].
    intros r (_ & _ & H3). exact H3.
  - eapply Forall_impl; [|apply cascade_article; exact H].
    intros r (_ & _ & H3). exact H3.
  - eapply Forall_impl;
      [|apply cascade_numbered_or_section; right; exact H].
    intros r (_ & _ & H3). exact H3.
Qed.

Lemma cascade_text_characters_witness :
  2 <= List.length (Regex.matchAll numberedPattern
                                   Samples.numberedAndArticles)
  /\ Forall (fun r => allChars notDigit (text r) = true)
            (cascadeRecords "STD" "SEC-05" "4.3" "security"
                            Samples.numberedAndArticles).
Proof.
  assert (H : 2 <= List.length (Regex.matchAll numberedPattern
                                               Samples.numberedAndArticles))
    by (vm_compute; lia).
  split; [exact H|].
  exact (proj1 (cascade_text_characters "STD" "SEC-05" "4.3" "security"
                                        Samples.numberedAndArticles) H).
Defined.

(* ================================================================== *)
(** ** File names and the corpus built from files *)

Lemma startsWith_tail (s : string) (c : ascii) (t : string) :
  Str.startsWith s (String c t) = true -> Str.includes s t = true.
Proof.
  destruct s as [|d s]; cbn [Str.startsWith]; [discriminate|].
  intro H. apply andb_true_iff in H. destruct H as [_ H].
  cbn [Str.includes]. apply orb_true_iff. right.
  destruct s; cbn [Str.includes]; now rewrite H.
Qed.

Lemma includes_tail (s : string) (c : ascii) (t : string) :
  Str.includes s (String c t) = true -> Str.includes s t = true.
Proof.
  induction s as [|d s IH].
  - cbn. discriminate.
  - intro H. cbn [Str.includes] in H. apply orb_true_iff in H.
    destruct H as [H|H].
    + now apply startsWith_tail in H.
    + cbn [Str.includes]. apply orb_true_iff. right. now apply IH.
Qed.

Lemma extractStandard_nonempty_aux (up : string -> string)
      (filename : string) :
  extractStandardFromFilename up filename <> "".
Proof.
  unfold extractStandardFromFilename. cbv zeta.
  repeat match goal with
         | |- (if ?c then _ else _) <> _ => destruct c
         end; try discriminate.
  apply orElse_nonempty. discriminate.
Qed.

(** X26.  [extractStandardFromFilename] never returns the empty string:
    every name gets one of the fixed codes, its own first two parts in
    upper case, or UNKNOWN. *)
Theorem extractStandard_nonempty :
  forall (toUpperCase : string -> string) (filename : string),
    extractStandardFromFilename toUpperCase filename <> "".
Proof.
  intros up filename. apply extractStandard_nonempty_aux.
Qed.

(** X27.  The NCA_GECC case can never be taken: a name that contains GECC
    contains ECC, which is tested first.  So a name that contains NCA is
    never given NCA_GECC, and a name with NCA and GECC that no earlier
    case takes is given NCA_ECC. *)
Theorem gecc_case_unreachable :
  forall (toUpperCase : string -> string) (filename : string),
    Str.includes (removeFirst ".json" filename) "NCA" = true ->
    extractStandardFromFilename toUpperCase filename <> "NCA_GECC"
    /\ (Str.includes (removeFirst ".json" filename) "GECC" = true ->
        Str.includes (removeFirst ".json" filename) "HCIS" = false ->
        Str.includes (removeFirst ".json" filename) "SBC_801" = false ->
        Str.includes (removeFirst ".json" filename) "SBC_901" = false ->
        Str.includes (removeFirst ".json" filename) "SASO_FIRE" = false ->
        extractStandardFromFilename toUpperCase filename = "NCA_ECC").
Proof.
  intros up filename Hnca. unfold extractStandardFromFilename. cbv zeta.
  rewrite Hnca. split.
  - destruct (Str.includes _ "HCIS"); [discriminate|].
    destruct (Str.includes _ "SBC_801"); [discriminate|].
    destruct (Str.includes _ "SBC_901"); [discriminate|].
    destruct (Str.includes _ "SASO_FIRE");
      [destruct (Str.includes _ "equipment"); discriminate|].
    destruct (Str.includes _ "ECC") eqn:E; [discriminate|].
    destruct (Str.includes _ "GECC") eqn:G; [|discriminate].
    apply includes_tail in G. rewrite G in E. discriminate E.
  - intros G H1 H2 H3 H4. rewrite H1, H2, H3, H4.
    now rewrite (includes_tail _ _ _ G).
Qed.

Lemma gecc_case_unreachable_witness :
  Str.includes (removeFirst ".json" "NCA_GECC.json") "NCA" = true
  /\ extractStandardFromFilename Str.toUpperCase "NCA_GECC.json" = "NCA_ECC".
Proof.
  split; [reflexivity|].
  apply (proj2 (gecc_case_unreachable Str.toUpperCase "NCA_GECC.json"
                                      eq_refl)); reflexivity.
Defined.

(** X28.  The domain derived for a file is in lower case, and it does not
    depend on the case of the file name. *)
Theorem extractDomain_lower_case :
  forall (filename : string) (content : value),
    Str.toLowerCase (extractDomain filename content)
    = extractDomain filename content
    /\ extractDomain (Str.toLowerCase filename) content
       = extractDomain filename content.
Proof.
  intros filename content. split.
  - unfold extractDomain. cbv zeta.
    repeat match goal with
           | |- _ (if ?c then _ else _) = _ => destruct c
           end; try reflexivity.
    apply toLowerCase_idem.
  - unfold extractDomain. now rewrite toLowerCase_idem.
Qed.

Lemma normalizeRecord_standard (record : value) (std dom : string) rs :
  normalizeRecord record std dom = Ok rs ->
  Forall (fun r => standard r = std) rs.
Proof.
  apply normalizeRecord_Forall; try reflexivity.
  intros dCode sCode content.
  eapply Forall_impl; [|apply parseAny_context]. intros a Ha. apply Ha.
Qed.

(** X29.  Every record of the corpus built from the directory comes from
    a readable [.json] file and carries the standard derived from that
    file's name, which is never empty: files with another extension and
    files that cannot be read contribute nothing. *)
Theorem corpus_from_files :
  forall (toUpperCase : string -> string)
         (files : list (string * option value)) (r : StoredRecord),
    In r (loadDataFromFiles toUpperCase files) ->
    standard r <> ""
    /\ exists file jsonData,
        In (file, Some jsonData) files
        /\ Str.endsWith file ".json" = true
        /\ standard r = extractStandardFromFilename toUpperCase file.
Proof.
  intros up files r H. unfold loadDataFromFiles in H.
  apply In_loadData in H.
  destruct H as (std & dom & j & rs & Hin & Hn & Hr).
  apply in_flat_map in Hin. destruct Hin as ([file [json|]] & Hf & Hin);
    [|destruct Hin].
  destruct (Str.endsWith file ".json") eqn:E; [|destruct Hin].
  destruct Hin as [[= <- <- <-]|[]].
  pose proof (normalizeRecord_standard _ _ _ _ Hn) as HF.
  pose proof (proj1 (Forall_forall _ rs) HF r Hr) as Hs. cbv beta in Hs.
  split.
  - rewrite Hs. apply extractStandard_nonempty_aux.
  - exists file, json. now repeat split.
Qed.

Lemma corpus_from_files_witness :
  exists r,
    In r (loadDataFromFiles Str.toUpperCase
            [("HCIS_sec.json", Some Samples.childDoc);
             ("notes.txt", Some Samples.parentDoc);
             ("SBC_801.json", None)])
    /\ standard r = "HCIS_SEC"
    /\ standard r <> "".
Proof.
  assert (H : In (mkRecord "HCIS_SEC" (VStr "") (VStr "") (VStr "")
                           (VStr "Child") (VStr "") (VStr "")
                           (VStr "security") [] (VStr "HCIS_SEC"))
                 (loadDataFromFiles Str.toUpperCase
                    [("HCIS_sec.json", Some Samples.childDoc);
                     ("notes.txt", Some Samples.parentDoc);
                     ("SBC_801.json", None)]))
    by (vm_compute; now left).
  eexists. split; [exact H|]. split; [reflexivity|].
  exact (proj1 (corpus_from_files _ _ _ H)).
Defined.

(* ================================================================== *)
(** ** Texts without a digit *)

Lemma allAscii_complete (a : ascii) : existsb (Ascii.eqb a) allAscii = true.
Proof.
  destruct a as [[] [] [] [] [] [] [] []]; vm_compute; reflexivity.
Qed.

Lemma forall_allAscii (f : ascii -> bool) (a : ascii) :
  forallb f allAscii = true -> f a = true.
Proof.
  intro H. pose proof (allAscii_complete a) as Ha.
  apply existsb_exists in Ha. destruct Ha as (b & Hin & Hb).
  apply Ascii.eqb_eq in Hb. subst b.
  exact (proj1 (forallb_forall f allAscii) H a Hin).
Qed.

Lemma anyChar_app (p : ascii -> bool) (a b : string) :
  anyChar p (a ++ b) = anyChar p a || anyChar p b.
Proof.
  induction a as [|x a IH]; cbn; [reflexivity|].
  now rewrite IH, orb_assoc.
Qed.

Lemma consumes_demands (q : ascii -> bool) r p rest c c' :
  consumes r p rest c c' -> demands q r = true -> anyChar q p = true.
Proof.
  induction 1; cbn [demands]; try discriminate.
  - intro Hd. cbn [anyChar].
    pose proof (forall_allAscii (fun x => implb (p x) (q x)) a Hd) as Ha.
    cbv beta in Ha. rewrite H in Ha. cbn [implb] in Ha. now rewrite Ha.
  - intro Hd. rewrite anyChar_app. apply orb_true_iff in Hd.
    destruct Hd as [Hd|Hd].
    + now rewrite IHconsumes1.
    + rewrite IHconsumes2 by assumption. apply orb_true_r.
  - intro Hd. apply andb_true_iff in Hd. now apply IHconsumes.
  - intro Hd. apply andb_true_iff in Hd. now apply IHconsumes.
  - exact IHconsumes.
Qed.

Lemma allChars_no_anyChar (s : string) :
  allChars notDigit s = true -> anyChar Str.isDigit s = false.
Proof.
  induction s as [|c s IH]; cbn; [reflexivity|].
  unfold notDigit at 1. intro H. apply andb_true_iff in H.
  destruct H as [H1 H2]. apply negb_true_iff in H1.
  now rewrite H1, IH.
Qed.

Lemma matchAt_digit_free (r : Regex.regex) (t : string) :
  demands Str.isDigit r = true ->
  allChars notDigit t = true ->
  Regex.matchAt r t = None.
Proof.
  intros Hd Ht.
  destruct (Regex.matchAt r t) as [[s' c]|] eqn:E; [|reflexivity].
  apply matchAt_sound in E. destruct E as (p & -> & Hc).
  pose proof (consumes_demands _ _ _ _ _ _ Hc Hd) as Hp.
  rewrite allChars_app in Ht. apply andb_true_iff in Ht.
  destruct Ht as [Ht _]. apply allChars_no_anyChar in Ht.
  rewrite Ht in Hp. discriminate Hp.
Qed.

Lemma matchAllFrom_digit_free (r : Regex.regex) (s : string) :
  demands Str.isDigit r = true ->
  allChars notDigit s = true ->
  forall skip, Regex.matchAllFrom r s skip = [].
Proof.
  intros Hd. induction s as [|a t IH]; intros Hs skip.
  - destruct skip; cbn [Regex.matchAllFrom]; [|reflexivity].
    now rewrite (matchAt_digit_free r "" Hd).
  - assert (Ht : allChars notDigit t = true).
    { cbn [allChars] in Hs. now apply andb_true_iff in Hs. }
    destruct skip; cbn [Regex.matchAllFrom]; [|now apply IH].
    rewrite (matchAt_digit_free r _ Hd Hs). now apply IH.
Qed.

(** X30.  A text without any digit is never segmented by the cascade:
    each of the three patterns needs a digit, so none of them matches, the
    cascade gives no record, and a text that is not blank gets the result
    of the paragraph and whole-text fallbacks. *)
Theorem digit_free_text_skips_cascade :
  forall std dCode sCode dom content,
    allChars notDigit content = true ->
    Regex.matchAll numberedPattern content = []
    /\ Regex.matchAll articlePattern content = []
    /\ Regex.matchAll sectionPattern content = []
    /\ cascadeRecords std dCode sCode dom content = []
    /\ (Str.nonEmpty (Str.trim content) = true ->
        parseContentIntoClauses std dCode sCode dom content
        = fallbackRecords std dCode sCode dom content).
Proof.
  intros std dCode sCode dom content H.
  assert (Hn : Regex.matchAll numberedPattern content = [])
    by (apply matchAllFrom_digit_free; [vm_compute; reflexivity | exact H]).
  assert (Ha : Regex.matchAll articlePattern content = [])
    by (apply matchAllFrom_digit_free; [vm_compute; reflexivity | exact H]).
  assert (Hs : Regex.matchAll sectionPattern content = [])
    by (apply matchAllFrom_digit_free; [vm_compute; reflexivity | exact H]).
  assert (Hc : cascadeRecords std dCode sCode dom content = []).
  { unfold cascadeRecords. rewrite selectMatches_none;
      [reflexivity | rewrite Hn | rewrite Ha | rewrite Hs]; cbn; lia. }
  repeat split; try assumption.
  intro Hnb. now apply parse_without_cascade.
Qed.

Lemma digit_free_text_skips_cascade_witness :
  allChars notDigit Samples.twoParagraphs = true
  /\ cascadeRecords "STD" "SEC-05" "4.3" "security" Samples.twoParagraphs
     = [].
Proof.
  split; [vm_compute; reflexivity|].
  apply (digit_free_text_skips_cascade "STD" "SEC-05" "4.3" "security"
                                       Samples.twoParagraphs).
  vm_compute. reflexivity.
Defined.
